(** * Investment Allocation API: the response extractor and the request handler

    A shallow embedding of [main.py].  The regular expressions of
    [extract_json_from_text] run on a small backtracking matcher that
    follows CPython's [re] module, [json.loads] is the recursive-descent
    decoder of CPython's [json] package, and [allocate_investment] is
    written in a small exception-and-state monad over a log of the calls
    made to the completion service.

    Python strings are sequences of Unicode code points, so a text is a
    [list N].  Python integers are unbounded, so they are [Z].  Floats are
    kept as the literal that is handed to [float()].

    The limits that the interpreter puts on its resources are part of the
    model, as [json.loads] and [int()] raise what the extractor does not
    catch when they are reached: [int()] refuses a text of more digits
    than [sys.get_int_max_str_digits()], and [json.loads] runs out of stack
    in objects and arrays that are nested too deep.  The limits are
    parameters ([limits]); [cpython_3_11] has the values of CPython 3.11.
    The age of a request comes from a JSON body that the framework has
    decoded, under the same limit on digits, before the handler runs; the
    prompt writes it with [str()], which is modelled without that limit.

    The development has four parts: the definitions (Python values, the
    [re] and [json] modules, [main.py], the words of the specification, a
    writer of allocation results, the prompt), lemmas on the matcher and on
    the decoder, the properties of the specification with concrete runs,
    and further properties of the extractor, the handler, the client and
    the prompt. *)

From Stdlib Require Import Ascii String List NArith ZArith Bool Lia.
Import ListNotations.

Local Open Scope N_scope.

(** ** Python strings *)

Definition pystr := list N.

Definition ord (a : ascii) : N := N_of_ascii a.

(** [py "abc"] is the Python string ['abc'] (ASCII literals only). *)
Definition py (s : string) : pystr := map ord (list_ascii_of_string s).
Arguments py : simpl never.

Definition dquote : N := 34.
Definition apostrophe : N := Eval cbv in ord "'".

(** [pyq] reads an apostrophe as a double quote, so that JSON text can be
    written down without escaping: [pyq "{'a': 1}"] is the text [{"a": 1}]. *)
Definition pyq (s : string) : pystr :=
  map (fun c => if c =? apostrophe then dquote else c) (py s).

Definition newline : N := 10.
Definition lbrace : N := Eval cbv in ord "{".
Definition rbrace : N := Eval cbv in ord "}".
Definition lbracket : N := Eval cbv in ord "[".
Definition rbracket : N := Eval cbv in ord "]".
Definition backslash : N := 92.
Definition colon : N := Eval cbv in ord ":".
Definition comma : N := Eval cbv in ord ",".
Definition percent : N := Eval cbv in ord "%".
Definition minus : N := Eval cbv in ord "-".
Definition plus : N := Eval cbv in ord "+".
Definition dot : N := Eval cbv in ord ".".
Definition zero : N := Eval cbv in ord "0".
Definition nine : N := Eval cbv in ord "9".

Fixpoint pystr_eqb (a b : pystr) : bool :=
  match a, b with
  | [], [] => true
  | x :: a', y :: b' => (x =? y) && pystr_eqb a' b'
  | _, _ => false
  end.

(** [s.startswith(p)], returning what follows the prefix. *)
Fixpoint strip_prefix (p s : pystr) : option pystr :=
  match p, s with
  | [], _ => Some s
  | x :: p', y :: s' => if x =? y then strip_prefix p' s' else None
  | _ :: _, [] => None
  end.

(** The longest prefix whose characters all satisfy [f], and the rest. *)
Fixpoint span (f : N -> bool) (s : pystr) : pystr * pystr :=
  match s with
  | c :: s' =>
      if f c then let (a, b) := span f s' in (c :: a, b) else ([], s)
  | [] => ([], [])
  end.

(** ** Python values, as far as [json.loads] produces them *)

#[local] Set Warnings "-register-all".

Inductive value :=
| VNone
| VBool (b : bool)
| VInt (n : Z)
| VFloat (literal : pystr)   (* float(literal) *)
| VStr (s : pystr)
| VList (l : list value)
| VDict (d : list (pystr * value)).

(** A [dict] keeps its keys in insertion order; assigning to a key that is
    present replaces the value in place. *)
Section Dict.
Context {V : Type}.

Fixpoint dict_set (d : list (pystr * V)) (k : pystr) (v : V) : list (pystr * V) :=
  match d with
  | [] => [(k, v)]
  | (k', v') :: d' =>
      if pystr_eqb k k' then (k', v) :: d' else (k', v') :: dict_set d' k v
  end.

Fixpoint dict_lookup (d : list (pystr * V)) (k : pystr) : option V :=
  match d with
  | [] => None
  | (k', v') :: d' => if pystr_eqb k k' then Some v' else dict_lookup d' k
  end.

(** [dict(pairs)] *)
Definition dict_of_pairs (pairs : list (pystr * V)) : list (pystr * V) :=
  fold_left (fun d kv => dict_set d (fst kv) (snd kv)) pairs [].
End Dict.

Definition dict := list (pystr * value).

(** [d.get(k, default)] *)
Definition dict_get (d : dict) (k : pystr) (default : value) : value :=
  match dict_lookup d k with
  | Some v => v
  | None => default
  end.

(** ** Limits of the interpreter

    [max_str_digits] is [sys.get_int_max_str_digits()]: 4300 unless the
    interpreter is told otherwise, 0 for no limit (as before CPython 3.11).
    [recursion_left] is the number of objects and arrays, one in the
    other, that [json.loads] can enter where the extractor calls it: what
    is left of [sys.getrecursionlimit()] in the scanner of [json], once
    [json.loads], [decode] and [raw_decode] have been entered and have
    called the scanner. *)

Record limits := {
  max_str_digits : nat;
  recursion_left : nat
}.

(** The number of levels that it takes to raise a [JSONDecodeError], which
    is done by a call to the class: with fewer levels left, the call ends
    in a [RecursionError]. *)
Definition errmsg_frames : nat := 3.

(** CPython 3.11 as it starts, with [left] levels of recursion left at the
    call of [json.loads]. *)
Definition cpython_3_11 (left : nat) : limits :=
  {| max_str_digits := 4300; recursion_left := left |}.

(** [int()] refuses [n] digits: there is a limit, [n] is above it, and [n]
    is above the 640 digits that are always converted. *)
Definition too_many_digits (lim : limits) (n : nat) : bool :=
  ((0 <? max_str_digits lim) && (max_str_digits lim <? n) && (640 <? n))%nat.

(** ** Exceptions *)

(** Where the interpreter ran out of stack. *)
Inductive recursion_site :=
| decoding_object             (* at the opening brace of an object *)
| decoding_array              (* at the opening bracket of an array *)
| raising (left : nat).       (* in a call that the decoder makes, to build a
                                 JSONDecodeError or to look up a constant,
                                 with [left] levels left *)

(** The exceptions (instances of [Exception]) that are raised in the body
    of the handler and in what it calls. *)
Inductive exn :=
| ClientError (message : pystr)        (* raised by the completion call *)
| IndexError                           (* [choices[0]] of an empty list *)
| TypeError                            (* [re.search] on [None] *)
| AttributeError (obj : value)         (* [.get] on what is no dict *)
| ValidationError (allocation explanation : value)
| JSONDecodeError                      (* [json.loads]: the text is no JSON *)
| ValueError (digits : nat)            (* [int()]: more digits than the limit *)
| RecursionError (site : recursion_site).

(** An exception of the limits: a [ValueError] of [int()] for too many
    digits, or a [RecursionError]. *)
Definition limit_error (lim : limits) (e : exn) : Prop :=
  (exists digits, e = ValueError digits /\ too_many_digits lim digits = true) \/
  (exists site, e = RecursionError site).

(** ** The [re] module

    A pattern is the sequence of operations that [re.compile] produces for
    it.  The patterns of [main.py] only repeat single-character sets, so the
    repeat operations carry a character set ([REPEAT_ONE] and
    [MIN_REPEAT_ONE] in [sre]).  Matching backtracks in the order of [sre]:
    a greedy repeat tries the longest run first, a lazy one the shortest. *)

Module Re.

Inductive charset :=
| LITERAL (c : N)     (* the character itself *)
| ANY                 (* [.] without DOTALL: anything but a line feed *)
| ANY_ALL             (* [[\s\S]]: anything *)
| DIGIT.              (* [\d]: a Unicode decimal digit *)

Inductive op :=
| ONE (c : charset)
| MAX_REPEAT (min : nat) (c : charset)   (* c* is min 0, c+ is min 1 *)
| MIN_REPEAT (min : nat) (c : charset)   (* c*? is min 0 *)
| MARK.                                  (* a group opens or closes *)

Definition pattern := list op.

(** A pattern that matches the text [s] literally.  The f-string of
    [extract_json_from_text] pastes the asset name into the pattern; the
    names consist of letters, digits and spaces, which stand for
    themselves in a pattern. *)
Definition literal (s : pystr) : pattern := map (fun c => ONE (LITERAL c)) s.

Definition ascii_lower (c : N) : N :=
  if (65 <=? c) && (c <=? 90) then c + 32 else c.

(** The non-ASCII characters that IGNORECASE lets an ASCII letter match:
    U+0130 and U+0131 for [i], U+017F for [s], U+212A for [k]. *)
Definition ignorecase_extra (lo : N) : list N :=
  if lo =? 105 then [304; 305]
  else if lo =? 115 then [383]
  else if lo =? 107 then [8490]
  else [].

(** A literal of the pattern under IGNORECASE, for an ASCII literal [l]
    (all literals of [main.py] are ASCII). *)
Definition literal_ignore (l x : N) : bool :=
  let lo := ascii_lower l in
  (ascii_lower x =? lo) || existsb (N.eqb x) (ignorecase_extra lo).

Section Engine.
(** [Py_UNICODE_TODECIMAL]: the value of a decimal digit of the
    interpreter's Unicode database, [None] for any other character. *)
Variable todecimal : N -> option N.
(** The IGNORECASE flag. *)
Variable ignorecase : bool.

Definition test (c : charset) (x : N) : bool :=
  match c with
  | LITERAL l => if ignorecase then literal_ignore l x else l =? x
  | ANY => negb (x =? newline)
  | ANY_ALL => true
  | DIGIT => match todecimal x with Some _ => true | None => false end
  end.

Section Repeat.
Context {R : Type}.
Variable f : N -> bool.
(** what follows the repeat in the pattern *)
Variable k : pystr -> option R.

Fixpoint max_repeat (min : nat) (s : pystr) {struct s} : option R :=
  match s with
  | x :: s' =>
      if f x then
        match max_repeat (pred min) s' with
        | Some r => Some r
        | None => match min with O => k s | S _ => None end
        end
      else match min with O => k s | S _ => None end
  | [] => match min with O => k [] | S _ => None end
  end.

Fixpoint min_repeat (min : nat) (s : pystr) {struct s} : option R :=
  match min with
  | O =>
      match k s with
      | Some r => Some r
      | None =>
          match s with
          | x :: s' => if f x then min_repeat O s' else None
          | [] => None
          end
      end
  | S m =>
      match s with
      | x :: s' => if f x then min_repeat m s' else None
      | [] => None
      end
  end.
End Repeat.

(** [run p marks s] matches [p] at the start of [s].  It yields the text
    left after the match and the texts that were left at each [MARK]. *)
Fixpoint run (p : pattern) (marks : list pystr) (s : pystr) {struct p}
  : option (list pystr * pystr) :=
  match p with
  | [] => Some (marks, s)
  | ONE c :: p' =>
      match s with
      | x :: s' => if test c x then run p' marks s' else None
      | [] => None
      end
  | MAX_REPEAT min c :: p' => max_repeat (test c) (run p' marks) min s
  | MIN_REPEAT min c :: p' => min_repeat (test c) (run p' marks) min s
  | MARK :: p' => run p' (marks ++ [s]) s
  end.

(** A match object: the text from the start of the match on, the text
    left after the match, and the marks. *)
Record match_object := {
  m_from : pystr;
  m_rest : pystr;
  m_marks : list pystr
}.

(** The text between two positions, each given by what is left there. *)
Definition between (from to : pystr) : pystr :=
  firstn (length from - length to)%nat from.

(** [m.group(i)] for [i] = 0 or the number of a group that took part in
    the match. *)
Definition group (m : match_object) (i : nat) : pystr :=
  match i with
  | O => between (m_from m) (m_rest m)
  | S j =>
      between (nth (2 * j)%nat (m_marks m) []) (nth (2 * j + 1)%nat (m_marks m) [])
  end.

(** [re.search]: the first position of the text, from the left, at
    which the pattern matches. *)
Fixpoint search (p : pattern) (s : pystr) {struct s} : option match_object :=
  match run p [] s with
  | Some (marks, rest) => Some {| m_from := s; m_rest := rest; m_marks := marks |}
  | None =>
      match s with
      | [] => None
      | _ :: s' => search p s'
      end
  end.
End Engine.

End Re.

(** ** The [json] module

    [json.loads] as CPython runs it (the [_json] accelerator that
    [json.decoder] and [json.scanner] load, in its default strict mode): a
    recursive-descent decoder.  A text that is no JSON makes it raise a
    [JSONDecodeError]; at the limits of the interpreter it raises a
    [ValueError] that is no [JSONDecodeError], or a [RecursionError]. *)

Module Json.

(** The result of scanning at some position of the text: a value and the
    text left after it; a decoding error ([JSONDecodeError]); a
    [StopIteration], which the scanner raises where a value is missing and
    of which [raw_decode] makes a [JSONDecodeError]; or another exception,
    which is a [ValueError] or a [RecursionError].  [Starved] is not a
    result of Python: it marks a run of the model that was given too little
    fuel. *)
Inductive scan :=
| Found (v : value) (rest : pystr)
| DecodeError
| StopIteration
| Raised (e : exn)
| Starved.

Definition is_whitespace (c : N) : bool :=
  (c =? 32) || (c =? 9) || (c =? 10) || (c =? 13).

Fixpoint skip_whitespace (s : pystr) : pystr :=
  match s with
  | c :: s' => if is_whitespace c then skip_whitespace s' else s
  | [] => []
  end.

Definition is_digit (c : N) : bool := (zero <=? c) && (c <=? nine).

Definition hexdigit (c : N) : option N :=
  if (48 <=? c) && (c <=? 57) then Some (c - 48)
  else if (97 <=? c) && (c <=? 102) then Some (c - 87)
  else if (65 <=? c) && (c <=? 70) then Some (c - 55)
  else None.

(** The four hexadecimal digits of a [\uXXXX] escape. *)
Definition decode_uXXXX (a b c d : N) : option N :=
  match hexdigit a, hexdigit b, hexdigit c, hexdigit d with
  | Some x, Some y, Some z, Some w => Some (((x * 16 + y) * 16 + z) * 16 + w)
  | _, _, _, _ => None
  end.

(** The table [BACKSLASH] of [json.decoder]. *)
Definition BACKSLASH (esc : N) : option N :=
  if esc =? dquote then Some dquote
  else if esc =? backslash then Some backslash
  else if esc =? ord "/" then Some (ord "/")
  else if esc =? ord "b" then Some 8
  else if esc =? ord "f" then Some 12
  else if esc =? ord "n" then Some 10
  else if esc =? ord "r" then Some 13
  else if esc =? ord "t" then Some 9
  else None.

Definition is_high_surrogate (u : N) : bool := (55296 <=? u) && (u <=? 56319).
Definition is_low_surrogate (u : N) : bool := (56320 <=? u) && (u <=? 57343).
Definition join_surrogates (u u2 : N) : N :=
  65536 + N.lor (N.shiftl (u - 55296) 10) (u2 - 56320).

Definition append_char (c : N) (r : option (pystr * pystr)) : option (pystr * pystr) :=
  match r with
  | Some (chunks, rest) => Some (c :: chunks, rest)
  | None => None
  end.

(** [scanstring]: [s] is the text after the opening quote.  The result is
    the decoded string and the text after the closing quote. *)
Fixpoint scanstring (s : pystr) : option (pystr * pystr) :=
  match s with
  | [] => None                              (* unterminated string *)
  | c :: s1 =>
      if c =? dquote then Some ([], s1)
      else if c =? backslash then
        match s1 with
        | [] => None                        (* unterminated string *)
        | esc :: s2 =>
            if esc =? ord "u" then
              match s2 with
              | h1 :: h2 :: h3 :: h4 :: s3 =>
                  match decode_uXXXX h1 h2 h3 h4 with
                  | None => None            (* invalid \uXXXX escape *)
                  | Some uni =>
                      if is_high_surrogate uni then
                        match s3 with
                        | b :: u :: s4 =>
                            if (b =? backslash) && (u =? ord "u") then
                              match s4 with
                              | k1 :: k2 :: k3 :: k4 :: s5 =>
                                  match decode_uXXXX k1 k2 k3 k4 with
                                  | None => None
                                  | Some uni2 =>
                                      if is_low_surrogate uni2
                                      then append_char (join_surrogates uni uni2) (scanstring s5)
                                      else append_char uni (scanstring s3)
                                  end
                              | _ => None   (* invalid \uXXXX escape *)
                              end
                            else append_char uni (scanstring s3)
                        | _ => append_char uni (scanstring s3)
                        end
                      else append_char uni (scanstring s3)
                  end
              | _ => None                   (* invalid \uXXXX escape *)
              end
            else
              match BACKSLASH esc with
              | Some char => append_char char (scanstring s2)
              | None => None                (* invalid \escape *)
              end
        end
      else if c <? 32 then None             (* invalid control character *)
      else append_char c (scanstring s1)
  end.

(** A number is an optional minus sign and the digits of the integer part
    (a single zero, or a digit from 1 to 9 and then any digits), followed
    by an optional fraction (a dot and at least one digit) and an optional
    exponent (e or E, an optional sign, at least one digit).  Each part
    yields what it matched and the text after it; an optional part that
    is absent matched nothing. *)
Definition opt_minus (s : pystr) : pystr * pystr :=
  match s with
  | c :: r => if c =? minus then ([c], r) else ([], s)
  | [] => ([], s)
  end.

Definition int_digits (s : pystr) : option (pystr * pystr) :=
  match s with
  | c :: r =>
      if c =? zero then Some ([c], r)
      else if is_digit c then let (ds, r') := span is_digit r in Some (c :: ds, r')
      else None
  | [] => None
  end.

Definition opt_frac (s : pystr) : pystr * pystr :=
  match s with
  | d :: r =>
      if d =? dot then
        match span is_digit r with
        | ([], _) => ([], s)
        | (ds, r') => (d :: ds, r')
        end
      else ([], s)
  | [] => ([], s)
  end.

Definition opt_exp (s : pystr) : pystr * pystr :=
  match s with
  | e :: r =>
      if (e =? ord "e") || (e =? ord "E") then
        let (esign, r') :=
          match r with
          | g :: t => if (g =? minus) || (g =? plus) then ([g], t) else ([], r)
          | [] => ([], r)
          end in
        match span is_digit r' with
        | ([], _) => ([], s)
        | (ds, r'') => (e :: esign ++ ds, r'')
        end
      else ([], s)
  | [] => ([], s)
  end.

(** The groups of a number (integer, fraction, exponent) and the text
    after it. *)
Definition match_number (s : pystr) : option (pystr * pystr * pystr * pystr) :=
  let (sign, s1) := opt_minus s in
  match int_digits s1 with
  | None => None
  | Some (digits, r1) =>
      let (frac, r2) := opt_frac r1 in
      let (exp, r3) := opt_exp r2 in
      Some (sign ++ digits, frac, exp, r3)
  end.

Definition digits_value (ds : pystr) : Z :=
  fold_left (fun acc c => (10 * acc + Z.of_N (c - zero))%Z) ds 0%Z.

(** The integer that the integer group of a number stands for. *)
Definition integer_value (integer : pystr) : Z :=
  match integer with
  | c :: ds => if c =? minus then (- digits_value ds)%Z else digits_value integer
  | [] => 0%Z
  end.

(** The digits of the integer group, without the sign. *)
Definition integer_digits (integer : pystr) : pystr :=
  match integer with
  | c :: ds => if c =? minus then ds else integer
  | [] => []
  end.

Definition constant (name : pystr) (s : pystr) : option (value * pystr) :=
  match strip_prefix name s with
  | Some rest => Some (VFloat name, rest)
  | None => None
  end.

(** [parse_constant(name)] for [NaN], [Infinity] and [-Infinity], with
    [left] levels of recursion left: the scanner calls a Python object
    here (the [__getitem__] of a table), and the call takes one level.
    Numbers and the other constants are made without a call. *)
Definition parse_constant (left : nat) (v : value) (rest : pystr) : scan :=
  match left with
  | O => Raised (RecursionError (raising 0))
  | S _ => Found v rest
  end.

Section Scanner.
Variable lim : limits.

(** [int(integer)] for the integer group of a number: a [ValueError] when
    it has too many digits. *)
Definition parse_int (integer : pystr) : exn + Z :=
  let digits := length (integer_digits integer) in
  if too_many_digits lim digits then inl (ValueError digits)
  else inr (integer_value integer).

(** A decoding error, raised with [left] levels of recursion left: the
    class [JSONDecodeError] is called, and the call takes [errmsg_frames]
    levels. *)
Definition errmsg (left : nat) : scan :=
  if (left <? errmsg_frames)%nat then Raised (RecursionError (raising left))
  else DecodeError.

(** [scan_once] with the loops of [JSONObject] and [JSONArray].
    [object_pairs] starts after the opening quote of a key, [array_items]
    at the start of an item.  [left] is the number of levels of recursion
    that are left: an object or an array takes one.  The scanner raises
    its errors by [errmsg], but for a value that is missing: there it
    raises [StopIteration], which takes no level. *)
Fixpoint scan_once (fuel : nat) (left : nat) (s : pystr) {struct fuel} : scan :=
  match fuel with
  | O => Starved
  | S fuel' =>
      match s with
      | [] => StopIteration
      | nextchar :: s1 =>
          if nextchar =? dquote then
            match scanstring s1 with
            | Some (str, rest) => Found (VStr str) rest
            | None => errmsg left
            end
          else if nextchar =? lbrace then
            match left with
            | O => Raised (RecursionError decoding_object)
            | S left' =>
                match skip_whitespace s1 with
                | c :: s2 =>
                    if c =? rbrace then Found (VDict []) s2
                    else if c =? dquote then object_pairs fuel' left' [] s2
                    else errmsg left'       (* expecting property name *)
                | [] => errmsg left'
                end
            end
          else if nextchar =? lbracket then
            match left with
            | O => Raised (RecursionError decoding_array)
            | S left' =>
                match skip_whitespace s1 with
                | c :: s2 =>
                    if c =? rbracket then Found (VList []) s2
                    else array_items fuel' left' [] (c :: s2)
                | [] => StopIteration       (* expecting value *)
                end
            end
          else
            match strip_prefix (py "null") s with
            | Some rest => Found VNone rest
            | None =>
            match strip_prefix (py "true") s with
            | Some rest => Found (VBool true) rest
            | None =>
            match strip_prefix (py "false") s with
            | Some rest => Found (VBool false) rest
            | None =>
            match match_number s with
            | Some (integer, frac, exp, rest) =>
                match frac, exp with
                | [], [] =>
                    match parse_int integer with
                    | inr n => Found (VInt n) rest
                    | inl e => Raised e
                    end
                | _, _ => Found (VFloat (integer ++ frac ++ exp)) rest
                end
            | None =>
            match constant (py "NaN") s with
            | Some (v, rest) => parse_constant left v rest
            | None =>
            match constant (py "Infinity") s with
            | Some (v, rest) => parse_constant left v rest
            | None =>
            match constant (py "-Infinity") s with
            | Some (v, rest) => parse_constant left v rest
            | None => StopIteration        (* expecting value *)
            end end end end end end end
      end
  end

with object_pairs (fuel : nat) (left : nat) (pairs : list (pystr * value)) (s : pystr)
     {struct fuel} : scan :=
  match fuel with
  | O => Starved
  | S fuel' =>
      match scanstring s with
      | None => errmsg left
      | Some (key, s1) =>
          match skip_whitespace s1 with
          | c :: s2 =>
              if c =? colon then
                match scan_once fuel' left (skip_whitespace s2) with
                | Found v s3 =>
                    let pairs' := pairs ++ [(key, v)] in
                    match skip_whitespace s3 with
                    | c' :: s4 =>
                        if c' =? rbrace then Found (VDict (dict_of_pairs pairs')) s4
                        else if c' =? comma then
                          match skip_whitespace s4 with
                          | c'' :: s5 =>
                              if c'' =? dquote then object_pairs fuel' left pairs' s5
                              else errmsg left   (* expecting property name *)
                          | [] => errmsg left
                          end
                        else errmsg left         (* expecting ',' delimiter *)
                    | [] => errmsg left
                    end
                | DecodeError => DecodeError
                | StopIteration => StopIteration
                | Raised e => Raised e
                | Starved => Starved
                end
              else errmsg left                   (* expecting ':' delimiter *)
          | [] => errmsg left
          end
      end
  end

with array_items (fuel : nat) (left : nat) (values : list value) (s : pystr)
     {struct fuel} : scan :=
  match fuel with
  | O => Starved
  | S fuel' =>
      match scan_once fuel' left s with
      | Found v s1 =>
          let values' := values ++ [v] in
          match skip_whitespace s1 with
          | c :: s2 =>
              if c =? rbracket then Found (VList values') s2
              else if c =? comma then array_items fuel' left values' (skip_whitespace s2)
              else errmsg left                   (* expecting ',' delimiter *)
          | [] => errmsg left
          end
      | DecodeError => DecodeError
      | StopIteration => StopIteration
      | Raised e => Raised e
      | Starved => Starved
      end
  end.

(** Fuel that is enough for any text of this length, see
    [scan_once_not_starved]. *)
Definition fuel_for (s : pystr) : nat := (2 * length s + 1)%nat.

Definition BOM : N := 65279.

(** [JSONDecoder.raw_decode(s, idx)], with the text [at_idx] that starts
    at [idx]: scan one value, and make a [JSONDecodeError] of the
    [StopIteration] of the scanner.  There is one level more here than in
    the scanner, whose call takes one. *)
Definition raw_decode (s at_idx : pystr) : scan :=
  match scan_once (fuel_for s) (recursion_left lim) at_idx with
  | StopIteration => errmsg (1 + recursion_left lim)      (* expecting value *)
  | r => r
  end.

(** [JSONDecoder.decode]: skip white space, scan one value, skip white
    space, and fail on extra data.  There is one level more here than in
    [raw_decode]. *)
Definition decode (s : pystr) : scan :=
  match raw_decode s (skip_whitespace s) with
  | Found obj rest =>
      match skip_whitespace rest with
      | [] => Found obj []
      | _ :: _ => errmsg (2 + recursion_left lim)         (* extra data *)
      end
  | r => r
  end.

(** [json.loads(s)] for a [str]: the value, or the exception that is
    raised.  A leading byte-order mark is an error; there is one level
    more here than in [decode].  [decode] ends neither in [StopIteration]
    nor in [Starved], see [decode_not_starved]. *)
Definition loads (s : pystr) : exn + value :=
  match (if match s with c :: _ => c =? BOM | [] => false end
         then errmsg (3 + recursion_left lim)             (* unexpected BOM *)
         else decode s) with
  | Found obj _ => inr obj
  | Raised e => inl e
  | DecodeError | StopIteration | Starved => inl JSONDecodeError
  end.
End Scanner.

End Json.

(** ** [main.py] *)

Section Main.

(** [Py_UNICODE_TODECIMAL] of the interpreter's Unicode database, which
    decides what [\d] matches and what [int()] makes of it. *)
Variable todecimal : N -> option N.

(** The limits of the interpreter. *)
Variable lim : limits.

(** *** Hardcoded market trends *)

Definition MARKET_TRENDS : list (pystr * pystr) :=
  [ (py "NIFTY 50",
     py "Expected to increase by 10-12% in the next year due to strong economic growth and corporate earnings but riskier");
    (py "Gold",
     py "Expected to increase by 8-10% in the next year due to global economic uncertainty and inflation concerns");
    (py "Bonds",
     py "Expected to yield 6-7% in the next year with moderate risk");
    (py "Mutual Funds",
     py "Expected to increase by 8-10% in the next year less risky due to diversification over multiple stocks by experts") ].

(** [d.keys()] *)
Definition keys {V : Type} (d : list (pystr * V)) : list pystr := map fst d.

(** *** [extract_json_from_text] *)

(** [r'\{[\s\S]*\}'] *)
Definition json_pattern : Re.pattern :=
  [ Re.ONE (Re.LITERAL lbrace); Re.MAX_REPEAT 0 Re.ANY_ALL; Re.ONE (Re.LITERAL rbrace) ].

(** [rf"{asset}.*?(\d+)%"] *)
Definition pattern (asset : pystr) : Re.pattern :=
  Re.literal asset
    ++ [ Re.MIN_REPEAT 0 Re.ANY; Re.MARK; Re.MAX_REPEAT 1 Re.DIGIT; Re.MARK;
         Re.ONE (Re.LITERAL percent) ].

(** The integer that a text of decimal digits stands for. *)
Definition int_value (s : pystr) : Z :=
  fold_left
    (fun acc c => (10 * acc + match todecimal c with Some d => Z.of_N d | None => 0 end)%Z)
    s 0%Z.

(** [int(s)] for a text of decimal digits, which is what group 1 of
    [pattern] holds (see [search_pattern_first]): a [ValueError] when the
    digits are too many. *)
Definition int (s : pystr) : exn + Z :=
  if too_many_digits lim (length s) then inl (ValueError (length s))
  else inr (int_value s).

(** The loop over [MARKET_TRENDS.keys()] (lines 70 to 74), from the
    [allocation] built so far.  What [int()] raises ends the loop. *)
Fixpoint allocation_loop (assets : list pystr) (text : pystr) (allocation : dict)
  : exn + dict :=
  match assets with
  | [] => inr allocation
  | asset :: assets' =>
      match Re.search todecimal true (pattern asset) text with
      | Some m =>
          match int (Re.group m 1) with
          | inr n => allocation_loop assets' text (dict_set allocation asset (VInt n))
          | inl e => inl e
          end
      | None => allocation_loop assets' text allocation
      end
  end.

Definition unable_to_parse : pystr :=
  py "Unable to parse specific allocations. Please review the full response for details.".

(** Lines 68 to 82: the fallback if JSON extraction fails. *)
Definition fallback (text : pystr) : exn + value :=
  match allocation_loop (keys MARKET_TRENDS) text [] with
  | inl e => inl e
  | inr (kv :: allocation) =>
      inr (VDict [ (py "allocation", VDict (kv :: allocation));
                   (py "explanation", VStr text) ])
  | inr [] =>
      inr (VDict [ (py "allocation", VDict [ (py "Cash", VInt 100) ]);
                   (py "explanation", VStr unable_to_parse) ])
  end.

(** The function returns a value or raises: [json.loads] raises a
    [JSONDecodeError], which is caught, or a [ValueError] or a
    [RecursionError], which are not (a [JSONDecodeError] is a [ValueError],
    but not the other way round). *)
Definition extract_json_from_text (text : pystr) : exn + value :=
  match Re.search todecimal false json_pattern text with
  | Some m =>
      match Json.loads lim (Re.group m 0) with
      | inr v => inr v
      | inl JSONDecodeError => fallback text   (* except json.JSONDecodeError: pass *)
      | inl e => inl e
      end
  | None => fallback text
  end.

(** *** The request handler *)

(** The float type of Python and the text of the prompt (lines 90 to 110)
    are not interpreted. *)
Variable float : Type.

Record InvestmentRequest := {
  age : Z;
  investment_amount : float;
  market_forecast : option pystr
}.

Record InvestmentResponse := {
  allocation_percentage : dict;
  recommendation : pystr
}.

Variable build_prompt : InvestmentRequest -> pystr.

(** [str(e)] *)
Variable str : exn -> pystr.

(** The process environment after [load_dotenv()]. *)
Variable getenv : pystr -> option pystr.

(** What is sent to the completion service in one call. *)
Record completion_request := {
  model : option pystr;
  messages : list (pystr * pystr);     (* role, content *)
  temperature : pystr;                 (* the literal *)
  max_tokens : Z
}.

(** What comes back: an exception, or a completion with the
    [message.content] of each of its choices. *)
Inductive reply :=
| Raises (e : exn)
| Completion (choices : list (option pystr)).

(** The world outside the handler: the calls that have reached the
    completion service, oldest first. *)
Record world := { calls : list completion_request }.

(** The completion service: its reply may depend on what it has seen. *)
Variable service : world -> completion_request -> reply.

(** Computations that may raise and that act on the world. *)
Definition M (A : Type) : Type := world -> (exn + A) * world.

Definition ret {A} (a : A) : M A := fun w => (inr a, w).
Definition raise {A} (e : exn) : M A := fun w => (inl e, w).
Definition bind {A B} (m : M A) (k : A -> M B) : M B :=
  fun w =>
    match m w with
    | (inr a, w') => k a w'
    | (inl e, w') => (inl e, w')
    end.

Notation "x <- m ;; k" := (bind m (fun x => k))
  (at level 61, m at next level, right associativity).

(** The world after one more call. *)
Definition called (w : world) (r : completion_request) : world :=
  {| calls := calls w ++ [r] |}.

(** [client.chat.completions.create(...)]: one call to the service. *)
Definition chat_completions_create (r : completion_request) : M (list (option pystr)) :=
  fun w =>
    let w' := called w r in
    match service w r with
    | Raises e => (inl e, w')
    | Completion choices => (inr choices, w')
    end.

(** [l[0]] *)
Definition first {A} (l : list A) : M A :=
  match l with
  | x :: _ => ret x
  | [] => raise IndexError
  end.

(** A call that returns or raises, in the handler. *)
Definition call {A} (r : exn + A) : M A :=
  match r with
  | inr a => ret a
  | inl e => raise e
  end.

(** [extract_json_from_text] on what [message.content] holds, which is a
    text or [None]. *)
Definition extract_content (content : option pystr) : M value :=
  match content with
  | Some text => call (extract_json_from_text text)
  | None => raise TypeError
  end.

(** [obj.get(k, default)] *)
Definition get (obj : value) (k : pystr) (default : value) : M value :=
  match obj with
  | VDict d => ret (dict_get d k default)
  | _ => raise (AttributeError obj)
  end.

(** [InvestmentResponse(allocation_percentage=a, recommendation=e)]: the
    model class declares a [dict] and a [str], and pydantic raises a
    [ValidationError] for what is neither (pydantic 2 converts nothing
    here; pydantic 1 would still turn a number into a string and a list of
    pairs into a dictionary). *)
Definition new_InvestmentResponse (a e : value) : M InvestmentResponse :=
  match a, e with
  | VDict d, VStr s => ret {| allocation_percentage := d; recommendation := s |}
  | _, _ => raise (ValidationError a e)
  end.

Definition system_prompt : pystr :=
  py "You are a professional financial advisor. Always respond with valid JSON.".

(** The arguments of the call on lines 113 to 121. *)
Definition create_arguments (request : InvestmentRequest) : completion_request :=
  let prompt := build_prompt request in
  {| model := getenv (py "AZURE_OPENAI_DEPLOYMENT");
     messages := [ (py "system", system_prompt); (py "user", prompt) ];
     temperature := py "0.7";
     max_tokens := 1000 |}.

(** The body of the [try] statement (lines 90 to 129). *)
Definition try_body (request : InvestmentRequest) : M InvestmentResponse :=
  choices <- chat_completions_create (create_arguments request) ;;
  choice <- first choices ;;
  let response_text := choice in
  allocation_data <- extract_content response_text ;;
  a <- get allocation_data (py "allocation") (VDict []) ;;
  e <- get allocation_data (py "explanation") (VStr []) ;;
  new_InvestmentResponse a e.

(** How a call of the handler ends: it returns a response, which FastAPI
    sends with status 200, or it raises an [HTTPException].  What FastAPI
    does with the returned object is outside the model. *)
Inductive http :=
| Respond (r : InvestmentResponse)
| HTTPException (status_code : Z) (detail : pystr).

(** The completion client. *)
Variable Client : Type.

Definition allocate_investment (client : option Client) (request : InvestmentRequest)
  : world -> http * world :=
  fun w =>
    match client with
    | None =>
        (HTTPException 500 (py "Azure OpenAI client not initialized properly"), w)
    | Some _ =>
        match try_body request w with
        | (inr r, w') => (Respond r, w')
        | (inl e, w') => (HTTPException 500 (str e), w')   (* except Exception as e *)
        end
    end.

(** *** Initialisation of the client (lines 21 to 36) *)

(** The constructor [AzureOpenAI(api_key, api_version, azure_endpoint)];
    [None] when it raises. *)
Variable AzureOpenAI : pystr -> pystr -> pystr -> option Client.

(** [not x] for what [os.getenv] returns. *)
Definition falsy (x : option pystr) : bool :=
  match x with
  | Some (_ :: _) => false
  | _ => true
  end.

Definition client : option Client :=
  let api_key := getenv (py "AZURE_OPENAI_API_KEY") in
  let endpoint := getenv (py "AZURE_OPENAI_ENDPOINT") in
  let deployment := getenv (py "AZURE_OPENAI_DEPLOYMENT") in
  if falsy api_key || falsy endpoint || falsy deployment then None   (* ValueError *)
  else
    match api_key, endpoint with
    | Some k, Some e => AzureOpenAI k (py "2025-01-01-preview") e
    | _, _ => None
    end.

End Main.

(** ** The decimal digits of Unicode 14.0.0 (CPython 3.11)

    Every decimal digit lies in a run of ten that starts at a digit zero. *)

Definition decimal_zeros : list N :=
  [ 48; 1632; 1776; 1984; 2406; 2534; 2662; 2790; 2918; 3046; 3174; 3302; 3430;
    3558; 3664; 3792; 3872; 4160; 4240; 6112; 6160; 6470; 6608; 6784; 6800; 6992;
    7088; 7232; 7248; 42528; 43216; 43264; 43472; 43504; 43600; 44016; 65296;
    66720; 68912; 69734; 69872; 69942; 70096; 70384; 70736; 70864; 71248; 71360;
    71472; 71904; 72016; 72784; 73040; 73120; 92768; 92864; 93008; 120782;
    120792; 120802; 120812; 120822; 123200; 123632; 125264; 130032 ].

Definition unicode_todecimal (c : N) : option N :=
  match find (fun z => (z <=? c) && (c <? z + 10)) decimal_zeros with
  | Some z => Some (c - z)
  | None => None
  end.

(** ** What a pattern matches, stated without the matcher

    [matches p marks s marks' rest]: the pattern [p] matches a prefix of [s]
    and leaves [rest]; [marks'] extends [marks] by what was left at each
    [MARK] on the way.  The relation does not say which of several matches
    the matcher prefers. *)

Section Matches.
Variable todecimal : N -> option N.
Variable ignorecase : bool.

Let test := Re.test todecimal ignorecase.

Inductive matches : Re.pattern -> list pystr -> pystr -> list pystr -> pystr -> Prop :=
| matches_nil marks s :
    matches [] marks s marks s
| matches_one c p marks x s marks' rest :
    test c x = true ->
    matches p marks s marks' rest ->
    matches (Re.ONE c :: p) marks (x :: s) marks' rest
| matches_max min c p marks run s marks' rest :
    Forall (fun x => test c x = true) run ->
    (min <= length run)%nat ->
    matches p marks s marks' rest ->
    matches (Re.MAX_REPEAT min c :: p) marks (run ++ s) marks' rest
| matches_min min c p marks run s marks' rest :
    Forall (fun x => test c x = true) run ->
    (min <= length run)%nat ->
    matches p marks s marks' rest ->
    matches (Re.MIN_REPEAT min c :: p) marks (run ++ s) marks' rest
| matches_mark p marks s marks' rest :
    matches p (marks ++ [s]) s marks' rest ->
    matches (Re.MARK :: p) marks s marks' rest.
End Matches.

(** ** The first step in the words of the specification

    "The first substring that begins with [{] and ends with the last [}] in
    the text": leftmost [{] through rightmost [}]. *)

(** The text from the leftmost [c] on, that character included. *)
Fixpoint from_leftmost (c : N) (s : pystr) : option pystr :=
  match s with
  | [] => None
  | x :: s' => if x =? c then Some s else from_leftmost c s'
  end.

(** The text up to the rightmost [c], that character included. *)
Fixpoint upto_rightmost (c : N) (s : pystr) : option pystr :=
  match s with
  | [] => None
  | x :: s' =>
      match upto_rightmost c s' with
      | Some t => Some (x :: t)
      | None => if x =? c then Some [x] else None
      end
  end.

Definition leftmost_to_rightmost (text : pystr) : option pystr :=
  match from_leftmost lbrace text with
  | Some (b :: s) =>
      match upto_rightmost rbrace s with
      | Some t => Some (b :: t)
      | None => None
      end
  | _ => None
  end.

Section FirstStep.
Variable lim : limits.

(** The first step: the text from the leftmost [{] through the rightmost
    [}], decoded.  The step yields a value, or nothing (there is no such
    text, or [json.loads] raises a [JSONDecodeError] on it), or it ends in
    what [json.loads] raises besides. *)
Definition direct_json (text : pystr) : exn + option value :=
  match leftmost_to_rightmost text with
  | Some m =>
      match Json.loads lim m with
      | inr v => inr (Some v)
      | inl JSONDecodeError => inr None
      | inl e => inl e
      end
  | None => inr None
  end.

(** A text that is a JSON object, from its opening to its closing brace,
    and that decodes to the dictionary [d]. *)
Definition json_object_text (j : pystr) (d : dict) : Prop :=
  (exists inner, j = lbrace :: inner ++ [rbrace]) /\ Json.loads lim j = inr (VDict d).

(** The text holds a JSON object that can be decoded, somewhere. *)
Definition contains_json_object (text : pystr) : Prop :=
  exists pre j post d, text = pre ++ j ++ post /\ Json.loads lim j = inr (VDict d).
End FirstStep.



(** ** The second step in the words of the specification *)

Section Percentages.
Variable todecimal : N -> option N.

Definition is_decimal (c : N) : bool :=
  match todecimal c with Some _ => true | None => false end.

(** [name] is the asset name up to the case of its letters. *)
Definition same_ignoring_case (asset name : pystr) : Prop :=
  Forall2 (fun l x => Re.literal_ignore l x = true) asset name.

(** The text holds the asset name, then characters that all satisfy
    [gap_ok], then the run [digits] of decimal digits, then a percent
    sign. *)
Definition percent_after (gap_ok : N -> Prop) (asset text digits : pystr) : Prop :=
  exists pre name gap post,
    text = pre ++ name ++ gap ++ digits ++ percent :: post /\
    same_ignoring_case asset name /\
    Forall gap_ok gap /\
    digits <> [] /\ Forall (fun c => is_decimal c = true) digits.

(** "Asset name followed by any characters and then a run of digits
    immediately followed by a percent sign". *)
Definition percent_anywhere_after := percent_after (fun _ => True).

(** The same with the digits on the line of the asset name. *)
Definition percent_on_line_after := percent_after (fun c => c <> newline).

(** [digits] is the first percentage of the asset in the text: among all
    the ways in which the text holds the asset name, then characters other
    than a line feed, then decimal digits, then a percent sign, the one
    that starts leftmost, with the fewest characters before the digits and,
    from there, the most digits. *)
Definition first_percent_on_line (asset text digits : pystr) : Prop :=
  exists pre name gap post,
    text = pre ++ name ++ gap ++ digits ++ percent :: post /\
    same_ignoring_case asset name /\
    Forall (fun c => c <> newline) gap /\
    digits <> [] /\ Forall (fun c => is_decimal c = true) digits /\
    forall pre' name' gap' digits' post',
      text = pre' ++ name' ++ gap' ++ digits' ++ percent :: post' ->
      same_ignoring_case asset name' ->
      Forall (fun c => c <> newline) gap' ->
      digits' <> [] -> Forall (fun c => is_decimal c = true) digits' ->
      (length pre < length pre')%nat \/
      (length pre = length pre' /\
       ((length gap < length gap')%nat \/
        (length gap = length gap' /\ (length digits' <= length digits)%nat))).

(** What the loop of the second step finds for one asset: group 1 of the
    first match of its pattern. *)
Definition asset_digits (asset text : pystr) : option pystr :=
  match Re.search todecimal true (pattern asset) text with
  | Some m => Some (Re.group m 1)
  | None => None
  end.

(** The integer that these digits stand for. *)
Definition asset_percentage (asset text : pystr) : option Z :=
  match asset_digits asset text with
  | Some digits => Some (int_value todecimal digits)
  | None => None
  end.

(** The assets of the catalog that have a percentage, in the order of the
    catalog. *)
Definition matched_percentages (text : pystr) : dict :=
  flat_map
    (fun asset =>
       match asset_percentage asset text with
       | Some n => [(asset, VInt n)]
       | None => []
       end)
    (keys MARKET_TRENDS).

(** [int()] accepts the first percentage of every asset of the catalog:
    none has more digits than the limit. *)
Definition percentages_accepted (lim : limits) (text : pystr) : Prop :=
  forall asset digits,
    In asset (keys MARKET_TRENDS) ->
    first_percent_on_line asset text digits ->
    too_many_digits lim (length digits) = false.
End Percentages.

(** ** A stubbed completion client

    An environment for concrete runs of the endpoint: the completion service
    answers every call with one choice that carries the given text. *)

Definition stub_prompt (request : InvestmentRequest Z) : pystr := py "prompt".

Definition stub_str (e : exn) : pystr :=
  match e with
  | ClientError message => message
  | IndexError => py "list index out of range"
  | TypeError => py "expected string or bytes-like object"
  | AttributeError _ => py "object has no attribute 'get'"
  | ValidationError _ _ => py "validation error for InvestmentResponse"
  | JSONDecodeError => py "Expecting value"
  | ValueError _ => py "Exceeds the limit for integer string conversion"
  | RecursionError decoding_object =>
      py "maximum recursion depth exceeded while decoding a JSON object from a unicode string"
  | RecursionError decoding_array =>
      py "maximum recursion depth exceeded while decoding a JSON array from a unicode string"
  | RecursionError (raising 1) => py "maximum recursion depth exceeded"
  | RecursionError (raising _) =>
      py "maximum recursion depth exceeded while calling a Python object"
  end.

(** The limits for concrete runs: CPython 3.11 with 900 of its 1000 levels
    of recursion left where the extractor calls [json.loads]. *)
Definition stub_limits : limits := cpython_3_11 900.

Definition stub_getenv (name : pystr) : option pystr := Some (py "stub").

Definition stub_service (text : pystr) (w : world) (r : completion_request) : reply :=
  Completion [Some text].

Definition stub_request : InvestmentRequest Z :=
  {| age := 30; investment_amount := 100000%Z; market_forecast := None |}.

(** The endpoint with a configured client whose service answers [text],
    called once with [stub_request]. *)
Definition stub_endpoint (text : pystr) : http :=
  fst (allocate_investment unicode_todecimal stub_limits Z stub_prompt stub_str
         stub_getenv (stub_service text) unit (Some tt) stub_request {| calls := [] |}).

(** ** Replies for concrete runs *)

(** A reply in which the object is embedded in prose. *)
Definition reply_prose_before : pystr := py "Sure! Here is the plan: ".
Definition reply_prose_after : pystr := py " Good luck.".

(** A reply whose braces hold no JSON, with two percentages. *)
Definition reply_percentages : pystr :=
  py "{not json} Gold about 8% and Bonds near 20%".

(** A reply without an object and without percentages. *)
Definition reply_refusal : pystr := py "I am sorry, I cannot help with that.".

(** A reply that names two assets in a case of its own. *)
Definition reply_other_case : pystr := py "my pick: gold 8%, then BONDS 20%".

(** The reply of the end-to-end example of the specification. *)
Definition reply_balanced : pystr :=
  pyq "{'allocation': {'NIFTY 50': 40, 'Bonds': 60}, 'explanation': 'balanced'}".

(** An environment without credentials. *)
Definition empty_getenv (name : pystr) : option pystr := None.

(** ** Writing an allocation result as JSON

    The text that [json.dumps(result, ensure_ascii=False)] writes for an
    allocation result, a mapping of names to integers with an explanation:
    strings in double quotes with the escapes of [json.encoder], integers
    in decimal, a comma and a space between the members, a colon and a
    space after a key. *)

Definition space : N := 32.

Definition hexchar (d : N) : N := if d <? 10 then zero + d else 87 + d.

Definition escape_char (c : N) : pystr :=
  if c =? dquote then [backslash; dquote]
  else if c =? backslash then [backslash; backslash]
  else if c =? 8 then [backslash; ord "b"]
  else if c =? 12 then [backslash; ord "f"]
  else if c =? 10 then [backslash; ord "n"]
  else if c =? 13 then [backslash; ord "r"]
  else if c =? 9 then [backslash; ord "t"]
  else if c <? 32 then
    [backslash; ord "u"; zero; zero; hexchar (c / 16); hexchar (c mod 16)]
  else [c].

Definition escape (s : pystr) : pystr := flat_map escape_char s.

(** The decimal digits of [n], in front of [acc]; [fuel] bounds their
    number. *)
Fixpoint digits_onto (fuel : nat) (n : N) (acc : pystr) : pystr :=
  match fuel with
  | O => acc
  | S fuel' =>
      if n <? 10 then (zero + n) :: acc
      else digits_onto fuel' (n / 10) ((zero + n mod 10) :: acc)
  end.

Definition decimal (n : N) : pystr := digits_onto (S (N.to_nat (N.size n))) n [].

(** [str(z)] *)
Definition str_int (z : Z) : pystr :=
  if (z <? 0)%Z then minus :: decimal (Z.to_N (- z)) else decimal (Z.to_N z).

(** The members of the allocation from inside the opening quote of the
    first key, through the closing brace, followed by [rest]. *)
Fixpoint dumps_members (members : list (pystr * Z)) (rest : pystr) : pystr :=
  match members with
  | [] => rest
  | (k, z) :: members' =>
      escape k ++ dquote :: colon :: space :: str_int z
        ++ match members' with
           | [] => rbrace :: rest
           | _ :: _ => comma :: space :: dquote :: dumps_members members' rest
           end
  end.

Definition dumps_allocation (members : list (pystr * Z)) (rest : pystr) : pystr :=
  match members with
  | [] => lbrace :: rbrace :: rest
  | _ :: _ => lbrace :: dquote :: dumps_members members rest
  end.

Definition dumps_result (members : list (pystr * Z)) (explanation : pystr) : pystr :=
  lbrace :: dquote :: py "allocation" ++ dquote :: colon :: space
    :: dumps_allocation members
         (comma :: space :: dquote :: py "explanation" ++ dquote :: colon :: space
            :: dquote :: escape explanation ++ [dquote; rbrace]).

(** The integers of the members are such as [str()] writes and [int()]
    reads: none has more digits than the limit. *)
Definition writable (lim : limits) (members : list (pystr * Z)) : Prop :=
  Forall
    (fun kz => too_many_digits lim (length (Json.integer_digits (str_int (snd kz)))) = false)
    members.

(** The dictionary that the text stands for. *)
Definition result_dict (members : list (pystr * Z)) (explanation : pystr) : dict :=
  [ (py "allocation", VDict (map (fun kz => (fst kz, VInt (snd kz))) members));
    (py "explanation", VStr explanation) ].

(** The digits of a number: at least one, all of them digits, with the
    value of the number, and without a zero in front of another digit. *)
Definition digits_of (n : N) (ds : pystr) : Prop :=
  Forall (fun c => Json.is_digit c = true) ds /\
  Json.digits_value ds = Z.of_N n /\
  (n = 0 -> ds = [zero]) /\
  (n <> 0 -> exists c ds', ds = c :: ds' /\ c <> zero).

(** Where a number ends: at the end of the text, or before a character
    that no number goes on with. *)
Definition ends_number (rest : pystr) : Prop :=
  match rest with
  | c :: _ => Json.is_digit c = false /\ c <> dot /\ c <> ord "e" /\ c <> ord "E"
  | [] => True
  end.

(** ** The prompt of the handler (lines 90 to 110)

    The request handler builds its prompt before it calls the completion
    service.  The amount is written by [format(x, ',.2f')], which is kept
    abstract as the float type is; everything else is text. *)

(** [sep.join(lines)] *)
Fixpoint join (sep : pystr) (lines : list pystr) : pystr :=
  match lines with
  | [] => []
  | l :: lines' =>
      match lines' with
      | [] => l
      | _ :: _ => l ++ sep ++ join sep lines'
      end
  end.

(** Line 90: one line for each item of [MARKET_TRENDS.items()]. *)
Definition market_trends_text : pystr :=
  join [newline]
    (map (fun item => py "- " ++ fst item ++ py ": " ++ snd item) MARKET_TRENDS).

Definition no_forecast : pystr := py "No additional market forecast provided".

(** [forecast if forecast else "No additional market forecast provided"]:
    [None] and the empty string are false. *)
Definition forecast_text (forecast : option pystr) : pystr :=
  match forecast with
  | Some (c :: f) => c :: f
  | _ => no_forecast
  end.

Section Prompt.
Variable float : Type.

(** [format(x, ',.2f')] *)
Variable format_amount : float -> pystr.

(** The f-string of lines 92 to 110, line by line. *)
Definition prompt (request : InvestmentRequest float) : pystr :=
  join [newline]
    [ [];
      py "        As a financial advisor, analyze the following investment scenario and provide allocation recommendations:";
      py "        ";
      py "        Investor Age: " ++ str_int (age float request);
      py "        Investment Amount: $" ++ format_amount (investment_amount float request);
      py "        ";
      py "        Current Market Trends and Forecasts (Next 1 Year):";
      py "        " ++ market_trends_text;
      py "        take additional information regarding returns from various asset classes from yfinance with tickers of each asset class as follows";
      pyq "    NIFTY 50 - '^NSEI', Gold - 'GC=F' (Gold Futures), US 10Y Bonds - '^TNX', Mutual Funds - '^HDFCQUAL.BO'.";
      py "        Additional Market Context:";
      py "        " ++ forecast_text (market_forecast float request);
      py "        ";
      py "        Please provide:";
      py "        1. A detailed allocation percentage breakdown across different asset classes (stocks, bonds, cash, etc.)";
      py "        2. A brief explanation for the allocation strategy, taking into account the provided market trends";
      py "        ";
      py "        Format your response as a JSON object with 'allocation' and 'explanation' fields.";
      py "        " ].
End Prompt.

(** ** Where an asset name stands in a text *)

(** The text starts with the asset name, in any case. *)
Fixpoint starts_with_name (asset s : pystr) : bool :=
  match asset, s with
  | [], _ => true
  | l :: asset', x :: s' => Re.literal_ignore l x && starts_with_name asset' s'
  | _ :: _, [] => false
  end.

(** In the text [pre ++ rest], the asset name starts at no position of
    [pre]. *)
Fixpoint name_not_before (asset pre rest : pystr) : bool :=
  match pre with
  | [] => true
  | _ :: pre' =>
      negb (starts_with_name asset (pre ++ rest)) && name_not_before asset pre' rest
  end.

(** The table of decimal digits agrees with ASCII: of the first 128
    characters, the decimal digits are [0] to [9], with their values. *)
Definition ascii_decimal (todecimal : N -> option N) : Prop :=
  forall c, c < 128 ->
    todecimal c = if Json.is_digit c then Some (c - zero) else None.

(** ** More replies for concrete runs *)

(** A result to be written: its explanation holds quotes, a line feed and
    a closing brace. *)
Definition written_members : list (pystr * Z) :=
  [ (py "Gold", 8%Z); (py "Bonds", 20%Z) ].
Definition written_explanation : pystr :=
  pyq "a 'safe' mix}," ++ [newline] ++ py "as asked".

(** A reply with braces and asset names, and without a percent sign. *)
Definition reply_no_percent : pystr :=
  py "{half of it} in Gold, the rest in Bonds".

(** A reply whose braces hold 3000 opening brackets,
    ['{"a": ' + '[' * 3000 + '}']: no JSON, and nested deeper than the
    interpreter goes. *)
Definition reply_deep : pystr := pyq "{'a': " ++ repeat lbracket 3000 ++ [rbrace].

(** A reply with a percentage of 4301 digits, ['Gold ' + '9' * 4301 + '%']. *)
Definition reply_many_digits : pystr := py "Gold " ++ repeat nine 4301 ++ [percent].

(** ** The matcher and the decoder at work *)

Example search_greedy_span :
  option_map (fun m => Re.group m 0)
    (Re.search unicode_todecimal false json_pattern (py "a } b { c } d { e"))
  = Some (py "{ c }").
Proof. reflexivity. Qed.

Example search_no_closing_brace :
  Re.search unicode_todecimal false json_pattern (py "} {") = None.
Proof. reflexivity. Qed.

Example search_first_percentage :
  asset_percentage unicode_todecimal (py "Gold") (py "Gold 10-12% or 8%") = Some 12%Z.
Proof. reflexivity. Qed.

Example search_name_with_digits :
  asset_percentage unicode_todecimal (py "NIFTY 50") (py "nifty 50% and 30%") = Some 30%Z.
Proof. reflexivity. Qed.

Example search_other_digits :
  asset_percentage unicode_todecimal (py "Gold") (py "gOLD " ++ [1633; 1634] ++ py "%")
  = Some 12%Z.
Proof. reflexivity. Qed.

Example search_next_line :
  asset_percentage unicode_todecimal (py "Gold")
    (py "Gold" ++ [newline] ++ py "7% and Gold 9%") = Some 9%Z.
Proof. reflexivity. Qed.

Example loads_nested :
  Json.loads stub_limits (pyq "{ 'a' : [1, -2, 3.5e1, true, null], 'b': {'c': 'd'} } ")
  = inr (VDict [ (py "a", VList [VInt 1; VInt (-2); VFloat (py "3.5e1"); VBool true; VNone]);
                  (py "b", VDict [ (py "c", VStr (py "d")) ]) ]).
Proof. reflexivity. Qed.

Example loads_escapes :
  Json.loads stub_limits (pyq "{'a': '\n\u0041\ud83d\ude00'}")
  = inr (VDict [ (py "a", VStr [10; 65; 128512]) ]).
Proof. reflexivity. Qed.

Example loads_duplicate_key :
  Json.loads stub_limits (pyq "{'a': NaN, 'b': 1, 'a': 2}")
  = inr (VDict [ (py "a", VInt 2); (py "b", VInt 1) ]).
Proof. reflexivity. Qed.

Example loads_trailing_comma : Json.loads stub_limits (pyq "{'a': 1,}") = inl JSONDecodeError.
Proof. reflexivity. Qed.

Example loads_leading_zero : Json.loads stub_limits (pyq "{'a': 01}") = inl JSONDecodeError.
Proof. reflexivity. Qed.

Example loads_single_quotes : Json.loads stub_limits (py "{'a': 1}") = inl JSONDecodeError.
Proof. reflexivity. Qed.

Example loads_extra_data : Json.loads stub_limits (pyq "{'a': 1} {'b': 2}") = inl JSONDecodeError.
Proof. reflexivity. Qed.

(** Arrays nested deeper than the stack allows. *)
Example loads_deep_nesting :
  Json.loads (cpython_3_11 3) (py "[[[[1]]]]") = inl (RecursionError decoding_array).
Proof. reflexivity. Qed.

(** An error of the scanner with two levels left, and a missing value
    with none left. *)
Example loads_error_near_limit :
  Json.loads (cpython_3_11 4) (py "[[1") = inl (RecursionError (raising 2)).
Proof. reflexivity. Qed.

Example loads_missing_value_near_limit :
  Json.loads (cpython_3_11 4) (py "[[[[") = inl JSONDecodeError.
Proof. reflexivity. Qed.

(** The errors that are raised outside the scanner: for a missing value in
    [raw_decode], with two levels where the scanner has one, and for extra
    data in [decode], with two levels where the scanner has none. *)
Example loads_missing_value_at_limit :
  Json.loads (cpython_3_11 1) (py "x") = inl (RecursionError (raising 2)) /\
  Json.loads (cpython_3_11 2) (py "x") = inl JSONDecodeError.
Proof. split; reflexivity. Qed.

Example loads_extra_data_at_limit :
  Json.loads (cpython_3_11 0) (py "1 x") = inl (RecursionError (raising 2)) /\
  Json.loads (cpython_3_11 1) (py "1 x") = inl JSONDecodeError.
Proof. split; reflexivity. Qed.

(** An integer of 4301 digits, and a float with as many. *)
Example loads_many_digits :
  Json.loads stub_limits (py "[" ++ repeat nine 4301 ++ py "]") = inl (ValueError 4301).
Proof. vm_compute; reflexivity. Qed.

Example loads_many_digits_float :
  Json.loads stub_limits (repeat nine 4301 ++ py ".5")
  = inr (VFloat (repeat nine 4301 ++ py ".5")).
Proof. vm_compute; reflexivity. Qed.

Example dumps_result_example :
  dumps_result [ (py "NIFTY 50", 40%Z); (py "Bonds", 60%Z) ] (py "balanced")
  = pyq "{'allocation': {'NIFTY 50': 40, 'Bonds': 60}, 'explanation': 'balanced'}".
Proof. reflexivity. Qed.

Example dumps_result_escapes :
  dumps_result [ (py "Gold", (-5)%Z) ] (pyq "say 'hi'" ++ [newline; 1])
  = pyq "{'allocation': {'Gold': -5}, 'explanation': 'say \'hi\'\n\u0001'}".
Proof. reflexivity. Qed.

(** ** Lemmas on the matcher *)

Section ReLemmas.
Variable todecimal : N -> option N.
Variable ignorecase : bool.

Let test := Re.test todecimal ignorecase.
Let run := Re.run todecimal ignorecase.
Let search := Re.search todecimal ignorecase.

Section RepeatLemmas.
Context {R : Type}.
Variable f : N -> bool.
Variable k : pystr -> option R.

Lemma max_repeat_sound min s r :
  Re.max_repeat f k min s = Some r ->
  exists ds rest,
    s = ds ++ rest /\ Forall (fun x => f x = true) ds /\
    (min <= length ds)%nat /\ k rest = Some r.
Proof.
  revert min; induction s as [|x s IH]; intros min H; simpl in H.
  - destruct min; [|discriminate].
    exists [], []; repeat split; auto.
  - destruct (f x) eqn:Hx.
    + destruct (Re.max_repeat f k (pred min) s) as [r0|] eqn:Hrec.
      * injection H as <-.
        destruct (IH _ Hrec) as (ds & rest & -> & Hall & Hlen & Hk).
        exists (x :: ds), rest; repeat split; auto.
        simpl; lia.
      * destruct min; [|discriminate].
        exists [], (x :: s); repeat split; auto.
    + destruct min; [|discriminate].
      exists [], (x :: s); repeat split; auto.
Qed.

Lemma max_repeat_zero s r :
  k s = Some r -> exists r', Re.max_repeat f k 0 s = Some r'.
Proof.
  intros Hk; destruct s as [|x s]; simpl; eauto.
  destruct (f x); eauto.
  destruct (Re.max_repeat f k 0 s); eauto.
Qed.

Lemma max_repeat_complete min ds rest r :
  Forall (fun x => f x = true) ds ->
  (min <= length ds)%nat ->
  k rest = Some r ->
  exists r', Re.max_repeat f k min (ds ++ rest) = Some r'.
Proof.
  intros Hall; revert min; induction Hall as [|x ds Hx Hall IH]; intros min Hlen Hk.
  - assert (min = 0)%nat as -> by (simpl in Hlen; lia).
    now apply max_repeat_zero with r.
  - simpl; rewrite Hx.
    destruct (IH (pred min)) as [r' ->]; eauto.
    simpl in Hlen; lia.
Qed.

Lemma min_repeat_sound min s r :
  Re.min_repeat f k min s = Some r ->
  exists ds rest,
    s = ds ++ rest /\ Forall (fun x => f x = true) ds /\
    (min <= length ds)%nat /\ k rest = Some r.
Proof.
  revert min; induction s as [|x s IH]; intros min H.
  - destruct min; simpl in H; [|discriminate].
    destruct (k []) eqn:Hk; [|discriminate].
    injection H as <-; exists [], []; repeat split; auto.
  - destruct min as [|m]; simpl in H.
    + destruct (k (x :: s)) as [r0|] eqn:Hk.
      * injection H as <-; exists [], (x :: s); repeat split; auto.
      * destruct (f x) eqn:Hx; [|discriminate].
        destruct (IH _ H) as (ds & rest & -> & Hall & Hlen & Hk').
        exists (x :: ds), rest; repeat split; auto. simpl; lia.
    + destruct (f x) eqn:Hx; [|discriminate].
      destruct (IH _ H) as (ds & rest & -> & Hall & Hlen & Hk').
      exists (x :: ds), rest; repeat split; auto. simpl; lia.
Qed.

Lemma min_repeat_complete min ds rest r :
  Forall (fun x => f x = true) ds ->
  (min <= length ds)%nat ->
  k rest = Some r ->
  exists r', Re.min_repeat f k min (ds ++ rest) = Some r'.
Proof.
  intros Hall; revert min; induction Hall as [|x ds Hx Hall IH]; intros min Hlen Hk.
  - assert (min = 0)%nat as -> by (simpl in Hlen; lia).
    destruct rest; simpl; rewrite Hk; eauto.
  - destruct min as [|m]; simpl.
    + destruct (k (x :: ds ++ rest)); eauto.
      rewrite Hx; apply IH; auto. lia.
    + rewrite Hx; apply IH; auto. simpl in Hlen; lia.
Qed.
(** The lazy repeat stops at the first place where the rest of the
    pattern matches. *)
Lemma min_repeat_shortest s r :
  Re.min_repeat f k 0 s = Some r ->
  exists ds rest,
    s = ds ++ rest /\ Forall (fun x => f x = true) ds /\ k rest = Some r /\
    forall ds' rest',
      s = ds' ++ rest' -> (length ds' < length ds)%nat -> k rest' = None.
Proof.
  induction s as [|x s IH]; cbn; intros H.
  - destruct (k []) eqn:Hk; [|discriminate]. injection H as <-.
    exists [], []; repeat split; auto. cbn; intros; lia.
  - destruct (k (x :: s)) as [r0|] eqn:Hk.
    + injection H as <-. exists [], (x :: s); repeat split; auto. cbn; intros; lia.
    + destruct (f x) eqn:Hx; [|discriminate].
      destruct (IH H) as (ds & rest & -> & Hall & Hr & Hmin).
      exists (x :: ds), rest; repeat split; auto.
      intros [|y ds'] rest' E Hlen; cbn in E.
      * now subst rest'.
      * injection E as -> E. apply (Hmin ds' rest' E). cbn in Hlen; lia.
Qed.

Lemma max_repeat_none s :
  Re.max_repeat f k 0 s = None ->
  forall ds rest, s = ds ++ rest -> Forall (fun x => f x = true) ds -> k rest = None.
Proof.
  intros H ds rest -> Hall.
  destruct (k rest) as [r|] eqn:Hk; auto.
  destruct (max_repeat_complete 0 ds rest r Hall) as [r' Hr']; auto; [lia|congruence].
Qed.

(** The greedy repeat stops at the last place where the rest of the pattern
    matches. *)
Lemma max_repeat_longest min s r :
  Re.max_repeat f k min s = Some r ->
  exists ds rest,
    s = ds ++ rest /\ Forall (fun x => f x = true) ds /\
    (min <= length ds)%nat /\ k rest = Some r /\
    forall ds' rest',
      s = ds' ++ rest' -> Forall (fun x => f x = true) ds' ->
      (length ds < length ds')%nat -> k rest' = None.
Proof.
  revert min; induction s as [|x s IH]; intros min H; cbn in H.
  - destruct min; [|discriminate].
    exists [], []; repeat split; auto.
    intros [|y ds'] rest' E _ Hlen; [cbn in Hlen; lia|discriminate].
  - destruct (f x) eqn:Hx.
    + destruct (Re.max_repeat f k (pred min) s) as [r0|] eqn:Hrec.
      * injection H as <-.
        destruct (IH _ Hrec) as (ds & rest & -> & Hall & Hlen & Hk & Hmax).
        exists (x :: ds), rest; repeat split; auto; [cbn; lia|].
        intros [|y ds'] rest' E Hall' Hlen'; [cbn in Hlen'; lia|].
        injection E as -> E. inversion Hall'; subst.
        apply (Hmax ds' rest'); auto. cbn in Hlen'; lia.
      * destruct min; [|discriminate].
        exists [], (x :: s); repeat split; auto.
        intros [|y ds'] rest' E Hall' Hlen'; [cbn in Hlen'; lia|].
        injection E as -> E. inversion Hall'; subst.
        eapply max_repeat_none; eauto.
    + destruct min; [|discriminate].
      exists [], (x :: s); repeat split; auto.
      intros [|y ds'] rest' E Hall' Hlen'; [cbn in Hlen'; lia|].
      injection E as -> E. inversion Hall'; congruence.
Qed.
End RepeatLemmas.

Lemma run_sound p : forall marks s marks' rest,
  run p marks s = Some (marks', rest) -> matches todecimal ignorecase p marks s marks' rest.
Proof.
  induction p as [|o p IH]; intros marks s marks' rest H.
  - injection H as <- <-; constructor.
  - destruct o as [c|min c|min c|]; cbn in H.
    + destruct s as [|x s]; [discriminate|].
      destruct (Re.test todecimal ignorecase c x) eqn:Hx; [|discriminate].
      constructor; auto.
    + apply max_repeat_sound in H as (ds & r & -> & Hall & Hlen & Hk).
      constructor; auto.
    + apply min_repeat_sound in H as (ds & r & -> & Hall & Hlen & Hk).
      constructor; auto.
    + constructor; auto.
Qed.

Lemma run_complete p marks s marks' rest :
  matches todecimal ignorecase p marks s marks' rest ->
  exists res, run p marks s = Some res.
Proof.
  induction 1 as [marks s|c p marks x s marks' rest Hx _ [res IH]
                  |min c p marks ds s marks' rest Hall Hlen _ [res IH]
                  |min c p marks ds s marks' rest Hall Hlen _ [res IH]
                  |p marks s marks' rest _ IH]; cbn.
  - eauto.
  - rewrite Hx; eauto.
  - eapply max_repeat_complete; eauto.
  - eapply min_repeat_complete; eauto.
  - exact IH.
Qed.

(** [search] finds the leftmost position at which the pattern matches. *)
Lemma search_sound p s m :
  search p s = Some m ->
  exists pre,
    s = pre ++ Re.m_from m /\
    run p [] (Re.m_from m) = Some (Re.m_marks m, Re.m_rest m) /\
    forall a b, pre = a ++ b -> b <> [] -> run p [] (b ++ Re.m_from m) = None.
Proof.
  induction s as [|x s IH]; cbn; fold run.
  - destruct (run p [] []) as [[marks rest]|] eqn:Hr; [|discriminate].
    intros [= <-]; exists []; cbn; repeat split; auto.
    intros a b Hab; symmetry in Hab; apply app_eq_nil in Hab as [_ ->]; congruence.
  - destruct (run p [] (x :: s)) as [[marks rest]|] eqn:Hr.
    + intros [= <-]; exists []; cbn; repeat split; auto.
      intros a b Hab; symmetry in Hab; apply app_eq_nil in Hab as [_ ->]; congruence.
    + intros H; destruct (IH H) as (pre & -> & Hrun & Hleft).
      exists (x :: pre); repeat split; auto.
      intros a b Hab Hb.
      destruct a as [|y a]; cbn in Hab.
      * subst b; exact Hr.
      * injection Hab as -> ->; eauto.
Qed.

Lemma search_complete p pre s res :
  run p [] s = Some res -> exists m, search p (pre ++ s) = Some m.
Proof.
  intros Hr; induction pre as [|x pre [m IH]]; cbn; fold run.
  - destruct s; cbn; fold run; rewrite Hr; destruct res; eauto.
  - destruct (run p [] (x :: pre ++ s)) as [[marks rest]|]; eauto.
Qed.

Lemma search_none p s :
  search p s = None -> forall a b, s = a ++ b -> run p [] b = None.
Proof.
  intros H a b ->.
  destruct (run p [] b) as [res|] eqn:Hr; auto.
  destruct (search_complete p a b res Hr) as [m Hm]; congruence.
Qed.
End ReLemmas.

(** ** The pattern of the first step *)

Lemma upto_rightmost_prefix c s t :
  upto_rightmost c s = Some t -> exists r, s = t ++ r.
Proof.
  revert t; induction s as [|x s IH]; intros t; cbn; [discriminate|].
  destruct (upto_rightmost c s) as [t'|].
  - intros [= <-]; destruct (IH _ eq_refl) as [r ->]; now exists r.
  - destruct (x =? c); [|discriminate].
    intros [= <-]; now exists s.
Qed.

Lemma upto_rightmost_last c s t :
  upto_rightmost c s = Some t -> exists t', t = t' ++ [c].
Proof.
  revert t; induction s as [|x s IH]; intros t; cbn; [discriminate|].
  destruct (upto_rightmost c s) as [t'|].
  - intros [= <-]; destruct (IH _ eq_refl) as [t'' ->]; now exists (x :: t'').
  - destruct (N.eqb_spec x c); [|discriminate].
    intros [= <-]; subst; now exists [].
Qed.

Lemma upto_rightmost_none c s :
  upto_rightmost c s = None <-> ~ In c s.
Proof.
  induction s as [|x s IH]; cbn; [tauto|].
  destruct (upto_rightmost c s) as [t|].
  - split; [discriminate|].
    intros H; exfalso; apply H; right.
    destruct (in_dec N.eq_dec c s) as [|n]; auto.
    apply IH in n; discriminate.
  - destruct (N.eqb_spec x c); split; try discriminate; tauto.
Qed.

Section JsonPattern.
Variable todecimal : N -> option N.

#[local] Abbreviation run := (Re.run todecimal false).
#[local] Abbreviation search := (Re.search todecimal false).

(** The greedy [[\s\S]*] followed by [\}] stops at the rightmost brace. *)
Lemma greedy_to_rbrace s :
  Re.max_repeat (Re.test todecimal false Re.ANY_ALL)
                (run [Re.ONE (Re.LITERAL rbrace)] []) 0 s
  = match upto_rightmost rbrace s with
    | Some t => Some ([], skipn (length t) s)
    | None => None
    end.
Proof.
  induction s as [|x s IH]; [reflexivity|].
  cbn [Re.max_repeat Re.test upto_rightmost pred].
  rewrite IH.
  destruct (upto_rightmost rbrace s) as [t|]; [reflexivity|].
  cbn [Re.run Re.test]. rewrite (N.eqb_sym x).
  destruct (rbrace =? x); reflexivity.
Qed.

Lemma run_json_pattern s :
  run json_pattern [] s
  = match s with
    | x :: s' =>
        if x =? lbrace then
          match upto_rightmost rbrace s' with
          | Some t => Some ([], skipn (length t) s')
          | None => None
          end
        else None
    | [] => None
    end.
Proof.
  destruct s as [|x s']; [reflexivity|].
  unfold json_pattern.
  cbn [Re.run Re.test]. rewrite (N.eqb_sym x).
  destruct (lbrace =? x); [|reflexivity].
  apply greedy_to_rbrace.
Qed.

Lemma search_json_pattern_none s :
  ~ In rbrace s -> search json_pattern s = None.
Proof.
  induction s as [|x s IH]; intros Hn.
  - reflexivity.
  - cbn [Re.search]. rewrite run_json_pattern.
    assert (Hs : ~ In rbrace s) by (intros H; apply Hn; now right).
    apply upto_rightmost_none in Hs as Hu; rewrite Hu.
    destruct (x =? lbrace); auto.
Qed.

Lemma between_app (a r : pystr) : Re.between (a ++ r) r = a.
Proof.
  unfold Re.between. rewrite length_app.
  replace (length a + length r - length r)%nat with (length a) by lia.
  rewrite firstn_app, firstn_all, Nat.sub_diag. cbn. apply app_nil_r.
Qed.

(** [re.search(json_pattern, text)] finds the text from the leftmost [{]
    through the rightmost [}]. *)
Lemma search_json_pattern text :
  option_map (fun m => Re.group m 0) (search json_pattern text)
  = leftmost_to_rightmost text.
Proof.
  unfold leftmost_to_rightmost.
  induction text as [|x s IH]; [reflexivity|].
  cbn [Re.search from_leftmost]. rewrite run_json_pattern.
  destruct (x =? lbrace) eqn:Hx.
  - destruct (upto_rightmost rbrace s) as [t|] eqn:Hu.
    + destruct (upto_rightmost_prefix _ _ _ Hu) as [r ->].
      cbn [option_map Re.group Re.m_from Re.m_rest].
      rewrite skipn_app, skipn_all, Nat.sub_diag. cbn [skipn app].
      change (x :: t ++ r) with ((x :: t) ++ r). now rewrite between_app.
    + rewrite search_json_pattern_none; [reflexivity|].
      now apply upto_rightmost_none.
  - exact IH.
Qed.
End JsonPattern.

(** ** Lemmas on the decoder *)

(** Case analysis on what a hypothesis matches on. *)
Ltac break_in H :=
  match type of H with
  | context [match ?x with _ => _ end] =>
      match type of x with
      | sumbool _ _ => destruct x
      | _ => let E := fresh "E" in destruct x eqn:E
      end
  | context [if ?x then _ else _] =>
      let E := fresh "E" in destruct x eqn:E
  end.

Section JsonLemmas.
Import Json.
Variable lim : limits.

#[local] Abbreviation scan_once := (Json.scan_once lim).
#[local] Abbreviation object_pairs := (Json.object_pairs lim).
#[local] Abbreviation array_items := (Json.array_items lim).
#[local] Abbreviation decode := (Json.decode lim).
#[local] Abbreviation loads := (Json.loads lim).

Lemma skip_whitespace_le s : (length (skip_whitespace s) <= length s)%nat.
Proof.
  induction s as [|c s IH]; cbn; [lia|].
  destruct (is_whitespace c); cbn; lia.
Qed.

Lemma skip_whitespace_cons s c s' :
  skip_whitespace s = c :: s' -> (length s' < length s)%nat.
Proof.
  intros H; pose proof (skip_whitespace_le s) as Hle.
  rewrite H in Hle; cbn in Hle; lia.
Qed.

Lemma span_app f s a b : span f s = (a, b) -> s = a ++ b.
Proof.
  revert a b; induction s as [|c s IH]; cbn; intros a b H.
  - now injection H as <- <-.
  - destruct (f c).
    + destruct (span f s) as [a' b'].
      injection H as <- <-. cbn. f_equal. now apply IH.
    + now injection H as <- <-.
Qed.

Lemma span_le f s a b : span f s = (a, b) -> (length b <= length s)%nat.
Proof.
  intros H; apply span_app in H as ->. rewrite length_app; lia.
Qed.

Lemma strip_prefix_app p s r : strip_prefix p s = Some r -> s = p ++ r.
Proof.
  revert s; induction p as [|x p IH]; intros s; cbn.
  - now intros [= ->].
  - destruct s as [|y s]; [discriminate|].
    destruct (N.eqb_spec x y); [|discriminate].
    intros H; apply IH in H; subst; reflexivity.
Qed.

Lemma append_char_some c r str rest :
  append_char c r = Some (str, rest) ->
  exists str', r = Some (str', rest) /\ str = c :: str'.
Proof.
  destruct r as [[str' rest']|]; cbn; [|discriminate].
  intros [= <- <-]; eauto.
Qed.

Lemma scanstring_lt_aux n : forall s str rest,
  (length s <= n)%nat ->
  scanstring s = Some (str, rest) -> (length rest < length s)%nat.
Proof.
  induction n as [|n IH]; intros s str rest Hn H.
  - destruct s; [discriminate|cbn in Hn; lia].
  - destruct s as [|c s1]; [discriminate|].
    cbn [scanstring] in H. cbn [length] in *.
    repeat break_in H; try discriminate;
      try (injection H as <- <-; cbn; lia);
      apply append_char_some in H as (str' & H & _);
      apply IH in H; subst; cbn [length] in *; lia.
Qed.

Lemma scanstring_lt s str rest :
  scanstring s = Some (str, rest) -> (length rest < length s)%nat.
Proof. apply scanstring_lt_aux with (n := length s); lia. Qed.

Lemma opt_minus_app s a r : opt_minus s = (a, r) -> s = a ++ r.
Proof.
  destruct s as [|c s]; cbn; [now intros [= <- <-]|].
  destruct (c =? minus); now intros [= <- <-].
Qed.

Lemma int_digits_app s a r :
  int_digits s = Some (a, r) -> s = a ++ r /\ a <> [].
Proof.
  destruct s as [|c s]; cbn; [discriminate|].
  destruct (c =? zero); [now intros [= <- <-]|].
  destruct (is_digit c); [|discriminate].
  destruct (span is_digit s) as [ds r'] eqn:E.
  intros [= <- <-]; apply span_app in E as ->; now split.
Qed.

Lemma opt_frac_app s a r : opt_frac s = (a, r) -> s = a ++ r.
Proof.
  destruct s as [|c s]; cbn; [now intros [= <- <-]|].
  destruct (c =? dot); [|now intros [= <- <-]].
  destruct (span is_digit s) as [[|d ds] r'] eqn:E; intros [= <- <-]; auto.
  apply span_app in E as ->; reflexivity.
Qed.

Lemma opt_exp_app s a r : opt_exp s = (a, r) -> s = a ++ r.
Proof.
  destruct s as [|c s]; cbn; [now intros [= <- <-]|].
  destruct ((c =? _) || (c =? _)); [|now intros [= <- <-]].
  destruct s as [|g t].
  - cbn. now intros [= <- <-].
  - destruct ((g =? minus) || (g =? plus)).
    + destruct (span is_digit t) as [[|d ds] r'] eqn:E; intros [= <- <-]; auto.
      apply span_app in E as ->; reflexivity.
    + destruct (span is_digit (g :: t)) as [[|d ds] r'] eqn:E; intros [= <- <-]; auto.
      apply span_app in E as ->; reflexivity.
Qed.

Lemma match_number_app s i f e rest :
  match_number s = Some (i, f, e, rest) -> s = i ++ f ++ e ++ rest /\ i <> [].
Proof.
  unfold match_number.
  destruct (opt_minus s) as [sign s1] eqn:E1.
  destruct (int_digits s1) as [[digits r1]|] eqn:E2; [|discriminate].
  destruct (opt_frac r1) as [frac r2] eqn:E3.
  destruct (opt_exp r2) as [exp r3] eqn:E4.
  intros [= <- <- <- <-].
  apply opt_minus_app in E1 as ->. apply int_digits_app in E2 as [-> Hne].
  apply opt_frac_app in E3 as ->. apply opt_exp_app in E4 as ->.
  split; [now rewrite <- app_assoc|].
  destruct sign, digits; cbn; congruence.
Qed.

Lemma match_number_lt s i f e rest :
  match_number s = Some (i, f, e, rest) -> (length rest < length s)%nat.
Proof.
  intros H; apply match_number_app in H as [-> Hne].
  rewrite !length_app. destruct i; [congruence|cbn; lia].
Qed.

Lemma strip_prefix_lt p s r :
  p <> [] -> strip_prefix p s = Some r -> (length r < length s)%nat.
Proof.
  intros Hp H; apply strip_prefix_app in H as ->.
  rewrite length_app; destruct p; [congruence|cbn; lia].
Qed.

Lemma constant_lt name s v r :
  name <> [] -> constant name s = Some (v, r) -> (length r < length s)%nat.
Proof.
  unfold constant; intros Hn.
  destruct (strip_prefix name s) as [rest|] eqn:E; [|discriminate].
  intros [= _ <-]; eapply strip_prefix_lt; eauto.
Qed.

(** An error of the scanner is no value and no starvation. *)
Lemma errmsg_cases left :
  errmsg left = DecodeError \/ errmsg left = Raised (RecursionError (raising left)).
Proof. unfold Json.errmsg; destruct (_ <? _)%nat; auto. Qed.

Ltac no_value :=
  split;
  [ try discriminate;
    match goal with
    | |- Json.errmsg ?l <> _ => destruct (errmsg_cases l) as [-> | ->]; discriminate
    end
  | try discriminate;
    match goal with
    | |- forall v r, Json.errmsg ?l = _ -> _ =>
        destruct (errmsg_cases l) as [-> | ->]; discriminate
    end ].

(** With a fuel of more than twice the length of the text the decoder
    does not starve, and what it leaves is shorter than what it was
    given. *)
Lemma scan_fuel fuel :
  (forall left s, (2 * length s < fuel)%nat ->
     scan_once fuel left s <> Starved /\
     forall v r, scan_once fuel left s = Found v r -> (length r < length s)%nat) /\
  (forall left pairs s, (2 * length s + 1 < fuel)%nat ->
     object_pairs fuel left pairs s <> Starved /\
     forall v r, object_pairs fuel left pairs s = Found v r -> (length r < length s)%nat) /\
  (forall left values s, (2 * length s + 1 < fuel)%nat ->
     array_items fuel left values s <> Starved /\
     forall v r, array_items fuel left values s = Found v r -> (length r < length s)%nat).
Proof.
  induction fuel as [|f (IHs & IHo & IHa)].
  - repeat split; intros; lia.
  - split; [|split].
    + (* scan_once *)
      intros left [|c s1] Hf; cbn [Json.scan_once]; [split; [discriminate|discriminate]|].
      cbn [length] in Hf.
      destruct (c =? dquote).
      { destruct (scanstring s1) as [[str rest]|] eqn:E; [|no_value].
        split; [discriminate|].
        intros v r [= <- <-]. apply scanstring_lt in E. cbn; lia. }
      destruct (c =? lbrace).
      { destruct left as [|left']; [split; discriminate|].
        destruct (skip_whitespace s1) as [|c2 s2] eqn:E; [no_value|].
        apply skip_whitespace_cons in E.
        destruct (c2 =? rbrace); [split; [discriminate|]|].
        { intros v r [= <- <-]; cbn; lia. }
        destruct (c2 =? dquote); [|no_value].
        destruct (IHo left' [] s2) as [Hns Hlt]; [lia|]. split; auto.
        intros v r H; apply Hlt in H; cbn; lia. }
      destruct (c =? lbracket).
      { destruct left as [|left']; [split; discriminate|].
        destruct (skip_whitespace s1) as [|c2 s2] eqn:E; [split; discriminate|].
        pose proof (skip_whitespace_le s1) as Hle; rewrite E in Hle.
        destruct (c2 =? rbracket); [split; [discriminate|]|].
        { intros v r [= <- <-]; cbn in *; lia. }
        destruct (IHa left' [] (c2 :: s2)) as [Hns Hlt]; [lia|]. split; auto.
        intros v r H; apply Hlt in H; cbn in *; lia. }
      destruct (strip_prefix (py "null") (c :: s1)) as [rest|] eqn:E1.
      { split; [discriminate|]. intros v r [= <- <-].
        eapply strip_prefix_lt; eauto; discriminate. }
      destruct (strip_prefix (py "true") (c :: s1)) as [rest|] eqn:E2.
      { split; [discriminate|]. intros v r [= <- <-].
        eapply strip_prefix_lt; eauto; discriminate. }
      destruct (strip_prefix (py "false") (c :: s1)) as [rest|] eqn:E3.
      { split; [discriminate|]. intros v r [= <- <-].
        eapply strip_prefix_lt; eauto; discriminate. }
      destruct (match_number (c :: s1)) as [[[[i fr] ex] rest]|] eqn:E4.
      { apply match_number_lt in E4.
        destruct fr, ex; try destruct (parse_int lim i);
          (split; [discriminate|]); intros v r; try discriminate;
          intros [= <- <-]; exact E4. }
      destruct (constant (py "NaN") (c :: s1)) as [[v0 rest]|] eqn:E5.
      { unfold parse_constant; destruct left; (split; [discriminate|]);
          intros v r; [discriminate|].
        intros [= <- <-]. eapply constant_lt; eauto; discriminate. }
      destruct (constant (py "Infinity") (c :: s1)) as [[v0 rest]|] eqn:E6.
      { unfold parse_constant; destruct left; (split; [discriminate|]);
          intros v r; [discriminate|].
        intros [= <- <-]. eapply constant_lt; eauto; discriminate. }
      destruct (constant (py "-Infinity") (c :: s1)) as [[v0 rest]|] eqn:E7.
      { unfold parse_constant; destruct left; (split; [discriminate|]);
          intros v r; [discriminate|].
        intros [= <- <-]. eapply constant_lt; eauto; discriminate. }
      split; discriminate.
    + (* object_pairs *)
      intros left pairs s Hf; cbn [Json.object_pairs].
      destruct (scanstring s) as [[key s1]|] eqn:E; [|no_value].
      apply scanstring_lt in E.
      destruct (skip_whitespace s1) as [|c s2] eqn:E1; [no_value|].
      apply skip_whitespace_cons in E1.
      destruct (c =? colon); [|no_value].
      pose proof (skip_whitespace_le s2) as Hle.
      destruct (IHs left (skip_whitespace s2)) as [Hns Hlt]; [lia|].
      destruct (Json.scan_once lim f left (skip_whitespace s2)) as [v s3| | | |] eqn:E2;
        [|split; discriminate|split; discriminate|split; discriminate|congruence].
      specialize (Hlt _ _ eq_refl).
      destruct (skip_whitespace s3) as [|c' s4] eqn:E3; [no_value|].
      apply skip_whitespace_cons in E3.
      destruct (c' =? rbrace); [split; [discriminate|]|].
      { intros v' r [= <- <-]; lia. }
      destruct (c' =? comma); [|no_value].
      destruct (skip_whitespace s4) as [|c'' s5] eqn:E4; [no_value|].
      apply skip_whitespace_cons in E4.
      destruct (c'' =? dquote); [|no_value].
      destruct (IHo left (pairs ++ [(key, v)]) s5) as [Hns' Hlt']; [lia|]. split; auto.
      intros v' r H; apply Hlt' in H; lia.
    + (* array_items *)
      intros left values s Hf; cbn [Json.array_items].
      destruct (IHs left s) as [Hns Hlt]; [lia|].
      destruct (Json.scan_once lim f left s) as [v s1| | | |] eqn:E;
        [|split; discriminate|split; discriminate|split; discriminate|congruence].
      specialize (Hlt _ _ eq_refl).
      destruct (skip_whitespace s1) as [|c s2] eqn:E1; [no_value|].
      apply skip_whitespace_cons in E1.
      destruct (c =? rbracket); [split; [discriminate|]|].
      { intros v' r [= <- <-]; lia. }
      destruct (c =? comma); [|no_value].
      pose proof (skip_whitespace_le s2) as Hle.
      destruct (IHa left (values ++ [v]) (skip_whitespace s2)) as [Hns' Hlt']; [lia|].
      split; auto.
      intros v' r H; apply Hlt' in H; lia.
Qed.

Lemma scan_once_not_starved left s :
  scan_once (fuel_for s) left (skip_whitespace s) <> Starved.
Proof.
  apply (scan_fuel (fuel_for s)).
  pose proof (skip_whitespace_le s); unfold fuel_for; lia.
Qed.

(** [decode] never starves, and it lets no [StopIteration] through: when
    [loads] gives a [JSONDecodeError], the decoder has met a decoding
    error. *)
Lemma decode_not_starved s : decode s <> Starved /\ decode s <> StopIteration.
Proof.
  unfold Json.decode, Json.raw_decode.
  pose proof (scan_once_not_starved (recursion_left lim) s) as H.
  destruct (Json.scan_once lim (fuel_for s) (recursion_left lim) (skip_whitespace s));
    try congruence; try (split; discriminate).
  - destruct (skip_whitespace rest); [split; discriminate|].
    destruct (errmsg_cases (2 + recursion_left lim)) as [-> | ->]; split; discriminate.
  - destruct (errmsg_cases (1 + recursion_left lim)) as [-> | ->]; split; discriminate.
Qed.

Lemma errmsg_raised left e : errmsg left = Raised e -> limit_error lim e.
Proof.
  destruct (errmsg_cases left) as [-> | ->]; [discriminate|].
  intros [= <-]; right; eauto.
Qed.

Lemma parse_int_raised i e : parse_int lim i = inl e -> limit_error lim e.
Proof.
  unfold parse_int.
  destruct (too_many_digits lim (length (integer_digits i))) eqn:E; [|discriminate].
  intros [= <-]; left; eauto.
Qed.

Lemma scan_raised fuel :
  (forall left s e, scan_once fuel left s = Raised e -> limit_error lim e) /\
  (forall left pairs s e, object_pairs fuel left pairs s = Raised e -> limit_error lim e) /\
  (forall left values s e, array_items fuel left values s = Raised e -> limit_error lim e).
Proof.
  induction fuel as [|f (IHs & IHo & IHa)].
  - repeat split; intros; discriminate.
  - split; [|split].
    + intros left s e; cbn [Json.scan_once].
      destruct s as [|c s1]; [discriminate|].
      destruct (c =? dquote).
      { destruct (scanstring s1) as [[str rest]|]; [discriminate|apply errmsg_raised]. }
      destruct (c =? lbrace).
      { destruct left as [|left']; [intros [= <-]; right; eauto|].
        destruct (skip_whitespace s1) as [|c2 s2]; [apply errmsg_raised|].
        destruct (c2 =? rbrace); [discriminate|].
        destruct (c2 =? dquote); [apply IHo|apply errmsg_raised]. }
      destruct (c =? lbracket).
      { destruct left as [|left']; [intros [= <-]; right; eauto|].
        destruct (skip_whitespace s1) as [|c2 s2]; [discriminate|].
        destruct (c2 =? rbracket); [discriminate|apply IHa]. }
      destruct (strip_prefix (py "null") (c :: s1)); [discriminate|].
      destruct (strip_prefix (py "true") (c :: s1)); [discriminate|].
      destruct (strip_prefix (py "false") (c :: s1)); [discriminate|].
      destruct (match_number (c :: s1)) as [[[[i fr] ex] rest]|].
      { destruct fr, ex; try discriminate.
        destruct (parse_int lim i) eqn:E; [|discriminate].
        intros [= <-]. eapply parse_int_raised; eauto. }
      assert (Hc : forall v0 rest,
                 parse_constant left v0 rest = Raised e -> limit_error lim e).
      { unfold parse_constant; intros v0 rest.
        destruct left; [intros [= <-]; right; eauto|discriminate]. }
      destruct (constant (py "NaN") (c :: s1)) as [[v0 rest]|]; [apply Hc|].
      destruct (constant (py "Infinity") (c :: s1)) as [[v0 rest]|]; [apply Hc|].
      destruct (constant (py "-Infinity") (c :: s1)) as [[v0 rest]|];
        [apply Hc|discriminate].
    + intros left pairs s e; cbn [Json.object_pairs].
      destruct (scanstring s) as [[key s1]|]; [|apply errmsg_raised].
      destruct (skip_whitespace s1) as [|c s2]; [apply errmsg_raised|].
      destruct (c =? colon); [|apply errmsg_raised].
      destruct (Json.scan_once lim f left (skip_whitespace s2)) as [v s3| | |e'|] eqn:E2;
        try discriminate.
      2:{ intros [= <-]. eapply IHs; eauto. }
      destruct (skip_whitespace s3) as [|c' s4]; [apply errmsg_raised|].
      destruct (c' =? rbrace); [discriminate|].
      destruct (c' =? comma); [|apply errmsg_raised].
      destruct (skip_whitespace s4) as [|c'' s5]; [apply errmsg_raised|].
      destruct (c'' =? dquote); [apply IHo|apply errmsg_raised].
    + intros left values s e; cbn [Json.array_items].
      destruct (Json.scan_once lim f left s) as [v s1| | |e'|] eqn:E; try discriminate.
      2:{ intros [= <-]. eapply IHs; eauto. }
      destruct (skip_whitespace s1) as [|c s2]; [apply errmsg_raised|].
      destruct (c =? rbracket); [discriminate|].
      destruct (c =? comma); [apply IHa|apply errmsg_raised].
Qed.

(** [json.loads] returns, or raises a [JSONDecodeError], a [ValueError] of
    [int()] or a [RecursionError]. *)
Lemma loads_raised s e :
  loads s = inl e -> e = JSONDecodeError \/ limit_error lim e.
Proof.
  unfold Json.loads, Json.decode, Json.raw_decode.
  destruct (match s with c :: _ => c =? BOM | [] => false end).
  { destruct (errmsg_cases (3 + recursion_left lim)) as [-> | ->];
      intros [= <-]; auto. right; right; eauto. }
  destruct (Json.scan_once lim (fuel_for s) (recursion_left lim) (skip_whitespace s))
    as [v r| | |e'|] eqn:E.
  - destruct (skip_whitespace r); cbv iota; [discriminate|].
    destruct (errmsg_cases (2 + recursion_left lim)) as [-> | ->];
      intros [= <-]; auto. right; right; eauto.
  - intros [= <-]; auto.
  - destruct (errmsg_cases (1 + recursion_left lim)) as [-> | ->];
      intros [= <-]; auto. right; right; eauto.
  - intros [= <-]; right.
    destruct (scan_raised (fuel_for s)) as (Hs & _). eapply Hs; eauto.
  - intros [= <-]; auto.
Qed.
End JsonLemmas.

(** ** Objects and the decoder *)

Section JsonObjects.
Import Json.
Variable lim : limits.

#[local] Abbreviation scan_once := (Json.scan_once lim).
#[local] Abbreviation object_pairs := (Json.object_pairs lim).
#[local] Abbreviation array_items := (Json.array_items lim).
#[local] Abbreviation loads := (Json.loads lim).

(** An error of the scanner is no value. *)
Ltac no_errmsg H :=
  match type of H with
  | Json.errmsg ?l = _ =>
      let X := fresh in
      destruct (errmsg_cases l) as [X|X]; rewrite X in H; discriminate
  end.

Lemma object_pairs_dict fuel : forall left pairs s v r,
  object_pairs fuel left pairs s = Found v r -> exists d, v = VDict d.
Proof.
  induction fuel as [|f IH]; intros left pairs s v r; cbn [Json.object_pairs];
    [discriminate|].
  intros H; repeat break_in H; try discriminate; try no_errmsg H; eauto.
  injection H as <- <-; eauto.
Qed.

Lemma array_items_list fuel : forall left values s v r,
  array_items fuel left values s = Found v r -> exists l, v = VList l.
Proof.
  induction fuel as [|f IH]; intros left values s v r; cbn [Json.array_items];
    [discriminate|].
  intros H; repeat break_in H; try discriminate; try no_errmsg H; eauto.
  injection H as <- <-; eauto.
Qed.

(** What starts with an opening brace decodes to a dictionary. *)
Lemma scan_once_lbrace fuel left s v r :
  scan_once fuel left (lbrace :: s) = Found v r -> exists d, v = VDict d.
Proof.
  destruct fuel as [|f]; cbn [Json.scan_once]; [discriminate|].
  change (lbrace =? dquote) with false; change (lbrace =? lbrace) with true; cbn iota.
  intros H; repeat break_in H; try discriminate; try no_errmsg H.
  - injection H as <- <-; eauto.
  - eapply object_pairs_dict; eauto.
Qed.

(** Only what starts with an opening brace decodes to a dictionary. *)
Lemma scan_once_dict fuel left s d r :
  scan_once fuel left s = Found (VDict d) r -> exists s1, s = lbrace :: s1.
Proof.
  destruct fuel as [|f]; cbn [Json.scan_once]; [discriminate|].
  destruct s as [|c s1]; [discriminate|].
  destruct (c =? dquote); [intros H; repeat break_in H; try discriminate; no_errmsg H|].
  destruct (N.eqb_spec c lbrace); [subst; eauto|].
  destruct (c =? lbracket).
  { intros H; repeat break_in H; try discriminate.
    apply array_items_list in H as [l [=]]. }
  unfold constant, parse_constant.
  intros H; repeat break_in H; try discriminate;
    injection H as -> _;
    repeat match goal with E : _ = Some _ |- _ => break_in E end; congruence.
Qed.

Lemma skip_whitespace_suffix s : exists ws, s = ws ++ skip_whitespace s.
Proof.
  induction s as [|c s [ws IH]]; cbn; [now exists []|].
  destruct (is_whitespace c); [|now exists []].
  exists (c :: ws); cbn; congruence.
Qed.

Lemma loads_found s v :
  loads s = inr v ->
  exists r, scan_once (fuel_for s) (recursion_left lim) (skip_whitespace s) = Found v r.
Proof.
  unfold Json.loads, Json.decode, Json.raw_decode.
  destruct (match s with [] => false | c :: _ => c =? BOM end).
  { destruct (errmsg_cases (3 + recursion_left lim)) as [-> | ->]; discriminate. }
  destruct (Json.scan_once lim (fuel_for s) (recursion_left lim) (skip_whitespace s))
    as [v0 r| | | |]; try discriminate.
  - destruct (skip_whitespace r); [intros [= <-]; eauto|].
    destruct (errmsg_cases (2 + recursion_left lim)) as [-> | ->]; discriminate.
  - destruct (errmsg_cases (1 + recursion_left lim)) as [-> | ->]; discriminate.
Qed.

Lemma loads_dict_lbrace s d : loads s = inr (VDict d) -> In lbrace s.
Proof.
  intros H; apply loads_found in H as [r H].
  apply scan_once_dict in H as [s1 H].
  destruct (skip_whitespace_suffix s) as [ws Hs].
  rewrite Hs, H. apply in_or_app; right; now left.
Qed.

Lemma loads_lbrace_dict s v : loads (lbrace :: s) = inr v -> exists d, v = VDict d.
Proof.
  intros H; apply loads_found in H as [r H].
  change (skip_whitespace (lbrace :: s)) with (lbrace :: s) in H.
  eapply scan_once_lbrace; eauto.
Qed.

Lemma from_leftmost_head c s t : from_leftmost c s = Some t -> exists t', t = c :: t'.
Proof.
  induction s as [|x s IH]; cbn; [discriminate|].
  destruct (N.eqb_spec x c); [intros [= <-]; subst; eauto|auto].
Qed.

Lemma from_leftmost_suffix c s t : from_leftmost c s = Some t -> exists pre, s = pre ++ t.
Proof.
  induction s as [|x s IH]; cbn; [discriminate|].
  destruct (x =? c); [intros [= <-]; now exists []|].
  intros H; destruct (IH H) as [pre ->]; now exists (x :: pre).
Qed.

Lemma leftmost_to_rightmost_shape text m :
  leftmost_to_rightmost text = Some m ->
  exists pre inner post, text = pre ++ m ++ post /\ m = lbrace :: inner ++ [rbrace].
Proof.
  unfold leftmost_to_rightmost.
  destruct (from_leftmost lbrace text) as [[|b s]|] eqn:E; try discriminate.
  destruct (upto_rightmost rbrace s) as [t|] eqn:E'; [|discriminate].
  intros [= <-].
  destruct (from_leftmost_head _ _ _ E) as [t' [= -> <-]].
  destruct (from_leftmost_suffix _ _ _ E) as [pre ->].
  destruct (upto_rightmost_prefix _ _ _ E') as [post ->].
  destruct (upto_rightmost_last _ _ _ E') as [inner ->].
  exists pre, inner, post; split; [|reflexivity].
  cbn. now rewrite <- !app_assoc.
Qed.

(** The first step yields a dictionary or nothing. *)
Lemma direct_json_dict text v :
  direct_json lim text = inr (Some v) -> exists d, v = VDict d.
Proof.
  unfold direct_json.
  destruct (leftmost_to_rightmost text) as [m|] eqn:E; [|discriminate].
  destruct (leftmost_to_rightmost_shape _ _ E) as (_ & inner & _ & _ & ->).
  destruct (Json.loads lim (lbrace :: inner ++ [rbrace])) as [[]|v0] eqn:El;
    try discriminate.
  intros [= <-]. eapply loads_lbrace_dict; eauto.
Qed.

Lemma direct_json_contains text v :
  direct_json lim text = inr (Some v) -> contains_json_object lim text.
Proof.
  intros H; destruct (direct_json_dict _ _ H) as [d ->].
  unfold direct_json in H.
  destruct (leftmost_to_rightmost text) as [m|] eqn:E; [|discriminate].
  destruct (leftmost_to_rightmost_shape _ _ E) as (pre & _ & post & -> & _).
  destruct (Json.loads lim m) as [[]|v0] eqn:El; try discriminate.
  injection H as ->. now exists pre, m, post, d.
Qed.

(** What the first step raises is an exception of the limits. *)
Lemma direct_json_raised text e :
  direct_json lim text = inl e -> limit_error lim e.
Proof.
  unfold direct_json.
  destruct (leftmost_to_rightmost text) as [m|]; [|discriminate].
  destruct (Json.loads lim m) as [e0|v0] eqn:El; [|discriminate].
  destruct (loads_raised _ _ _ El) as [-> | Hl]; [discriminate|].
  destruct e0; try discriminate; now intros [= <-].
Qed.

(** The span of a braced text among brace-free prose is that text. *)
Lemma from_leftmost_skip c pre s :
  ~ In c pre -> from_leftmost c (pre ++ c :: s) = Some (c :: s).
Proof.
  induction pre as [|x pre IH]; cbn; intros Hn.
  - now rewrite N.eqb_refl.
  - destruct (N.eqb_spec x c); [tauto|apply IH; tauto].
Qed.

Lemma upto_rightmost_skip c s post :
  ~ In c post -> upto_rightmost c (s ++ c :: post) = Some (s ++ [c]).
Proof.
  intros Hn; induction s as [|x s IH]; cbn.
  - apply upto_rightmost_none in Hn as ->. now rewrite N.eqb_refl.
  - now rewrite IH.
Qed.

Lemma leftmost_to_rightmost_embedded pre inner post :
  ~ In lbrace pre -> ~ In rbrace post ->
  leftmost_to_rightmost (pre ++ (lbrace :: inner ++ [rbrace]) ++ post)
  = Some (lbrace :: inner ++ [rbrace]).
Proof.
  intros Hpre Hpost; unfold leftmost_to_rightmost.
  cbn [app]. rewrite from_leftmost_skip by assumption.
  rewrite <- app_assoc. cbn [app].
  now rewrite upto_rightmost_skip.
Qed.
End JsonObjects.

(** ** The pattern of the second step *)

Section AssetPattern.
Variable todecimal : N -> option N.

#[local] Abbreviation matches' := (matches todecimal true).

Lemma literal_ignore_percent x : Re.literal_ignore percent x = true -> x = percent.
Proof.
  unfold Re.literal_ignore, Re.ascii_lower, percent; cbn.
  rewrite orb_false_r.
  destruct ((65 <=? x) && (x <=? 90)) eqn:E; intros H; apply N.eqb_eq in H; auto.
  apply andb_prop in E as [E _]; apply N.leb_le in E; lia.
Qed.

Lemma matches_literal_inv asset : forall p marks s marks' rest,
  matches' (Re.literal asset ++ p) marks s marks' rest ->
  exists name s',
    s = name ++ s' /\ same_ignoring_case asset name /\ matches' p marks s' marks' rest.
Proof.
  induction asset as [|l asset IH]; cbn; intros p marks s marks' rest H.
  - exists [], s; repeat split; auto; constructor.
  - inversion H as [|c p0 mk x s0 mk' r Hx Hm| | |]; subst.
    destruct (IH _ _ _ _ _ Hm) as (name & s' & -> & Hci & Hm').
    exists (x :: name), s'; repeat split; auto.
    constructor; auto.
Qed.

Lemma matches_literal_intro asset name : forall p marks s marks' rest,
  same_ignoring_case asset name ->
  matches' p marks s marks' rest ->
  matches' (Re.literal asset ++ p) marks (name ++ s) marks' rest.
Proof.
  intros p marks s marks' rest Hci Hm.
  induction Hci as [|l x asset name Hx _ IH]; cbn; auto.
  constructor; auto.
Qed.

(** What a match of [pattern asset] at the start of [s] looks like. *)
Lemma matches_pattern_inv asset s marks rest :
  matches' (pattern asset) [] s marks rest ->
  exists name gap digits,
    s = name ++ gap ++ digits ++ percent :: rest /\
    marks = [digits ++ percent :: rest; percent :: rest] /\
    same_ignoring_case asset name /\
    Forall (fun c => c <> newline) gap /\
    digits <> [] /\ Forall (fun c => is_decimal todecimal c = true) digits.
Proof.
  intros H; apply matches_literal_inv in H as (name & s' & -> & Hci & H).
  inversion H as [| |  |min c p mk gap s1 mk' r Hgap _ H1|]; subst; clear H.
  inversion H1 as [| | | |p mk s mk' r H2]; subst; clear H1.
  inversion H2 as [| |min c p mk digits s3 mk' r Hdigits Hlen H3| |]; subst; clear H2.
  inversion H3 as [| | | |p mk s mk' r H4]; subst; clear H3.
  inversion H4 as [|c p mk x s mk' r Hx H5| | |]; subst; clear H4.
  inversion H5; subst; clear H5.
  apply literal_ignore_percent in Hx as ->.
  exists name, gap, digits; repeat split; auto.
  - eapply Forall_impl; [|exact Hgap]; cbn.
    intros c Hc ->; discriminate.
  - destruct digits; [cbn in Hlen; lia|discriminate].
Qed.

Lemma matches_pattern_intro asset name gap digits rest :
  same_ignoring_case asset name ->
  Forall (fun c => c <> newline) gap ->
  digits <> [] -> Forall (fun c => is_decimal todecimal c = true) digits ->
  matches' (pattern asset) [] (name ++ gap ++ digits ++ percent :: rest)
           [digits ++ percent :: rest; percent :: rest] rest.
Proof.
  intros Hci Hgap Hne Hdigits.
  apply matches_literal_intro; auto.
  constructor; [|lia|].
  { eapply Forall_impl; [|exact Hgap]; cbn.
    intros c Hc; destruct (N.eqb_spec c newline); tauto. }
  constructor; cbn [app].
  constructor; [exact Hdigits|destruct digits; [congruence|cbn; lia]|].
  constructor; cbn [app].
  constructor; [reflexivity|constructor].
Qed.

(** The first match of an asset's pattern holds in group 1 a run of
    decimal digits that follows the asset name on its line and is
    followed by a percent sign. *)
Lemma search_pattern_sound asset text m :
  Re.search todecimal true (pattern asset) text = Some m ->
  percent_on_line_after todecimal asset text (Re.group m 1).
Proof.
  intros H; apply search_sound in H as (pre & Htext & Hrun & _).
  apply run_sound, matches_pattern_inv in Hrun
    as (name & gap & digits & Hfrom & Hmarks & Hci & Hgap & Hne & Hdigits).
  exists pre, name, gap, (Re.m_rest m).
  unfold Re.group; rewrite Hmarks; cbn [nth Nat.mul Nat.add].
  change (digits ++ percent :: Re.m_rest m) with (digits ++ (percent :: Re.m_rest m)).
  rewrite between_app. rewrite Htext, Hfrom. repeat split; auto.
Qed.

(** Where such a run exists, the pattern is found. *)
Lemma search_pattern_complete asset text digits :
  percent_on_line_after todecimal asset text digits ->
  exists m, Re.search todecimal true (pattern asset) text = Some m.
Proof.
  intros (pre & name & gap & post & -> & Hci & Hgap & Hne & Hdigits).
  destruct (run_complete todecimal true _ _ _ _ _
              (matches_pattern_intro asset name gap digits post Hci Hgap Hne Hdigits))
    as [res Hres].
  eapply search_complete; eauto.
Qed.
Lemma app_same_length {A} (a a' b b' : list A) :
  a ++ b = a' ++ b' -> length a = length a' -> a = a' /\ b = b'.
Proof.
  revert a'; induction a as [|x a IH]; intros [|y a']; cbn; try discriminate; auto.
  intros [= -> E] [= Hlen]. destruct (IH _ E Hlen) as [-> ->]; auto.
Qed.

Lemma app_shorter {A} (a a' b b' : list A) :
  a ++ b = a' ++ b' -> (length a' < length a)%nat ->
  exists c, c <> [] /\ a = a' ++ c /\ b' = c ++ b.
Proof.
  revert a; induction a' as [|y a' IH]; intros [|x a]; cbn; try lia.
  - intros <- _. exists (x :: a); repeat split; auto; discriminate.
  - intros [= -> E] Hlen. destruct (IH a E) as (c & Hc & -> & ->); [lia|].
    exists c; auto.
Qed.

Lemma same_ignoring_case_length asset name :
  same_ignoring_case asset name -> length name = length asset.
Proof. intros H; symmetry; eapply Forall2_length; eauto. Qed.

Lemma run_literal_inv asset : forall p marks s res,
  Re.run todecimal true (Re.literal asset ++ p) marks s = Some res ->
  exists name s',
    s = name ++ s' /\ same_ignoring_case asset name /\
    Re.run todecimal true p marks s' = Some res.
Proof.
  induction asset as [|l asset IH]; intros p marks s res H.
  - exists [], s; repeat split; auto; constructor.
  - cbn [Re.literal map app Re.run Re.test] in H.
    destruct s as [|x s]; [discriminate|].
    destruct (Re.literal_ignore l x) eqn:Hx; [|discriminate].
    destruct (IH _ _ _ _ H) as (name & s' & -> & Hci & Hrun).
    exists (x :: name), s'; repeat split; auto. constructor; auto.
Qed.

(** The digits and the percent sign at the start of a text. *)
Lemma run_digits_percent digits rest :
  digits <> [] -> Forall (fun c => is_decimal todecimal c = true) digits ->
  exists res,
    Re.run todecimal true
      [Re.MARK; Re.MAX_REPEAT 1 Re.DIGIT; Re.MARK; Re.ONE (Re.LITERAL percent)] []
      (digits ++ percent :: rest) = Some res.
Proof.
  intros Hne Hdigits. eapply run_complete.
  constructor; cbn [app].
  constructor; [exact Hdigits|destruct digits; [congruence|cbn; lia]|].
  constructor; cbn [app].
  constructor; [reflexivity|constructor].
Qed.

(** What follows the asset name in a match of [pattern asset]: the fewest
    characters of the line before digits and a percent sign, and then the
    most digits. *)
Lemma run_after_name s marks rest :
  Re.run todecimal true
    [Re.MIN_REPEAT 0 Re.ANY; Re.MARK; Re.MAX_REPEAT 1 Re.DIGIT; Re.MARK;
     Re.ONE (Re.LITERAL percent)] [] s = Some (marks, rest) ->
  exists gap digits,
    s = gap ++ digits ++ percent :: rest /\
    marks = [digits ++ percent :: rest; percent :: rest] /\
    Forall (fun c => c <> newline) gap /\
    digits <> [] /\ Forall (fun c => is_decimal todecimal c = true) digits /\
    forall gap' digits' rest',
      s = gap' ++ digits' ++ percent :: rest' ->
      Forall (fun c => c <> newline) gap' ->
      digits' <> [] -> Forall (fun c => is_decimal todecimal c = true) digits' ->
      (length gap < length gap')%nat \/
      (length gap = length gap' /\ (length digits' <= length digits)%nat).
Proof.
  cbn [Re.run]; intros H.
  apply min_repeat_shortest in H as (gap & s2 & -> & Hgap & Hk & Hmin).
  cbn [Re.run app] in Hk.
  apply max_repeat_longest in Hk as (digits & s3 & -> & Hdigits & Hlen & Hk & Hmax).
  cbn [Re.run app Re.test] in Hk.
  destruct s3 as [|x s3]; [discriminate|].
  destruct (Re.literal_ignore percent x) eqn:Hx; [|discriminate].
  apply literal_ignore_percent in Hx as ->. injection Hk as <- <-.
  assert (Hgap' : Forall (fun c => c <> newline) gap).
  { eapply Forall_impl; [|exact Hgap]; cbn. intros c Hc ->; discriminate. }
  assert (Hne : digits <> []) by (destruct digits; [cbn in Hlen; lia|discriminate]).
  exists gap, digits; repeat split; auto.
  intros gap' digits' rest' E Hg' Hne' Hd'.
  destruct (lt_eq_lt_dec (length gap) (length gap')) as [[Hlt|Heq]|Hgt]; auto.
  - right; split; auto.
    destruct (app_same_length _ _ _ _ E Heq) as [-> E'].
    destruct (le_lt_dec (length digits') (length digits)) as [|Hlt]; auto.
    specialize (Hmax digits' (percent :: rest') E' Hd' Hlt).
    cbn [Re.run app Re.test] in Hmax. discriminate.
  - exfalso. specialize (Hmin gap' (digits' ++ percent :: rest') E Hgt).
    destruct (run_digits_percent digits' rest' Hne' Hd') as [res Hres].
    cbn [Re.run app] in Hres, Hmin. congruence.
Qed.

(** The first match of an asset's pattern holds in group 1 the first
    percentage of the asset. *)
Lemma search_pattern_first asset text m :
  Re.search todecimal true (pattern asset) text = Some m ->
  first_percent_on_line todecimal asset text (Re.group m 1).
Proof.
  intros H; apply search_sound in H as (pre & Htext & Hrun & Hleft).
  unfold pattern in Hrun.
  apply run_literal_inv in Hrun as (name & s' & Hfrom & Hci & Hrun).
  apply run_after_name in Hrun
    as (gap & digits & -> & Hmarks & Hgap & Hne & Hdigits & Hfirst).
  assert (Hg : Re.group m 1 = digits).
  { unfold Re.group; rewrite Hmarks; cbn [nth Nat.mul Nat.add].
    change (digits ++ percent :: Re.m_rest m) with (digits ++ (percent :: Re.m_rest m)).
    apply between_app. }
  rewrite Hg. exists pre, name, gap, (Re.m_rest m).
  rewrite Htext, Hfrom. repeat split; auto.
  intros pre' name' gap' digits' post' E Hci' Hgap' Hne' Hdigits'.
  destruct (lt_eq_lt_dec (length pre) (length pre')) as [[Hlt|Heq]|Hgt]; auto.
  - right; split; auto.
    destruct (app_same_length _ _ _ _ E Heq) as [<- E'].
    assert (Hlen : length name = length name').
    { rewrite (same_ignoring_case_length _ _ Hci).
      now rewrite (same_ignoring_case_length _ _ Hci'). }
    destruct (app_same_length _ _ _ _ E' Hlen) as [<- E''].
    destruct (Hfirst gap' digits' post' E'' Hgap' Hne' Hdigits') as [|[? ?]]; auto.
  - exfalso.
    destruct (app_shorter _ _ _ _ E Hgt) as (c & Hc & -> & E').
    specialize (Hleft pre' c eq_refl Hc).
    rewrite Hfrom, <- E' in Hleft.
    destruct (run_complete todecimal true _ _ _ _ _
                (matches_pattern_intro asset name' gap' digits' post'
                   Hci' Hgap' Hne' Hdigits')) as [res Hres].
    congruence.
Qed.

(** The first percentage of an asset is unique. *)
Lemma first_percent_on_line_unique asset text digits digits' :
  first_percent_on_line todecimal asset text digits ->
  first_percent_on_line todecimal asset text digits' ->
  digits = digits'.
Proof.
  intros (pre & name & gap & post & E & Hci & Hgap & Hne & Hd & Hfirst)
         (pre' & name' & gap' & post' & E' & Hci' & Hgap' & Hne' & Hd' & Hfirst').
  specialize (Hfirst _ _ _ _ _ E' Hci' Hgap' Hne' Hd').
  specialize (Hfirst' _ _ _ _ _ E Hci Hgap Hne Hd).
  assert (Hpre : length pre = length pre') by lia.
  assert (Hg : length gap = length gap') by lia.
  assert (Hdl : length digits = length digits') by lia.
  rewrite E in E'.
  destruct (app_same_length _ _ _ _ E' Hpre) as [_ E1].
  assert (Hname : length name = length name').
  { rewrite (same_ignoring_case_length _ _ Hci).
    now rewrite (same_ignoring_case_length _ _ Hci'). }
  destruct (app_same_length _ _ _ _ E1 Hname) as [_ E2].
  destruct (app_same_length _ _ _ _ E2 Hg) as [_ E3].
  now destruct (app_same_length _ _ _ _ E3 Hdl).
Qed.

(** The digits that the loop finds for an asset are the first percentage
    of the asset. *)
Lemma asset_digits_first asset text digits :
  asset_digits todecimal asset text = Some digits <->
  first_percent_on_line todecimal asset text digits.
Proof.
  unfold asset_digits; split.
  - destruct (Re.search todecimal true (pattern asset) text) as [m|] eqn:E; [|discriminate].
    intros [= <-]. now apply search_pattern_first.
  - intros Hfirst.
    destruct Hfirst as (pre & name & gap & post & E & Hci & Hgap & Hne & Hd & Hfirst).
    destruct (search_pattern_complete asset text digits) as [m Hm].
    { exists pre, name, gap, post; auto. }
    rewrite Hm. f_equal.
    eapply first_percent_on_line_unique; [apply search_pattern_first; eauto|].
    exists pre, name, gap, post; auto 10.
Qed.

(** The percentage of an asset is the integer of the first percentage of
    the asset. *)
Lemma asset_percentage_first asset text n :
  asset_percentage todecimal asset text = Some n <->
  exists digits,
    first_percent_on_line todecimal asset text digits /\ n = int_value todecimal digits.
Proof.
  unfold asset_percentage; split.
  - destruct (asset_digits todecimal asset text) as [digits|] eqn:E; [|discriminate].
    intros [= <-]. exists digits; split; auto. now apply asset_digits_first.
  - intros (digits & Hfirst & ->).
    apply asset_digits_first in Hfirst. now rewrite Hfirst.
Qed.
End AssetPattern.

(** ** Reading back what was written *)

Section RoundTrip.
Import Json.
Variable lim : limits.

#[local] Abbreviation scan_once := (Json.scan_once lim).
#[local] Abbreviation object_pairs := (Json.object_pairs lim).
#[local] Abbreviation loads := (Json.loads lim).

Lemma scanstring_plain c s :
  c <> dquote -> c <> backslash -> 32 <= c ->
  scanstring (c :: s) = append_char c (scanstring s).
Proof.
  intros H1 H2 H3; cbn [scanstring].
  apply N.eqb_neq in H1, H2; rewrite H1, H2.
  destruct (N.ltb_spec c 32); [lia|reflexivity].
Qed.

Lemma scanstring_short esc char s :
  esc <> ord "u" -> BACKSLASH esc = Some char ->
  scanstring (backslash :: esc :: s) = append_char char (scanstring s).
Proof.
  intros H1 H2; cbn [scanstring].
  change (backslash =? dquote) with false; change (backslash =? backslash) with true.
  cbn iota. apply N.eqb_neq in H1; rewrite H1, H2. reflexivity.
Qed.

Lemma scanstring_u h1 h2 h3 h4 uni s :
  decode_uXXXX h1 h2 h3 h4 = Some uni -> is_high_surrogate uni = false ->
  scanstring (backslash :: ord "u" :: h1 :: h2 :: h3 :: h4 :: s)
  = append_char uni (scanstring s).
Proof.
  intros H1 H2; cbn [scanstring].
  change (backslash =? dquote) with false; change (backslash =? backslash) with true.
  change (ord "u" =? ord "u") with true. cbn iota.
  rewrite H1, H2. reflexivity.
Qed.

Lemma hexdigit_hexchar d : d < 16 -> hexdigit (hexchar d) = Some d.
Proof.
  intros Hd; unfold hexchar, hexdigit, zero.
  destruct (N.ltb_spec d 10).
  - replace ((48 <=? 48 + d) && (48 + d <=? 57)) with true.
    + f_equal; lia.
    + symmetry; apply andb_true_intro; split; apply N.leb_le; lia.
  - replace ((48 <=? 87 + d) && (87 + d <=? 57)) with false.
    + replace ((97 <=? 87 + d) && (87 + d <=? 102)) with true.
      * f_equal; lia.
      * symmetry; apply andb_true_intro; split; apply N.leb_le; lia.
    + symmetry; apply andb_false_intro2; apply N.leb_gt; lia.
Qed.

Lemma decode_control c :
  c < 32 -> decode_uXXXX zero zero (hexchar (c / 16)) (hexchar (c mod 16)) = Some c.
Proof.
  intros Hc; unfold decode_uXXXX.
  assert (c / 16 < 16) by (apply N.Div0.div_lt_upper_bound; lia).
  assert (c mod 16 < 16) by (apply N.mod_lt; lia).
  change (hexdigit zero) with (Some 0).
  rewrite !hexdigit_hexchar by assumption.
  f_equal. pose proof (N.div_mod c 16); lia.
Qed.

(** The decoder reads an escaped string back. *)
Lemma scanstring_escape s rest :
  scanstring (escape s ++ dquote :: rest) = Some (s, rest).
Proof.
  induction s as [|c s IH]; cbn [escape flat_map app].
  - cbn [scanstring]. now rewrite N.eqb_refl.
  - fold (escape s). rewrite <- app_assoc. unfold escape_char.
    destruct (N.eqb_spec c dquote) as [->|H1].
    { cbn [app]. rewrite scanstring_short with (char := dquote); try reflexivity.
      - now rewrite IH.
      - discriminate. }
    destruct (N.eqb_spec c backslash) as [->|H2].
    { cbn [app]. rewrite scanstring_short with (char := backslash); try reflexivity.
      - now rewrite IH.
      - discriminate. }
    destruct (N.eqb_spec c 8) as [->|H3].
    { cbn [app]. rewrite scanstring_short with (char := 8); try reflexivity.
      - now rewrite IH.
      - discriminate. }
    destruct (N.eqb_spec c 12) as [->|H4].
    { cbn [app]. rewrite scanstring_short with (char := 12); try reflexivity.
      - now rewrite IH.
      - discriminate. }
    destruct (N.eqb_spec c 10) as [->|H5].
    { cbn [app]. rewrite scanstring_short with (char := 10); try reflexivity.
      - now rewrite IH.
      - discriminate. }
    destruct (N.eqb_spec c 13) as [->|H6].
    { cbn [app]. rewrite scanstring_short with (char := 13); try reflexivity.
      - now rewrite IH.
      - discriminate. }
    destruct (N.eqb_spec c 9) as [->|H7].
    { cbn [app]. rewrite scanstring_short with (char := 9); try reflexivity.
      - now rewrite IH.
      - discriminate. }
    destruct (N.ltb_spec c 32) as [H8|H8].
    { cbn [app]. rewrite scanstring_u with (uni := c).
      - now rewrite IH.
      - now apply decode_control.
      - unfold is_high_surrogate. apply andb_false_intro1, N.leb_gt; lia. }
    cbn [app]. rewrite scanstring_plain by assumption. now rewrite IH.
Qed.
(** *** Integers *)

Lemma digits_value_snoc ds d :
  digits_value (ds ++ [d]) = (10 * digits_value ds + Z.of_N (d - zero))%Z.
Proof. unfold digits_value. now rewrite fold_left_app. Qed.

Lemma is_digit_spec c : is_digit c = true <-> zero <= c <= nine.
Proof.
  unfold is_digit. rewrite andb_true_iff, !N.leb_le. tauto.
Qed.

Lemma digits_onto_spec fuel : forall n acc,
  n < 2 ^ N.of_nat fuel ->
  exists ds, digits_onto (S fuel) n acc = ds ++ acc /\ digits_of n ds.
Proof.
  induction fuel as [|f IH]; intros n acc Hn; cbn [digits_onto].
  - assert (n = 0) as -> by (cbn in Hn; lia).
    exists [zero]; split; [reflexivity|].
    repeat split; auto; try congruence; repeat constructor.
  - destruct (N.ltb_spec n 10) as [Hlt|Hge].
    + exists [zero + n]; split; [reflexivity|].
      repeat split.
      * repeat constructor. apply is_digit_spec; unfold zero, nine; lia.
      * unfold digits_value; cbn [fold_left]. unfold zero; lia.
      * intros ->; reflexivity.
      * intros Hnz; exists (zero + n), []; split; auto. unfold zero; lia.
    + assert (Hdiv : n / 10 < 2 ^ N.of_nat f).
      { apply N.Div0.div_lt_upper_bound.
        rewrite Nat2N.inj_succ, N.pow_succ_r' in Hn. lia. }
      assert (Hmod : n mod 10 < 10) by (apply N.mod_lt; lia).
      assert (Hdm : n = 10 * (n / 10) + n mod 10) by (apply N.div_mod; lia).
      set (q := n / 10) in *; set (m := n mod 10) in *; clearbody q m.
      destruct (IH q ((zero + m) :: acc) Hdiv) as (ds & E & Hall & Hval & _ & Hnz).
      assert (Hq : q <> 0) by lia.
      exists (ds ++ [zero + m]); split.
      { cbn [digits_onto] in E. rewrite E, <- app_assoc. reflexivity. }
      repeat split.
      * apply Forall_app; split; auto. repeat constructor.
        apply is_digit_spec; unfold zero, nine; lia.
      * rewrite digits_value_snoc, Hval. unfold zero. lia.
      * intros ->; lia.
      * intros _. destruct (Hnz Hq) as (c & ds' & -> & Hc).
        exists c, (ds' ++ [zero + m]); split; auto.
Qed.

Lemma decimal_spec n : digits_of n (decimal n).
Proof.
  unfold decimal.
  destruct (digits_onto_spec (N.to_nat (N.size n)) n []) as (ds & E & H).
  - rewrite N2Nat.id. apply N.size_gt.
  - rewrite E, app_nil_r. exact H.
Qed.

Lemma decimal_cons n : exists c ds, decimal n = c :: ds /\ is_digit c = true.
Proof.
  destruct (decimal_spec n) as (Hall & _ & Hz & Hnz).
  destruct (N.eq_dec n 0) as [E|E].
  - rewrite (Hz E). do 2 eexists; split; reflexivity.
  - destruct (Hnz E) as (c & ds & E' & _). rewrite E' in *.
    inversion Hall; subst. eauto.
Qed.

Lemma span_stop ds rest :
  Forall (fun c => is_digit c = true) ds -> ends_number rest ->
  span is_digit (ds ++ rest) = (ds, rest).
Proof.
  intros Hall Hrest; induction Hall as [|c ds Hc _ IH]; cbn.
  - destruct rest as [|c rest]; cbn; auto. destruct Hrest as [-> _]; reflexivity.
  - now rewrite Hc, IH.
Qed.

Lemma int_digits_decimal n rest :
  ends_number rest -> int_digits (decimal n ++ rest) = Some (decimal n, rest).
Proof.
  intros Hrest. destruct (decimal_spec n) as (Hall & _ & Hz & Hnz).
  destruct (N.eq_dec n 0) as [E|E].
  - rewrite (Hz E). reflexivity.
  - destruct (Hnz E) as (c & ds & E' & Hc). rewrite E' in *.
    inversion Hall as [|? ? Hd Hds]; subst. cbn [app int_digits].
    apply N.eqb_neq in Hc; rewrite Hc, Hd.
    now rewrite span_stop.
Qed.

Lemma opt_frac_none rest : ends_number rest -> opt_frac rest = ([], rest).
Proof.
  destruct rest as [|c rest]; cbn; auto.
  intros (_ & H & _). apply N.eqb_neq in H; now rewrite H.
Qed.

Lemma opt_exp_none rest : ends_number rest -> opt_exp rest = ([], rest).
Proof.
  destruct rest as [|c rest]; cbn [opt_exp]; auto.
  intros (_ & _ & H1 & H2). apply N.eqb_neq in H1, H2; now rewrite H1, H2.
Qed.

(** The first character of a written integer is a minus sign or a digit. *)
Lemma str_int_head z :
  exists c tl, str_int z = c :: tl /\ (c = minus \/ is_digit c = true).
Proof.
  unfold str_int. destruct (z <? 0)%Z.
  - do 2 eexists; split; [reflexivity|auto].
  - destruct (decimal_cons (Z.to_N z)) as (c & ds & -> & Hc); eauto.
Qed.

Lemma digit_not_minus c : is_digit c = true -> (c =? minus) = false.
Proof.
  intros Hc; apply is_digit_spec in Hc. unfold zero in Hc.
  apply N.eqb_neq; unfold minus; lia.
Qed.

Lemma match_number_str_int z rest :
  ends_number rest ->
  match_number (str_int z ++ rest) = Some (str_int z, [], [], rest).
Proof.
  intros Hrest. unfold match_number, str_int.
  destruct (z <? 0)%Z.
  - cbn [app opt_minus]. change (minus =? minus) with true. cbn iota.
    rewrite int_digits_decimal, opt_frac_none, opt_exp_none by assumption.
    reflexivity.
  - assert (Hm : opt_minus (decimal (Z.to_N z) ++ rest)
                 = ([], decimal (Z.to_N z) ++ rest)).
    { destruct (decimal_cons (Z.to_N z)) as (c & ds & -> & Hc).
      cbn [app opt_minus]. now rewrite (digit_not_minus _ Hc). }
    rewrite Hm, int_digits_decimal, opt_frac_none, opt_exp_none by assumption.
    reflexivity.
Qed.

Lemma integer_value_str_int z : integer_value (str_int z) = z.
Proof.
  unfold str_int. destruct (Z.ltb_spec z 0) as [Hneg|Hpos].
  - cbn [integer_value]. change (minus =? minus) with true. cbn iota.
    destruct (decimal_spec (Z.to_N (- z))) as (_ & -> & _). lia.
  - destruct (decimal_spec (Z.to_N z)) as (_ & Hval & _).
    destruct (decimal_cons (Z.to_N z)) as (c & ds & E & Hc).
    rewrite E in *. unfold integer_value.
    rewrite (digit_not_minus _ Hc), Hval. lia.
Qed.

(** [int()] reads back what [str()] has written, when the digits are not
    too many. *)
Lemma parse_int_str_int z :
  too_many_digits lim (length (integer_digits (str_int z))) = false ->
  parse_int lim (str_int z) = inr z.
Proof.
  intros H. unfold parse_int. now rewrite H, integer_value_str_int.
Qed.

(** The decoder reads a written integer back. *)
Lemma scan_once_str_int fuel left z rest :
  too_many_digits lim (length (integer_digits (str_int z))) = false ->
  ends_number rest ->
  scan_once (S fuel) left (str_int z ++ rest) = Found (VInt z) rest.
Proof.
  intros Hz Hrest.
  pose proof (match_number_str_int z rest Hrest) as Hnum.
  pose proof (parse_int_str_int z Hz) as Hint.
  destruct (str_int_head z) as (c & tl & E & Hc).
  rewrite E in *. cbn [app] in *. cbn [Json.scan_once].
  assert (Hb : 45 <= c <= 57).
  { destruct Hc as [->|Hc]; [unfold minus; lia|].
    apply is_digit_spec in Hc; unfold zero, nine in Hc; lia. }
  destruct (N.eqb_spec c dquote); [unfold dquote in *; lia|].
  destruct (N.eqb_spec c lbrace); [unfold lbrace in *; lia|].
  destruct (N.eqb_spec c lbracket); [unfold lbracket in *; lia|].
  assert (Hp : forall x p, 97 <= x -> strip_prefix (x :: p) (c :: tl ++ rest) = None).
  { intros x p Hx; cbn [strip_prefix].
    destruct (N.eqb_spec x c); [lia|reflexivity]. }
  change (py "null") with (110 :: py "ull").
  change (py "true") with (116 :: py "rue").
  change (py "false") with (102 :: py "alse").
  rewrite !Hp by lia.
  rewrite Hnum, Hint. reflexivity.
Qed.
(** *** Objects *)

Lemma skip_whitespace_stop c s :
  is_whitespace c = false -> skip_whitespace (c :: s) = c :: s.
Proof. intros H; cbn; now rewrite H. Qed.

Lemma str_int_not_whitespace z rest :
  skip_whitespace (space :: str_int z ++ rest) = str_int z ++ rest.
Proof.
  destruct (str_int_head z) as (c & tl & -> & Hc).
  change (skip_whitespace (space :: (c :: tl) ++ rest))
    with (skip_whitespace ((c :: tl) ++ rest)).
  cbn [app]. apply skip_whitespace_stop.
  assert (45 <= c).
  { destruct Hc as [->|Hc]; [unfold minus; lia|].
    apply is_digit_spec in Hc; unfold zero in Hc; lia. }
  unfold is_whitespace.
  repeat match goal with
    | |- context [c =? ?k] => destruct (N.eqb_spec c k); [lia|]
    end.
  reflexivity.
Qed.

(** The tests of the decoder on the punctuation that was written. *)
Ltac punctuation :=
  repeat first
    [ progress change (skip_whitespace (colon :: ?s)) with (colon :: s)
    | progress change (skip_whitespace (comma :: ?s)) with (comma :: s)
    | progress change (skip_whitespace (rbrace :: ?s)) with (rbrace :: s)
    | progress change (skip_whitespace (dquote :: ?s)) with (dquote :: s)
    | progress change (skip_whitespace (space :: dquote :: ?s)) with (dquote :: s)
    | progress change (colon =? colon) with true
    | progress change (comma =? comma) with true
    | progress change (comma =? rbrace) with false
    | progress change (rbrace =? rbrace) with true
    | progress change (dquote =? dquote) with true
    | progress change (dquote =? rbrace) with false
    | progress change (lbrace =? dquote) with false
    | progress change (lbrace =? lbrace) with true
    | progress cbv iota ].

(** The members of an allocation, read by the loop of [JSONObject]. *)
Lemma object_pairs_members members : forall fuel left pairs rest,
  writable lim members ->
  members <> [] -> (length members < fuel)%nat ->
  object_pairs fuel left pairs (dumps_members members rest)
  = Found (VDict (dict_of_pairs
                    (pairs ++ map (fun kz => (fst kz, VInt (snd kz))) members)))
          rest.
Proof.
  induction members as [|[k z] members IH]; intros fuel left pairs rest Hw Hne Hlen;
    [congruence|].
  inversion Hw as [|? ? Hz Hw']; subst. cbn [snd] in Hz.
  destruct fuel as [|fuel]; cbn [length] in Hlen; [lia|].
  cbn [dumps_members Json.object_pairs].
  rewrite scanstring_escape.
  change (skip_whitespace (colon :: ?s)) with (colon :: s). cbv iota.
  change (colon =? colon) with true. cbv iota.
  rewrite str_int_not_whitespace.
  destruct fuel as [|fuel']; [lia|].
  destruct members as [|kz members].
  - rewrite scan_once_str_int by (auto; cbn; repeat split; discriminate).
    change (skip_whitespace (rbrace :: rest)) with (rbrace :: rest). cbv iota.
    change (rbrace =? rbrace) with true. cbv iota. reflexivity.
  - rewrite scan_once_str_int by (auto; cbn; repeat split; discriminate).
    change (skip_whitespace (comma :: ?s)) with (comma :: s). cbv iota.
    change (comma =? rbrace) with false. change (comma =? comma) with true.
    cbv iota.
    change (skip_whitespace (space :: dquote :: ?s)) with (dquote :: s). cbv iota.
    change (dquote =? dquote) with true. cbv iota.
    rewrite IH; [|assumption|discriminate|cbn [length] in *; lia].
    cbn [map fst snd]. now rewrite <- app_assoc.
Qed.

(** An allocation, read by [scan_once] with a level of recursion left. *)
Lemma scan_once_allocation members fuel left rest :
  writable lim members ->
  (length members + 1 < fuel)%nat ->
  scan_once fuel (S left) (dumps_allocation members rest)
  = Found (VDict (dict_of_pairs (map (fun kz => (fst kz, VInt (snd kz))) members)))
          rest.
Proof.
  intros Hw Hlen. destruct fuel as [|fuel]; [lia|].
  destruct members as [|kz members]; cbn [dumps_allocation Json.scan_once].
  - change (lbrace =? dquote) with false. change (lbrace =? lbrace) with true.
    cbn iota. reflexivity.
  - change (lbrace =? dquote) with false. change (lbrace =? lbrace) with true.
    cbn iota.
    change (skip_whitespace (dquote :: ?s)) with (dquote :: s). cbn iota.
    change (dquote =? rbrace) with false. change (dquote =? dquote) with true.
    cbn iota.
    rewrite object_pairs_members;
      [reflexivity|assumption|discriminate|cbn [length] in *; lia].
Qed.

Lemma pystr_eqb_eq a b : pystr_eqb a b = true <-> a = b.
Proof.
  revert b; induction a as [|x a IH]; intros [|y b]; cbn; split;
    try discriminate; auto.
  - intros H; apply andb_prop in H as [Hx H].
    apply N.eqb_eq in Hx; apply IH in H; congruence.
  - intros [= -> ->]. rewrite N.eqb_refl. now apply IH.
Qed.

Lemma dict_set_fresh {V} (d : list (pystr * V)) k v :
  ~ In k (map fst d) -> dict_set d k v = d ++ [(k, v)].
Proof.
  induction d as [|[k' v'] d IH]; cbn; intros Hn; auto.
  destruct (pystr_eqb k k') eqn:E.
  - apply pystr_eqb_eq in E; subst; tauto.
  - rewrite IH; tauto.
Qed.

(** A list of pairs with distinct keys is its own dictionary. *)
Lemma dict_of_pairs_nodup {V} (l : list (pystr * V)) :
  NoDup (map fst l) -> dict_of_pairs l = l.
Proof.
  unfold dict_of_pairs.
  cut (forall d, NoDup (map fst (d ++ l)) ->
         fold_left (fun d kv => dict_set d (fst kv) (snd kv)) l d = d ++ l).
  { intros H; apply (H []). }
  induction l as [|[k v] l IH]; intros d Hnd; cbn [fold_left fst snd].
  - now rewrite app_nil_r.
  - rewrite map_app in Hnd; cbn [map fst] in Hnd.
    apply NoDup_remove in Hnd as Hr. destruct Hr as [_ Hk].
    rewrite dict_set_fresh.
    + rewrite IH; [now rewrite <- app_assoc|].
      rewrite <- app_assoc. cbn [app]. now rewrite map_app.
    + intros Hin; apply Hk, in_or_app; now left.
Qed.

Lemma dumps_members_length members rest :
  (length members <= length (dumps_members members rest))%nat.
Proof.
  induction members as [|[k z] members IH]; cbn [dumps_members length]; [lia|].
  rewrite length_app; cbn [length]. rewrite length_app.
  destruct members as [|kz members]; cbn [length] in *; lia.
Qed.

Lemma dumps_members_snoc members rest x :
  dumps_members members (rest ++ [x]) = dumps_members members rest ++ [x].
Proof.
  induction members as [|[k z] members IH]; cbn [dumps_members]; auto.
  rewrite <- !app_assoc. f_equal. cbn [app]. do 3 f_equal.
  rewrite <- app_assoc. f_equal.
  destruct members as [|kz members]; [reflexivity|].
  cbn [app]. now rewrite IH.
Qed.

(** The text of a result opens and closes with a brace. *)
Lemma dumps_result_braces members explanation :
  exists inner, dumps_result members explanation = lbrace :: inner ++ [rbrace].
Proof.
  unfold dumps_result, dumps_allocation.
  set (tail := comma :: space :: dquote :: py "explanation" ++ dquote :: colon :: space
                 :: dquote :: escape explanation ++ [dquote]).
  assert (E : comma :: space :: dquote :: py "explanation" ++ dquote :: colon :: space
                :: dquote :: escape explanation ++ [dquote; rbrace]
              = tail ++ [rbrace]).
  { unfold tail. repeat (rewrite <- ?app_assoc; cbn [app]). reflexivity. }
  rewrite E.
  destruct members as [|kz members].
  - exists (dquote :: py "allocation" ++ dquote :: colon :: space
              :: lbrace :: rbrace :: tail).
    repeat (rewrite <- ?app_assoc; cbn [app]). reflexivity.
  - rewrite dumps_members_snoc.
    exists (dquote :: py "allocation" ++ dquote :: colon :: space
              :: lbrace :: dquote :: dumps_members (kz :: members) tail).
    repeat (rewrite <- ?app_assoc; cbn [app]). reflexivity.
Qed.

Lemma dumps_members_app members rest suffix :
  dumps_members members rest ++ suffix = dumps_members members (rest ++ suffix).
Proof.
  induction members as [|[k z] members IH]; cbn [dumps_members]; auto.
  rewrite <- !app_assoc. f_equal. cbn [app]. do 3 f_equal.
  rewrite <- app_assoc. f_equal.
  destruct members as [|kz members]; [reflexivity|].
  cbn [app]. now rewrite IH.
Qed.

Lemma dumps_result_app members explanation suffix :
  dumps_result members explanation ++ suffix
  = lbrace :: dquote :: py "allocation" ++ dquote :: colon :: space
      :: dumps_allocation members
           (comma :: space :: dquote :: py "explanation" ++ dquote :: colon :: space
              :: dquote :: escape explanation ++ dquote :: rbrace :: suffix).
Proof.
  unfold dumps_result, dumps_allocation.
  destruct members as [|kz members];
    repeat (rewrite <- ?app_assoc, ?dumps_members_app; cbn [app]); reflexivity.
Qed.

Lemma skip_whitespace_ends s c :
  is_whitespace c = false -> skip_whitespace (s ++ [c]) <> [].
Proof.
  intros Hc; induction s as [|x s IH]; cbn.
  - now rewrite Hc.
  - destruct (is_whitespace x); [exact IH|discriminate].
Qed.

(** The decoder reads a written result, with two levels of recursion
    left, and stops after its closing brace. *)
Lemma scan_once_dumps_result members explanation suffix fuel left :
  writable lim members ->
  (length members + 5 < fuel)%nat ->
  scan_once fuel (S (S left)) (dumps_result members explanation ++ suffix)
  = Found (VDict [ (py "allocation",
                    VDict (dict_of_pairs
                             (map (fun kz => (fst kz, VInt (snd kz))) members)));
                   (py "explanation", VStr explanation) ])
          suffix.
Proof.
  intros Hw Hf. rewrite dumps_result_app.
  destruct fuel as [|fuel]; [lia|].
  cbn [Json.scan_once]. punctuation.
  destruct fuel as [|fuel]; [lia|]. cbn [Json.object_pairs].
  change (py "allocation") with (escape (py "allocation")) at 1.
  rewrite scanstring_escape. punctuation.
  assert (Hws : forall rest,
             skip_whitespace (space :: dumps_allocation members rest)
             = dumps_allocation members rest).
  { intros rest; destruct members; reflexivity. }
  rewrite Hws, scan_once_allocation by (auto; lia). punctuation.
  destruct fuel as [|fuel]; [lia|]. cbn [Json.object_pairs].
  change (py "explanation") with (escape (py "explanation")) at 1.
  rewrite scanstring_escape. punctuation.
  destruct fuel as [|fuel]; [lia|]. cbn [Json.scan_once]. punctuation.
  rewrite scanstring_escape. punctuation.
  reflexivity.
Qed.

Lemma dumps_result_length members explanation suffix :
  (length members + 5 < fuel_for (dumps_result members explanation ++ suffix))%nat.
Proof.
  rewrite dumps_result_app.
  unfold fuel_for. cbn [length]. rewrite length_app. cbn [length].
  pose proof (dumps_members_length members
                (comma :: space :: dquote :: py "explanation" ++ dquote :: colon :: space
                   :: dquote :: escape explanation ++ dquote :: rbrace :: suffix)) as Hm.
  destruct members as [|kz members]; cbn [dumps_allocation length] in *; lia.
Qed.

(** The text of a result decodes to the result. *)
Lemma loads_dumps_result members explanation :
  (2 <= recursion_left lim)%nat ->
  writable lim members ->
  NoDup (map fst members) ->
  loads (dumps_result members explanation) = inr (VDict (result_dict members explanation)).
Proof.
  intros Hleft Hw Hnd.
  destruct (recursion_left lim) as [|[|left]] eqn:El; try lia.
  pose proof (scan_once_dumps_result members explanation [] _ left Hw
                (dumps_result_length members explanation [])) as Hscan.
  rewrite app_nil_r in Hscan.
  unfold Json.loads, Json.decode, Json.raw_decode. rewrite El.
  change (match dumps_result members explanation with
          | [] => false
          | c :: _ => c =? BOM
          end) with false. cbv iota.
  change (skip_whitespace (dumps_result members explanation))
    with (dumps_result members explanation).
  rewrite Hscan. cbn [skip_whitespace].
  rewrite (dict_of_pairs_nodup (map _ members)) by now rewrite map_map.
  reflexivity.
Qed.

(** A written result with more text after it, up to a closing brace, does
    not decode: the decoder finds extra data. *)
Lemma loads_dumps_result_extra members explanation extra :
  (2 <= recursion_left lim)%nat ->
  writable lim members ->
  loads (dumps_result members explanation ++ extra ++ [rbrace]) = inl JSONDecodeError.
Proof.
  intros Hleft Hw.
  destruct (recursion_left lim) as [|[|left]] eqn:El; try lia.
  pose proof (scan_once_dumps_result members explanation (extra ++ [rbrace]) _ left Hw
                (dumps_result_length members explanation (extra ++ [rbrace]))) as Hscan.
  unfold Json.loads, Json.decode, Json.raw_decode. rewrite El.
  change (match dumps_result members explanation ++ extra ++ [rbrace] with
          | [] => false
          | c :: _ => c =? BOM
          end) with false. cbv iota.
  change (skip_whitespace (dumps_result members explanation ++ extra ++ [rbrace]))
    with (dumps_result members explanation ++ extra ++ [rbrace]).
  rewrite Hscan.
  destruct (skip_whitespace (extra ++ [rbrace])) eqn:E; [|reflexivity].
  now apply skip_whitespace_ends in E.
Qed.

(** The text of a result is a JSON object with the two fields. *)
Lemma dumps_result_object members explanation :
  (2 <= recursion_left lim)%nat ->
  writable lim members ->
  NoDup (map fst members) ->
  json_object_text lim (dumps_result members explanation) (result_dict members explanation).
Proof.
  intros Hleft Hw Hnd; split; [apply dumps_result_braces|now apply loads_dumps_result].
Qed.
End RoundTrip.

(** ** The extractor *)

Section Extractor.
Variable todecimal : N -> option N.
Variable lim : limits.

#[local] Abbreviation extract := (extract_json_from_text todecimal lim).
#[local] Abbreviation names := (keys MARKET_TRENDS).

(** The extractor is the first step, and the fallback when that yields
    nothing; what the first step raises, the extractor raises. *)
Lemma extract_steps text :
  extract text
  = match direct_json lim text with
    | inr (Some v) => inr v
    | inr None => fallback todecimal lim text
    | inl e => inl e
    end.
Proof.
  unfold extract_json_from_text, direct_json.
  rewrite <- (search_json_pattern todecimal text).
  destruct (Re.search todecimal false json_pattern text) as [m|]; cbn [option_map];
    [|reflexivity].
  destruct (Json.loads lim (Re.group m 0)) as [[]|v]; reflexivity.
Qed.

(** [int()] on digits that are not too many. *)
Lemma int_accepted digits :
  too_many_digits lim (length digits) = false ->
  int todecimal lim digits = inr (int_value todecimal digits).
Proof. intros H; unfold int; now rewrite H. Qed.

Lemma int_refused digits :
  too_many_digits lim (length digits) = true ->
  int todecimal lim digits = inl (ValueError (length digits)).
Proof. intros H; unfold int; now rewrite H. Qed.

(** The loop returns when [int()] accepts every first percentage: what it
    returns are the matched percentages. *)
Lemma allocation_loop_matched text :
  percentages_accepted todecimal lim text ->
  allocation_loop todecimal lim names text [] = inr (matched_percentages todecimal text).
Proof.
  intros Hacc.
  assert (Hint : forall asset m,
             In asset names ->
             Re.search todecimal true (pattern asset) text = Some m ->
             int todecimal lim (Re.group m 1)
             = inr (int_value todecimal (Re.group m 1))).
  { intros asset m Hin Hm. apply int_accepted, (Hacc asset); auto.
    now apply search_pattern_first. }
  unfold matched_percentages, asset_percentage, asset_digits.
  cbn [keys MARKET_TRENDS map fst flat_map allocation_loop].
  destruct (Re.search todecimal true (pattern (py "NIFTY 50")) text) as [m1|] eqn:E1;
    [rewrite (Hint (py "NIFTY 50") _ ltac:(cbn; auto 6) E1)|];
    (destruct (Re.search todecimal true (pattern (py "Gold")) text) as [m2|] eqn:E2;
     [rewrite (Hint (py "Gold") _ ltac:(cbn; auto 6) E2)|]);
    (destruct (Re.search todecimal true (pattern (py "Bonds")) text) as [m3|] eqn:E3;
     [rewrite (Hint (py "Bonds") _ ltac:(cbn; auto 6) E3)|]);
    (destruct (Re.search todecimal true (pattern (py "Mutual Funds")) text) as [m4|] eqn:E4;
     [rewrite (Hint (py "Mutual Funds") _ ltac:(cbn; auto 6) E4)|]);
    reflexivity.
Qed.

(** What the loop raises is the [ValueError] of [int()] on a first
    percentage with too many digits. *)
Lemma allocation_loop_raised assets text : forall allocation e,
  allocation_loop todecimal lim assets text allocation = inl e ->
  exists asset digits,
    In asset assets /\ first_percent_on_line todecimal asset text digits /\
    too_many_digits lim (length digits) = true /\ e = ValueError (length digits).
Proof.
  induction assets as [|asset assets IH]; intros allocation e; cbn [allocation_loop];
    [discriminate|].
  destruct (Re.search todecimal true (pattern asset) text) as [m|] eqn:E.
  - unfold int.
    destruct (too_many_digits lim (length (Re.group m 1))) eqn:Hd.
    + intros [= <-]. exists asset, (Re.group m 1); repeat split; auto.
      * now left.
      * now apply search_pattern_first.
    + intros H; destruct (IH _ _ H) as (a & ds & Hin & Hrest).
      exists a, ds; split; [now right|exact Hrest].
  - intros H; destruct (IH _ _ H) as (a & ds & Hin & Hrest).
    exists a, ds; split; [now right|exact Hrest].
Qed.

(** When the loop returns, [int()] has accepted every first
    percentage. *)
Lemma allocation_loop_returned assets text : forall allocation found,
  allocation_loop todecimal lim assets text allocation = inr found ->
  forall asset digits,
    In asset assets -> first_percent_on_line todecimal asset text digits ->
    too_many_digits lim (length digits) = false.
Proof.
  induction assets as [|asset assets IH]; intros allocation found H a ds Hin Hf;
    [contradiction|].
  cbn [allocation_loop] in H.
  destruct (Re.search todecimal true (pattern asset) text) as [m|] eqn:E.
  - unfold int in H.
    destruct (too_many_digits lim (length (Re.group m 1))) eqn:Hd; [discriminate|].
    destruct Hin as [<-|Hin]; [|eapply IH; eauto].
    apply search_pattern_first in E.
    now rewrite (first_percent_on_line_unique _ _ _ _ _ Hf E).
  - destruct Hin as [<-|Hin]; [|eapply IH; eauto].
    exfalso.
    destruct Hf as (pre & name & gap & post & Et & Hci & Hgap & Hne & Hd & _).
    destruct (search_pattern_complete todecimal asset text ds) as [m Hm];
      [exists pre, name, gap, post; auto|congruence].
Qed.

Lemma allocation_loop_found text found :
  allocation_loop todecimal lim names text [] = inr found ->
  percentages_accepted todecimal lim text /\ found = matched_percentages todecimal text.
Proof.
  intros H.
  assert (Hacc : percentages_accepted todecimal lim text).
  { intros asset digits. eapply allocation_loop_returned; eauto. }
  split; auto. rewrite (allocation_loop_matched _ Hacc) in H. congruence.
Qed.

Lemma fallback_matched text :
  percentages_accepted todecimal lim text ->
  matched_percentages todecimal text <> [] ->
  fallback todecimal lim text
  = inr (VDict [ (py "allocation", VDict (matched_percentages todecimal text));
                 (py "explanation", VStr text) ]).
Proof.
  intros Hacc. unfold fallback; rewrite allocation_loop_matched by assumption.
  destruct (matched_percentages todecimal text); congruence.
Qed.

Lemma in_matched_percentages text asset v :
  In (asset, v) (matched_percentages todecimal text) <->
  In asset names /\ exists n, asset_percentage todecimal asset text = Some n /\ v = VInt n.
Proof.
  unfold matched_percentages; rewrite in_flat_map; split.
  - intros (a & Ha & Hin).
    destruct (asset_percentage todecimal a text) as [n|] eqn:E; [|contradiction].
    destruct Hin as [[= <- <-]|[]]; eauto.
  - intros (Ha & n & E & ->). exists asset; split; auto.
    rewrite E; now left.
Qed.

(** Where no asset has a percentage, there is nothing for [int()] to
    refuse. *)
Lemma matched_nil_accepted text :
  matched_percentages todecimal text = [] -> percentages_accepted todecimal lim text.
Proof.
  intros E asset digits Hin Hf. exfalso.
  assert (Hc : In (asset, VInt (int_value todecimal digits))
                  (matched_percentages todecimal text)).
  { apply in_matched_percentages; split; auto.
    eexists; split; [|reflexivity]. apply asset_percentage_first; eauto. }
  rewrite E in Hc; contradiction.
Qed.

Lemma fallback_cash text :
  matched_percentages todecimal text = [] ->
  fallback todecimal lim text
  = inr (VDict [ (py "allocation", VDict [ (py "Cash", VInt 100) ]);
                 (py "explanation", VStr unable_to_parse) ]).
Proof.
  intros E. unfold fallback.
  rewrite allocation_loop_matched by now apply matched_nil_accepted.
  now rewrite E.
Qed.

(** What the fallback raises is an exception of the limits. *)
Lemma fallback_raised text e :
  fallback todecimal lim text = inl e -> limit_error lim e.
Proof.
  unfold fallback.
  destruct (allocation_loop todecimal lim names text []) as [e0|[|kv l]] eqn:E;
    try discriminate.
  intros [= <-].
  destruct (allocation_loop_raised _ _ _ _ E) as (a & ds & _ & _ & Hd & ->).
  left; eauto.
Qed.



Lemma int_value_nonneg s : (0 <= int_value todecimal s)%Z.
Proof.
  unfold int_value.
  cut (forall a, (0 <= a)%Z ->
         (0 <= fold_left
                 (fun acc c =>
                    (10 * acc + match todecimal c with Some d => Z.of_N d | None => 0 end)%Z)
                 s a)%Z).
  { intros H; apply H; lia. }
  induction s as [|c s IH]; cbn [fold_left]; intros a Ha; auto.
  apply IH. destruct (todecimal c); lia.
Qed.
End Extractor.

(** ** The round trip of an allocation result *)

(** The round trip of an allocation result: written as JSON and embedded in
    prose that has no opening brace before it and no closing brace after
    it, the result comes back from the extractor as it was.  The result is
    one that [json.dumps] writes and [json.loads] reads: its integers have
    no more digits than the limit, and the two levels of its objects fit
    the stack. *)
Theorem extract_dumps_result todecimal lim pre post members explanation :
  (2 <= recursion_left lim)%nat ->
  writable lim members ->
  NoDup (map fst members) ->
  ~ In lbrace pre -> ~ In rbrace post ->
  extract_json_from_text todecimal lim (pre ++ dumps_result members explanation ++ post)
  = inr (VDict (result_dict members explanation)).
Proof.
  intros Hleft Hw Hnd Hpre Hpost.
  destruct (dumps_result_object lim members explanation Hleft Hw Hnd) as [[inner E] Hloads].
  rewrite extract_steps. unfold direct_json.
  rewrite E, leftmost_to_rightmost_embedded by assumption.
  now rewrite <- E, Hloads.
Qed.

(** ** The extractor: the properties of the specification *)

Section ExtractorProperties.
Variable todecimal : N -> option N.
Variable lim : limits.


(** C3, as amended.  When the first step yields nothing (there is no text
    from a [{] through a [}], or [json.loads] raises a [JSONDecodeError] on
    it), some asset of the catalog is followed, case-insensitively and on
    the same line, by a run of decimal digits and a percent sign, and
    [int()] accepts the first such run of every asset, the extractor
    returns the mapping of the matched assets to their percentages, with
    the raw text as the explanation.  An asset of the catalog is in the
    mapping exactly when such a run follows its name on a line, and its
    percentage is what [int()] returns for the first such run. *)
Theorem regex_fallback text :
  direct_json lim text = inr None ->
  (exists asset digits,
      In asset (keys MARKET_TRENDS) /\
      percent_on_line_after todecimal asset text digits) ->
  percentages_accepted todecimal lim text ->
  extract_json_from_text todecimal lim text
  = inr (VDict [ (py "allocation", VDict (matched_percentages todecimal text));
                 (py "explanation", VStr text) ]) /\
  (forall asset v,
      In (asset, v) (matched_percentages todecimal text) <->
      In asset (keys MARKET_TRENDS) /\
      exists digits n,
        first_percent_on_line todecimal asset text digits /\
        int todecimal lim digits = inr n /\ v = VInt n) /\
  (forall asset,
      (exists digits, first_percent_on_line todecimal asset text digits) <->
      (exists digits, percent_on_line_after todecimal asset text digits)).
Proof.
  intros Hjson (asset0 & digits0 & Hin0 & Hp0) Hacc.
  assert (Hin : forall asset v,
             In (asset, v) (matched_percentages todecimal text) <->
             In asset (keys MARKET_TRENDS) /\
             exists digits n,
               first_percent_on_line todecimal asset text digits /\
               int todecimal lim digits = inr n /\ v = VInt n).
  { intros asset v. rewrite in_matched_percentages. split.
    - intros (Hk & n & E & ->). split; auto.
      apply asset_percentage_first in E as (digits & Hf & ->).
      exists digits, (int_value todecimal digits); repeat split; auto.
      apply int_accepted; eauto.
    - intros (Hk & digits & n & Hf & Hn & ->). split; auto.
      rewrite int_accepted in Hn by eauto. injection Hn as <-.
      exists (int_value todecimal digits); split; auto.
      apply asset_percentage_first; eauto. }
  assert (Hex : forall asset,
             (exists digits, first_percent_on_line todecimal asset text digits) <->
             (exists digits, percent_on_line_after todecimal asset text digits)).
  { intros asset; split.
    - intros (digits & pre & name & gap & post & E & Hci & Hgap & Hne & Hd & _).
      exists digits, pre, name, gap, post; auto.
    - intros (digits & Hp).
      destruct (search_pattern_complete _ _ _ _ Hp) as [m Hm].
      exists (Re.group m 1). now apply search_pattern_first. }
  split; [|split; [exact Hin|exact Hex]].
  rewrite extract_steps, Hjson. apply fallback_matched; auto.
  destruct (proj2 (Hex asset0)) as [digits Hf]; eauto.
  intros E.
  assert (In (asset0, VInt (int_value todecimal digits))
             (matched_percentages todecimal text)) as Hc.
  { apply Hin; split; auto. exists digits, (int_value todecimal digits).
    repeat split; auto. apply int_accepted; eauto. }
  rewrite E in Hc; contradiction.
Qed.

(** No opening brace, no JSON object. *)
Lemma no_lbrace_no_object text : ~ In lbrace text -> ~ contains_json_object lim text.
Proof.
  intros Hn (pre & j & post & d & -> & Hloads).
  apply Hn, in_or_app; right; apply in_or_app; left.
  eapply loads_dict_lbrace; eauto.
Qed.

(** C10.  When the extractor returns by the regex fallback (the first
    step yields nothing and the loop has returned some asset), every key
    of the allocation it returns is one of the (keys MARKET_TRENDS) of the
    catalog, as the catalog writes it, and every value is an integer that
    is not negative. *)
Theorem percentages_are_catalog_keys text found :
  direct_json lim text = inr None ->
  allocation_loop todecimal lim (keys MARKET_TRENDS) text [] = inr found ->
  found <> [] ->
  exists allocation,
    extract_json_from_text todecimal lim text
    = inr (VDict [ (py "allocation", VDict allocation); (py "explanation", VStr text) ]) /\
    Forall (fun kv => In (fst kv) (keys MARKET_TRENDS) /\ exists n, snd kv = VInt n /\ (0 <= n)%Z)
           allocation.
Proof.
  intros Hjson Hloop Hne.
  apply allocation_loop_found in Hloop as [Hacc ->].
  exists (matched_percentages todecimal text); split.
  - rewrite extract_steps, Hjson. now apply fallback_matched.
  - apply Forall_forall; intros [k v] Hin.
    apply in_matched_percentages in Hin as (Hk & n & E & ->).
    split; auto. exists n; split; auto.
    apply asset_percentage_first in E as (digits & _ & ->).
    apply int_value_nonneg.
Qed.
End ExtractorProperties.

(** ** The request handler: the properties of the specification *)

Section HandlerProperties.
Variable todecimal : N -> option N.
Variable lim : limits.
Variable float : Type.
Variable build_prompt : InvestmentRequest float -> pystr.
Variable str : exn -> pystr.
Variable getenv : pystr -> option pystr.
Variable service : world -> completion_request -> reply.
Variable Client : Type.
Variable AzureOpenAI : pystr -> pystr -> pystr -> option Client.

(** The body of the handler, by what the service answers. *)
Lemma body_cases request w :
  try_body todecimal lim float build_prompt getenv service request w
  = let sent := create_arguments float build_prompt getenv request in
    match service w sent with
    | Raises e => (inl e, called w sent)
    | Completion [] => (inl IndexError, called w sent)
    | Completion (None :: _) => (inl TypeError, called w sent)
    | Completion (Some text :: _) =>
        match extract_json_from_text todecimal lim text with
        | inl e => (inl e, called w sent)
        | inr (VDict d) =>
            new_InvestmentResponse
              (dict_get d (py "allocation") (VDict []))
              (dict_get d (py "explanation") (VStr []))
              (called w sent)
        | inr obj => (inl (AttributeError obj), called w sent)
        end
    end.
Proof.
  unfold try_body, bind, chat_completions_create. cbv zeta.
  destruct (service w (create_arguments float build_prompt getenv request))
    as [e|[|[text|] others]]; try reflexivity.
  cbn. destruct (extract_json_from_text todecimal lim text) as [e|[]]; reflexivity.
Qed.

(** The body of the handler calls the service once, whatever comes of it. *)
Lemma body_calls_once request w :
  snd (try_body todecimal lim float build_prompt getenv service request w)
  = called w (create_arguments float build_prompt getenv request).
Proof.
  rewrite body_cases; cbv zeta.
  destruct (service w (create_arguments float build_prompt getenv request))
    as [e|[|[text|] others]]; try reflexivity.
  destruct (extract_json_from_text todecimal lim text) as [e|[]]; try reflexivity.
  unfold new_InvestmentResponse.
  repeat match goal with
    | |- context [match ?x with _ => _ end] => destruct x
    end; reflexivity.
Qed.

(** C2, as amended.  The pattern of the first step finds the text from the
    leftmost [{] through the rightmost [}].  When that text decodes, to a
    dictionary [d], and [d.get('allocation', {})] is a dictionary and
    [d.get('explanation', '')] a string, the endpoint answers with these
    two; what the allocation holds is not looked at, neither the types of
    its values nor the range of its percentages. *)
Theorem direct_json_response c request w text others m d allocation explanation :
  service w (create_arguments float build_prompt getenv request)
  = Completion (Some text :: others) ->
  leftmost_to_rightmost text = Some m ->
  Json.loads lim m = inr (VDict d) ->
  dict_get d (py "allocation") (VDict []) = VDict allocation ->
  dict_get d (py "explanation") (VStr []) = VStr explanation ->
  option_map (fun mo => Re.group mo 0) (Re.search todecimal false json_pattern text)
  = Some m /\
  allocate_investment todecimal lim float build_prompt str getenv service Client
    (Some c) request w
  = (Respond {| allocation_percentage := allocation; recommendation := explanation |},
     called w (create_arguments float build_prompt getenv request)).
Proof.
  intros Hs Hspan Hloads Ha He; split.
  - now rewrite search_json_pattern.
  - unfold allocate_investment. rewrite body_cases; cbv zeta.
    rewrite Hs, extract_steps.
    unfold direct_json; rewrite Hspan, Hloads, Ha, He. reflexivity.
Qed.


(** C7.  When a credential is missing from the environment the client is
    never configured, and every call to the endpoint fails with the fixed
    error for the missing configuration and leaves the world as it was: no
    call reaches the completion service. *)
Theorem unconfigured_fails_without_call request w :
  falsy (getenv (py "AZURE_OPENAI_API_KEY")) = true \/
  falsy (getenv (py "AZURE_OPENAI_ENDPOINT")) = true \/
  falsy (getenv (py "AZURE_OPENAI_DEPLOYMENT")) = true ->
  client getenv Client AzureOpenAI = None /\
  allocate_investment todecimal lim float build_prompt str getenv service Client
    (client getenv Client AzureOpenAI) request w
  = (HTTPException 500 (py "Azure OpenAI client not initialized properly"), w).
Proof.
  intros H.
  assert (client getenv Client AzureOpenAI = None) as ->.
  { unfold client. destruct H as [-> | [-> | ->]]; cbn; auto.
    - now rewrite orb_true_r.
    - now rewrite !orb_true_r. }
  split; reflexivity.
Qed.

(** C8, as amended.  Without a client the handler fails the request at
    once, with status 500; and 500 is the status of every failure of the
    handler, with or without a client. *)
Theorem unavailable_client_status request w :
  (exists detail,
      allocate_investment todecimal lim float build_prompt str getenv service Client
        None request w
      = (HTTPException 500 detail, w)) /\
  (forall client status detail w',
      allocate_investment todecimal lim float build_prompt str getenv service Client
        client request w
      = (HTTPException status detail, w') ->
      status = 500%Z).
Proof.
  split; [eexists; reflexivity|].
  intros [c|] status detail w'; unfold allocate_investment.
  - destruct (try_body todecimal lim float build_prompt getenv service request w)
      as [[e|r] w0]; [|discriminate].
    now intros [= <- _ _].
  - now intros [= <- _ _].
Qed.

(** C9.  An exception that is raised in the body of the handler, by the
    completion call or by anything after it, comes back to the caller as an
    error of status 500 with the message of the exception.  The completion
    service is called once and not again. *)
Theorem exception_becomes_500 c request w :
  (forall e w',
      try_body todecimal lim float build_prompt getenv service request w = (inl e, w') ->
      allocate_investment todecimal lim float build_prompt str getenv service Client
        (Some c) request w
      = (HTTPException 500 (str e), w')) /\
  (forall e,
      service w (create_arguments float build_prompt getenv request) = Raises e ->
      allocate_investment todecimal lim float build_prompt str getenv service Client
        (Some c) request w
      = (HTTPException 500 (str e),
         called w (create_arguments float build_prompt getenv request))) /\
  snd (allocate_investment todecimal lim float build_prompt str getenv service Client
         (Some c) request w)
  = called w (create_arguments float build_prompt getenv request).
Proof.
  split; [|split].
  - intros e w' Hb. unfold allocate_investment; now rewrite Hb.
  - intros e Hs. unfold allocate_investment. rewrite body_cases; cbv zeta.
    now rewrite Hs.
  - pose proof (body_calls_once request w) as Hc.
    unfold allocate_investment.
    destruct (try_body todecimal lim float build_prompt getenv service request w)
      as [[e|r] w']; exact Hc.
Qed.
End HandlerProperties.

(** ** Concrete runs *)

Lemma not_in_by_existsb (c : N) (s : pystr) : existsb (N.eqb c) s = false -> ~ In c s.
Proof.
  intros H Hin. assert (existsb (N.eqb c) s = true); [|congruence].
  apply existsb_exists; exists c; split; auto. apply N.eqb_refl.
Qed.

Lemma Forall_by_forallb (P : N -> Prop) (f : N -> bool) (s : pystr) :
  (forall x, f x = true -> P x) -> forallb f s = true -> Forall P s.
Proof.
  intros HP H; apply Forall_forall; intros x Hx.
  apply HP. rewrite forallb_forall in H; auto.
Qed.

Lemma same_ignoring_case_by_forallb (asset name : pystr) :
  length asset = length name ->
  forallb (fun lx => Re.literal_ignore (fst lx) (snd lx)) (combine asset name) = true ->
  same_ignoring_case asset name.
Proof.
  revert name; induction asset as [|l asset IH]; intros [|x name]; cbn; try discriminate.
  - constructor.
  - intros [= Hlen] H; apply andb_prop in H as [Hx H]. constructor; auto.
    now apply IH.
Qed.

Lemma percent_after_intro todecimal (gap_ok : N -> Prop) (ok : N -> bool)
      asset text digits pre name gap post :
  (forall x, ok x = true -> gap_ok x) ->
  pystr_eqb text (pre ++ name ++ gap ++ digits ++ percent :: post) = true ->
  length asset = length name ->
  forallb (fun lx => Re.literal_ignore (fst lx) (snd lx)) (combine asset name) = true ->
  forallb ok gap = true ->
  negb (pystr_eqb digits []) = true ->
  forallb (is_decimal todecimal) digits = true ->
  percent_after todecimal gap_ok asset text digits.
Proof.
  intros Hok Htext Hlen Hci Hgap Hne Hdigits.
  exists pre, name, gap, post; repeat split.
  - revert Htext. generalize (pre ++ name ++ gap ++ digits ++ percent :: post).
    induction text as [|x text IH]; intros [|y l]; cbn; try discriminate; auto.
    intros H; apply andb_prop in H as [Hx H]. apply N.eqb_eq in Hx. f_equal; auto.
  - now apply same_ignoring_case_by_forallb.
  - eapply Forall_by_forallb; eauto.
  - intros ->; discriminate.
  - eapply Forall_by_forallb; eauto.
Qed.

(** A text of at most 640 characters has no percentage that [int()]
    refuses. *)
Lemma first_percent_length todecimal asset text digits :
  first_percent_on_line todecimal asset text digits -> (length digits <= length text)%nat.
Proof.
  intros (pre & name & gap & post & -> & _).
  rewrite !length_app. lia.
Qed.

Lemma too_many_digits_le lim n m :
  (n <= m)%nat -> too_many_digits lim m = false -> too_many_digits lim n = false.
Proof.
  unfold too_many_digits; intros Hle H.
  rewrite !andb_false_iff, !Nat.ltb_ge in *. lia.
Qed.

Lemma short_text_accepted todecimal lim text :
  too_many_digits lim (length text) = false ->
  percentages_accepted todecimal lim text.
Proof.
  intros H asset digits _ Hf.
  eapply too_many_digits_le; [|exact H].
  eapply first_percent_length; eauto.
Qed.



(** Braces that hold no JSON, then two percentages: 8 for Gold and 20 for
    Bonds, with the text as the explanation. *)
Lemma regex_fallback_witness :
  extract_json_from_text unicode_todecimal stub_limits reply_percentages
  = inr (VDict [ (py "allocation", VDict [ (py "Gold", VInt 8); (py "Bonds", VInt 20) ]);
                 (py "explanation", VStr reply_percentages) ]).
Proof.
  destruct (regex_fallback unicode_todecimal stub_limits reply_percentages) as (H & _ & _).
  - vm_compute; reflexivity.
  - exists (py "Gold"), (py "8"); split; [vm_compute; auto|].
    apply percent_after_intro
      with (ok := fun c => negb (c =? newline))
           (pre := py "{not json} ") (name := py "Gold") (gap := py " about ")
           (post := py " and Bonds near 20%");
      try (vm_compute; reflexivity).
    intros x Hx ->; discriminate.
  - apply short_text_accepted; vm_compute; reflexivity.
  - rewrite H; vm_compute; reflexivity.
Defined.

(** C3 as stated fails where a line feed stands between the asset name and
    its percentage: the text has no brace, "Gold" is followed by characters
    and then by the digits "8" and a percent sign, and the extractor returns
    the allocation for Cash with the fixed explanation, not 8 for Gold with
    the text. *)
Lemma regex_fallback_counterexample :
  direct_json stub_limits (py "Gold" ++ [newline] ++ py "8%") = inr None /\
  percent_anywhere_after unicode_todecimal (py "Gold")
    (py "Gold" ++ [newline] ++ py "8%") (py "8") /\
  extract_json_from_text unicode_todecimal stub_limits (py "Gold" ++ [newline] ++ py "8%")
  = inr (VDict [ (py "allocation", VDict [ (py "Cash", VInt 100) ]);
                 (py "explanation", VStr unable_to_parse) ]) /\
  extract_json_from_text unicode_todecimal stub_limits (py "Gold" ++ [newline] ++ py "8%")
  <> inr (VDict [ (py "allocation", VDict [ (py "Gold", VInt 8) ]);
                  (py "explanation", VStr (py "Gold" ++ [newline] ++ py "8%")) ]).
Proof.
  split; [vm_compute; reflexivity|split; [|split]].
  - apply percent_after_intro
      with (ok := fun _ => true)
           (pre := []) (name := py "Gold") (gap := [newline]) (post := []);
      try (vm_compute; reflexivity); auto.
  - vm_compute; reflexivity.
  - vm_compute; discriminate.
Qed.

(** Names in lower and in upper case come back as the catalog writes
    them. *)
Lemma percentages_are_catalog_keys_witness :
  exists allocation,
    extract_json_from_text unicode_todecimal stub_limits reply_other_case
    = inr (VDict [ (py "allocation", VDict allocation);
                   (py "explanation", VStr reply_other_case) ]) /\
    Forall (fun kv => In (fst kv) (keys MARKET_TRENDS) /\
                      exists n, snd kv = VInt n /\ (0 <= n)%Z) allocation.
Proof.
  apply (percentages_are_catalog_keys unicode_todecimal stub_limits reply_other_case
           [ (py "Gold", VInt 8); (py "Bonds", VInt 20) ]).
  - vm_compute; reflexivity.
  - vm_compute; reflexivity.
  - discriminate.
Defined.

(** The end-to-end example of the specification: the stubbed client
    answers with an object, the endpoint answers with its two fields. *)
Lemma direct_json_response_witness :
  stub_endpoint reply_balanced
  = Respond {| allocation_percentage := [ (py "NIFTY 50", VInt 40); (py "Bonds", VInt 60) ];
               recommendation := py "balanced" |}.
Proof.
  unfold stub_endpoint.
  destruct (direct_json_response unicode_todecimal stub_limits Z stub_prompt stub_str
              stub_getenv (stub_service reply_balanced) unit tt stub_request
              {| calls := [] |}
              reply_balanced [] reply_balanced
              [ (py "allocation", VDict [ (py "NIFTY 50", VInt 40); (py "Bonds", VInt 60) ]);
                (py "explanation", VStr (py "balanced")) ]
              [ (py "NIFTY 50", VInt 40); (py "Bonds", VInt 60) ]
              (py "balanced")) as [_ H];
    [vm_compute; reflexivity .. | ].
  rewrite H; reflexivity.
Defined.

(** C2 as stated fails where the [allocation] of the object is no mapping:
    the text decodes, and the endpoint answers with an error, not with the
    fields of the object. *)
Lemma direct_json_response_counterexample :
  direct_json stub_limits (pyq "{'allocation': 150}")
  = inr (Some (VDict [ (py "allocation", VInt 150) ])) /\
  stub_endpoint (pyq "{'allocation': 150}")
  = HTTPException 500 (stub_str (ValidationError (VInt 150) (VStr []))) /\
  forall r, stub_endpoint (pyq "{'allocation': 150}") <> Respond r.
Proof.
  split; [vm_compute; reflexivity|split; [vm_compute; reflexivity|]].
  intros r; vm_compute; discriminate.
Qed.



(** Without any credential the endpoint fails and the log of calls stays
    empty. *)
Lemma unconfigured_fails_without_call_witness :
  allocate_investment unicode_todecimal stub_limits Z stub_prompt stub_str empty_getenv
    (stub_service reply_balanced) unit
    (client empty_getenv unit (fun _ _ _ => Some tt)) stub_request {| calls := [] |}
  = (HTTPException 500 (py "Azure OpenAI client not initialized properly"),
     {| calls := [] |}).
Proof.
  apply (unconfigured_fails_without_call unicode_todecimal stub_limits Z stub_prompt
           stub_str empty_getenv (stub_service reply_balanced) unit (fun _ _ _ => Some tt)
           stub_request {| calls := [] |}).
  left; reflexivity.
Defined.

(** C8 as stated fails: without a client the status is 500, not 503. *)
Lemma unavailable_client_counterexample :
  exists status detail,
    fst (allocate_investment unicode_todecimal stub_limits Z stub_prompt stub_str
           stub_getenv (stub_service reply_balanced) unit None stub_request
           {| calls := [] |})
    = HTTPException status detail /\ status <> 503%Z.
Proof. do 2 eexists; split; [reflexivity|discriminate]. Qed.

(** ** The span of the first step, once more *)

Lemma from_leftmost_first c s t :
  from_leftmost c s = Some t -> exists pre, s = pre ++ t /\ ~ In c pre.
Proof.
  induction s as [|x s IH]; cbn; [discriminate|].
  destruct (N.eqb_spec x c) as [->|Hx].
  - intros [= <-]. exists []; split; auto.
  - intros H. destruct (IH H) as (pre & -> & Hn). exists (x :: pre); split; auto.
    cbn; intros [E|E]; auto.
Qed.

Lemma from_leftmost_app c pre s :
  exists a, from_leftmost c (pre ++ c :: s) = Some (c :: a ++ s).
Proof.
  induction pre as [|x pre [a IH]]; cbn.
  - rewrite N.eqb_refl. now exists [].
  - destruct (N.eqb_spec x c) as [->|Hx].
    + exists (pre ++ [c]). now rewrite <- app_assoc.
    + now exists a.
Qed.

Lemma upto_rightmost_split c s t :
  upto_rightmost c s = Some t ->
  exists t' post, t = t' ++ [c] /\ s = t ++ post /\ ~ In c post.
Proof.
  revert t; induction s as [|x s IH]; cbn; [discriminate|]. intros t.
  destruct (upto_rightmost c s) as [u|] eqn:E.
  - intros [= <-]. destruct (IH u eq_refl) as (t' & post & -> & -> & Hn).
    exists (x :: t'), post; repeat split; auto.
  - destruct (N.eqb_spec x c) as [->|]; [|discriminate].
    intros [= <-]. exists [], s; repeat split; auto.
    now apply upto_rightmost_none.
Qed.

Lemma leftmost_to_rightmost_some text m :
  leftmost_to_rightmost text = Some m ->
  exists pre inner post,
    text = pre ++ lbrace :: inner ++ rbrace :: post /\
    ~ In lbrace pre /\ ~ In rbrace post /\ m = lbrace :: inner ++ [rbrace].
Proof.
  unfold leftmost_to_rightmost.
  destruct (from_leftmost lbrace text) as [[|b s]|] eqn:E; try discriminate.
  destruct (from_leftmost_head _ _ _ E) as [s' [= -> <-]].
  destruct (from_leftmost_first _ _ _ E) as (pre & -> & Hpre).
  destruct (upto_rightmost rbrace s) as [t|] eqn:E'; [|discriminate].
  intros [= <-].
  destruct (upto_rightmost_split _ _ _ E') as (inner & post & -> & -> & Hpost).
  exists pre, inner, post; repeat split; auto.
  now rewrite <- app_assoc.
Qed.

Lemma leftmost_to_rightmost_none text :
  leftmost_to_rightmost text = None <->
  forall pre inner post, text <> pre ++ lbrace :: inner ++ rbrace :: post.
Proof.
  split.
  - intros H pre inner post ->. revert H. unfold leftmost_to_rightmost.
    destruct (from_leftmost_app lbrace pre (inner ++ rbrace :: post)) as [a ->].
    destruct (upto_rightmost rbrace (a ++ inner ++ rbrace :: post)) eqn:E;
      [discriminate|].
    apply upto_rightmost_none in E. exfalso; apply E.
    apply in_or_app; right; apply in_or_app; right; now left.
  - intros H. destruct (leftmost_to_rightmost text) as [m|] eqn:E; auto.
    destruct (leftmost_to_rightmost_some _ _ E) as (pre & inner & post & Ht & _).
    now apply H in Ht.
Qed.

(** The pattern of the first step (lines 60 and 61) finds a match exactly
    in a text that has an opening brace with a closing brace somewhere after
    it, and the match is the text from the first opening brace through the
    last closing brace. *)
Theorem json_pattern_span todecimal text :
  (forall m,
      Re.search todecimal false json_pattern text = Some m ->
      exists pre inner post,
        text = pre ++ lbrace :: inner ++ rbrace :: post /\
        ~ In lbrace pre /\ ~ In rbrace post /\
        Re.group m 0 = lbrace :: inner ++ [rbrace]) /\
  (Re.search todecimal false json_pattern text = None <->
   forall pre inner post, text <> pre ++ lbrace :: inner ++ rbrace :: post).
Proof.
  pose proof (search_json_pattern todecimal text) as H.
  split.
  - intros m Hm. rewrite Hm in H; cbn [option_map] in H.
    symmetry in H. now apply leftmost_to_rightmost_some.
  - rewrite <- leftmost_to_rightmost_none, <- H.
    destruct (Re.search todecimal false json_pattern text); cbn; split;
      congruence.
Qed.

(** ** A written result with text after it *)

Lemma in_split_last (c : N) (s : pystr) :
  In c s -> exists a b, s = a ++ c :: b /\ ~ In c b.
Proof.
  induction s as [|x s IH]; [contradiction|].
  destruct (in_dec N.eq_dec c s) as [Hin|Hn].
  - intros _. destruct (IH Hin) as (a & b & -> & Hb). now exists (x :: a), b.
  - intros [->|Hin]; [|contradiction]. now exists [], s.
Qed.

(** The round trip of a written result ends where the reply goes on with a
    closing brace (a second object, a code sample): the text from the first
    opening brace through the last closing brace is then more than the
    object, [json.loads] raises a [JSONDecodeError] on it, and the extractor
    returns what the fallback makes of the whole reply.  The result is one
    that [json.loads] reads: its integers have no more digits than the
    limit, and the two levels of its objects fit the stack. *)
Theorem trailing_brace_defeats_json todecimal lim pre post members explanation :
  (2 <= recursion_left lim)%nat ->
  writable lim members ->
  ~ In lbrace pre -> In rbrace post ->
  direct_json lim (pre ++ dumps_result members explanation ++ post) = inr None /\
  extract_json_from_text todecimal lim (pre ++ dumps_result members explanation ++ post)
  = fallback todecimal lim (pre ++ dumps_result members explanation ++ post).
Proof.
  intros Hleft Hw Hpre Hpost.
  assert (Hj : direct_json lim (pre ++ dumps_result members explanation ++ post)
               = inr None).
  { destruct (in_split_last _ _ Hpost) as (extra & post' & -> & Hpost').
    destruct (dumps_result_braces members explanation) as [inner E].
    unfold direct_json.
    replace (pre ++ dumps_result members explanation ++ extra ++ rbrace :: post')
      with (pre ++ (lbrace :: (inner ++ rbrace :: extra) ++ [rbrace]) ++ post').
    2:{ rewrite E. cbn [app]. repeat (rewrite <- ?app_assoc; cbn [app]). reflexivity. }
    rewrite leftmost_to_rightmost_embedded by assumption.
    replace (lbrace :: (inner ++ rbrace :: extra) ++ [rbrace])
      with (dumps_result members explanation ++ extra ++ [rbrace]).
    2:{ rewrite E. cbn [app]. repeat (rewrite <- ?app_assoc; cbn [app]). reflexivity. }
    now rewrite loads_dumps_result_extra. }
  split; auto. now rewrite extract_steps, Hj.
Qed.

(** ** The percentage that the second step reads *)

Lemma starts_with_name_intro asset name rest :
  same_ignoring_case asset name -> starts_with_name asset (name ++ rest) = true.
Proof.
  induction 1 as [|l x asset name Hx _ IH]; cbn; auto.
  now rewrite Hx.
Qed.

Lemma name_not_before_spec asset pre rest :
  name_not_before asset pre rest = true ->
  forall a b, pre = a ++ b -> b <> [] -> starts_with_name asset (b ++ rest) = false.
Proof.
  induction pre as [|x pre IH]; cbn [name_not_before]; intros H a b E Hb.
  - destruct a, b; try discriminate; congruence.
  - apply andb_prop in H as [H1 H2]. apply negb_true_iff in H1.
    destruct a as [|y a]; cbn [app] in E.
    + subst b. exact H1.
    + injection E as _ E. eapply IH; eauto.
Qed.

Section PercentRule.
Variable todecimal : N -> option N.
Variable lim : limits.

(** A sufficient condition for the first percentage of an asset: the name
    at its first occurrence, then characters of the line without a percent
    sign and not ending in a digit, then the digits and the percent
    sign. *)
Lemma first_percent_intro asset pre name gap digits post :
  is_decimal todecimal percent = false ->
  same_ignoring_case asset name ->
  name_not_before asset pre (name ++ gap ++ digits ++ percent :: post) = true ->
  Forall (fun c => c <> newline /\ c <> percent) gap ->
  (forall g c, gap = g ++ [c] -> is_decimal todecimal c = false) ->
  digits <> [] -> Forall (fun c => is_decimal todecimal c = true) digits ->
  first_percent_on_line todecimal asset
    (pre ++ name ++ gap ++ digits ++ percent :: post) digits.
Proof.
  intros Hpc Hci Hfirst Hgap Hlast Hne Hd.
  exists pre, name, gap, post; repeat split; auto.
  { eapply Forall_impl; [|exact Hgap]; cbn; tauto. }
  intros pre' name' gap' digits' post' E Hci' Hgap' Hne' Hd'.
  destruct (lt_eq_lt_dec (length pre) (length pre')) as [[Hlt|Heq]|Hgt]; auto.
  2:{ exfalso.
      destruct (app_shorter _ _ _ _ E Hgt) as (c & Hc & Epre & E').
      pose proof (name_not_before_spec _ _ _ Hfirst pre' c Epre Hc) as Hno.
      rewrite <- E', starts_with_name_intro in Hno by assumption. discriminate. }
  right; split; auto.
  destruct (app_same_length _ _ _ _ E Heq) as [_ E1].
  assert (Hname : length name = length name').
  { rewrite (same_ignoring_case_length _ _ Hci).
    now rewrite (same_ignoring_case_length _ _ Hci'). }
  destruct (app_same_length _ _ _ _ E1 Hname) as [_ E2].
  destruct (lt_eq_lt_dec (length gap) (length gap')) as [[Hlt|Heq']|Hgt]; auto.
  - right; split; auto.
    destruct (app_same_length _ _ _ _ E2 Heq') as [_ E3].
    destruct (le_lt_dec (length digits') (length digits)) as [|Hlong]; auto.
    exfalso. symmetry in E3.
    destruct (app_shorter _ _ _ _ E3 Hlong) as (c & Hc & -> & E4).
    destruct c as [|x c]; [congruence|]. injection E4 as <- _.
    apply Forall_app in Hd' as [_ Hd']. inversion Hd'; congruence.
  - exfalso.
    destruct (app_shorter _ _ _ _ E2 Hgt) as (c & Hc & -> & E3).
    apply Forall_app in Hgap as [_ Hc'].
    destruct (le_lt_dec (length c) (length digits')) as [Hle|Hshort].
    + (* the digits cover the end of the gap *)
      destruct (exists_last Hc) as (c0 & z & ->).
      assert (Hz : is_decimal todecimal z = true).
      { destruct (Nat.eq_dec (length (c0 ++ [z])) (length digits')) as [Hsame|Hless].
        - symmetry in E3.
          destruct (app_same_length _ _ _ _ E3 Hsame) as [<- _].
          apply Forall_app in Hd' as [_ Hz]. now inversion Hz.
        - destruct (app_shorter _ _ _ _ E3) as (d & _ & -> & _); [lia|].
          apply Forall_app in Hd' as [Hz _].
          apply Forall_app in Hz as [_ Hz]. now inversion Hz. }
      rewrite (Hlast (gap' ++ c0) z) in Hz; [discriminate|].
      now rewrite <- app_assoc.
    + (* the percent sign of the other reading lies in the gap *)
      symmetry in E3.
      destruct (app_shorter _ _ _ _ E3 Hshort) as (d & Hd0 & -> & E4).
      destruct d as [|x d]; [congruence|]. injection E4 as <- _.
      apply Forall_app in Hc' as [_ Hc']. inversion Hc' as [|? ? [_ Hx] _]; congruence.
Qed.

Lemma ascii_is_decimal c :
  ascii_decimal todecimal -> c < 128 ->
  is_decimal todecimal c = Json.is_digit c.
Proof.
  intros Ha Hc. unfold is_decimal. rewrite (Ha c Hc).
  now destruct (Json.is_digit c).
Qed.

Lemma digit_is_decimal c :
  ascii_decimal todecimal -> Json.is_digit c = true -> is_decimal todecimal c = true.
Proof.
  intros Ha Hc. rewrite ascii_is_decimal; auto.
  apply is_digit_spec in Hc. unfold nine in Hc. lia.
Qed.

(** [int()] on ASCII digits. *)
Lemma int_ascii ds :
  ascii_decimal todecimal -> Forall (fun c => Json.is_digit c = true) ds ->
  int_value todecimal ds = Json.digits_value ds.
Proof.
  intros Ha Hds. unfold int_value, Json.digits_value.
  cut (forall acc,
         fold_left
           (fun acc c =>
              (10 * acc + match todecimal c with Some d => Z.of_N d | None => 0 end)%Z)
           ds acc
         = fold_left (fun acc c => (10 * acc + Z.of_N (c - zero))%Z) ds acc).
  { intros H; apply H. }
  induction Hds as [|c ds Hc _ IH]; intros acc; cbn [fold_left]; auto.
  rewrite IH. do 2 f_equal.
  rewrite (Ha c), Hc; auto.
  apply is_digit_spec in Hc. unfold nine in Hc. lia.
Qed.

Lemma int_decimal n :
  ascii_decimal todecimal -> int_value todecimal (decimal n) = Z.of_N n.
Proof.
  intros Ha. destruct (decimal_spec n) as (Hds & Hv & _).
  now rewrite int_ascii.
Qed.

Lemma decimal_digits n :
  ascii_decimal todecimal ->
  decimal n <> [] /\ Forall (fun c => is_decimal todecimal c = true) (decimal n).
Proof.
  intros Ha. destruct (decimal_cons n) as (c & ds & E & _).
  split; [rewrite E; discriminate|].
  destruct (decimal_spec n) as (Hds & _).
  eapply Forall_impl; [|exact Hds]. intros x; now apply digit_is_decimal.
Qed.

(** An asset of the catalog that has a percentage is in the allocation
    that the fallback returns, with the text as the explanation, when
    [int()] accepts the percentages of the text. *)
Lemma fallback_holds asset text n :
  percentages_accepted todecimal lim text ->
  In asset (keys MARKET_TRENDS) ->
  asset_percentage todecimal asset text = Some n ->
  exists allocation,
    fallback todecimal lim text
    = inr (VDict [ (py "allocation", VDict allocation); (py "explanation", VStr text) ]) /\
    In (asset, VInt n) allocation.
Proof.
  intros Hacc Hk Hn.
  assert (Hin : In (asset, VInt n) (matched_percentages todecimal text)).
  { apply in_matched_percentages; eauto. }
  exists (matched_percentages todecimal text); split; auto.
  apply fallback_matched; auto. intros E; rewrite E in Hin; contradiction.
Qed.

(** Which number the loop of lines 70 to 74 reads for an asset: after the
    first occurrence of the asset name, in any case, the digits that stand
    directly before the first percent sign of the line.  The name, then
    characters of the line that hold no percent sign and do not end in a
    digit, then digits and a percent sign: the asset gets the integer of
    these digits, whatever else the text holds, as long as [int()] accepts
    the percentages of the text (none of them has more digits than the
    limit). *)
Theorem percentage_before_first_percent_sign asset pre name gap digits post :
  percentages_accepted todecimal lim (pre ++ name ++ gap ++ digits ++ percent :: post) ->
  In asset (keys MARKET_TRENDS) ->
  is_decimal todecimal percent = false ->
  same_ignoring_case asset name ->
  name_not_before asset pre (name ++ gap ++ digits ++ percent :: post) = true ->
  Forall (fun c => c <> newline /\ c <> percent) gap ->
  (forall g c, gap = g ++ [c] -> is_decimal todecimal c = false) ->
  digits <> [] -> Forall (fun c => is_decimal todecimal c = true) digits ->
  exists allocation,
    fallback todecimal lim (pre ++ name ++ gap ++ digits ++ percent :: post)
    = inr (VDict [ (py "allocation", VDict allocation);
                   (py "explanation",
                    VStr (pre ++ name ++ gap ++ digits ++ percent :: post)) ]) /\
    In (asset, VInt (int_value todecimal digits)) allocation.
Proof.
  intros Hacc Hk Hpc Hci Hfirst Hgap Hlast Hne Hd.
  apply fallback_holds; auto.
  apply asset_percentage_first. exists digits; split; auto.
  now apply first_percent_intro.
Qed.

(** The percentage is not checked against any range: whatever number [n]
    stands before the percent sign, the fallback returns [n] for the
    asset, as long as [int()] accepts the percentages of the text. *)
Theorem percentage_is_not_range_checked asset pre name gap n post :
  percentages_accepted todecimal lim (pre ++ name ++ gap ++ decimal n ++ percent :: post) ->
  ascii_decimal todecimal ->
  In asset (keys MARKET_TRENDS) ->
  same_ignoring_case asset name ->
  name_not_before asset pre (name ++ gap ++ decimal n ++ percent :: post) = true ->
  Forall (fun c => c <> newline /\ c <> percent) gap ->
  (forall g c, gap = g ++ [c] -> is_decimal todecimal c = false) ->
  exists allocation,
    fallback todecimal lim (pre ++ name ++ gap ++ decimal n ++ percent :: post)
    = inr (VDict [ (py "allocation", VDict allocation);
                   (py "explanation",
                    VStr (pre ++ name ++ gap ++ decimal n ++ percent :: post)) ]) /\
    In (asset, VInt (Z.of_N n)) allocation.
Proof.
  intros Hacc Ha Hk Hci Hfirst Hgap Hlast.
  destruct (decimal_digits n Ha) as [Hne Hd].
  apply fallback_holds; auto.
  apply asset_percentage_first. exists (decimal n); split.
  - apply first_percent_intro; auto.
    rewrite ascii_is_decimal; auto. reflexivity.
  - symmetry; now apply int_decimal.
Qed.

(** A percentage that is written with a decimal point is read as the
    digits after the point: for [a.b%] the asset gets [b], as long as
    [int()] accepts the percentages of the text. *)
Theorem decimal_point_percentage asset pre name gap a b post :
  percentages_accepted todecimal lim
    (pre ++ name ++ gap ++ decimal a ++ dot :: decimal b ++ percent :: post) ->
  ascii_decimal todecimal ->
  In asset (keys MARKET_TRENDS) ->
  same_ignoring_case asset name ->
  name_not_before asset pre
    (name ++ gap ++ decimal a ++ dot :: decimal b ++ percent :: post) = true ->
  Forall (fun c => c <> newline /\ c <> percent) gap ->
  exists allocation,
    fallback todecimal lim
      (pre ++ name ++ gap ++ decimal a ++ dot :: decimal b ++ percent :: post)
    = inr (VDict [ (py "allocation", VDict allocation);
                   (py "explanation",
                    VStr (pre ++ name ++ gap ++ decimal a ++ dot :: decimal b
                            ++ percent :: post)) ]) /\
    In (asset, VInt (Z.of_N b)) allocation.
Proof.
  intros Hacc Ha Hk Hci Hfirst Hgap.
  destruct (decimal_digits b Ha) as [Hne Hd].
  assert (E : forall rest,
             gap ++ decimal a ++ dot :: rest = (gap ++ decimal a ++ [dot]) ++ rest).
  { intros rest. now rewrite <- !app_assoc. }
  rewrite E in *.
  apply fallback_holds; auto.
  apply asset_percentage_first. exists (decimal b); split.
  - apply first_percent_intro; auto.
    + rewrite ascii_is_decimal; auto. reflexivity.
    + apply Forall_app; split; auto.
      apply Forall_app; split.
      * destruct (decimal_spec a) as (Hds & _).
        eapply Forall_impl; [|exact Hds]. intros c Hc.
        apply is_digit_spec in Hc. unfold zero, nine in Hc.
        unfold newline, percent; lia.
      * constructor; [|constructor]. split; discriminate.
    + intros g c Eg. rewrite !app_assoc in Eg.
      apply app_inj_tail in Eg as [_ <-].
      rewrite ascii_is_decimal; auto. reflexivity.
  - symmetry; now apply int_decimal.
Qed.

(** A reply without a percent sign, or without a decimal digit, from which
    the first step gets nothing, yields the allocation of 100 for Cash:
    no asset of the catalog can match. *)
Theorem no_percent_sign_cash text :
  direct_json lim text = inr None ->
  ~ In percent text \/ Forall (fun c => is_decimal todecimal c = false) text ->
  extract_json_from_text todecimal lim text
  = inr (VDict [ (py "allocation", VDict [ (py "Cash", VInt 100) ]);
                 (py "explanation", VStr unable_to_parse) ]).
Proof.
  intros Hj Hno. rewrite extract_steps, Hj. apply fallback_cash.
  destruct (matched_percentages todecimal text) as [|[asset v] l] eqn:E; auto.
  exfalso.
  assert (Hin : In (asset, v) (matched_percentages todecimal text))
    by (rewrite E; now left).
  apply in_matched_percentages in Hin as (_ & n & Hn & _).
  unfold asset_percentage, asset_digits in Hn.
  destruct (Re.search todecimal true (pattern asset) text) as [m|] eqn:Hs;
    [|discriminate].
  apply search_pattern_sound in Hs
    as (pre & name & gap & post & -> & _ & _ & Hne & Hd).
  destruct Hno as [Hno|Hno].
  - apply Hno. repeat (apply in_or_app; right). now left.
  - do 3 (apply Forall_app in Hno as [_ Hno]).
    apply Forall_app in Hno as [Hno _].
    destruct (Re.group m 1) as [|d ds]; [congruence|].
    inversion Hd; inversion Hno; congruence.
Qed.
End PercentRule.

(** ** How a call of the handler ends *)

Section HandlerOutcomes.
Variable todecimal : N -> option N.
Variable lim : limits.
Variable float : Type.
Variable build_prompt : InvestmentRequest float -> pystr.
Variable str : exn -> pystr.
Variable getenv : pystr -> option pystr.
Variable service : world -> completion_request -> reply.
Variable Client : Type.
Variable AzureOpenAI : pystr -> pystr -> pystr -> option Client.

(** When the handler answers.  With a client, the handler returns a
    response exactly when the first choice of the completion carries a
    text, and the dictionary that the extractor makes of the text has a
    dictionary as its [allocation] (or none) and a string as its
    [explanation] (or none); the response holds these two, and the service
    has been called once. *)
Theorem respond_iff c request w r w' :
  allocate_investment todecimal lim float build_prompt str getenv service Client
    (Some c) request w
  = (Respond r, w')
  <->
  w' = called w (create_arguments float build_prompt getenv request) /\
  exists text others d,
    service w (create_arguments float build_prompt getenv request)
    = Completion (Some text :: others) /\
    extract_json_from_text todecimal lim text = inr (VDict d) /\
    dict_get d (py "allocation") (VDict []) = VDict (allocation_percentage r) /\
    dict_get d (py "explanation") (VStr []) = VStr (recommendation r).
Proof.
  unfold allocate_investment; rewrite body_cases; cbv zeta. split.
  - destruct (service w (create_arguments float build_prompt getenv request))
      as [e|[|[text|] others]] eqn:Hs; try discriminate.
    destruct (extract_json_from_text todecimal lim text) as [e|[| | | | | |d]] eqn:Hx;
      try discriminate.
    unfold new_InvestmentResponse.
    destruct (dict_get d (py "allocation") (VDict [])) as [| | | | | |a] eqn:Ha;
      try discriminate.
    destruct (dict_get d (py "explanation") (VStr [])) as [| | | |s| |] eqn:He;
      try discriminate.
    cbn. intros [= <- <-]. split; auto.
    exists text, others, d; auto.
  - intros (-> & text & others & d & Hs & Hx & Ha & He).
    rewrite Hs, Hx. unfold new_InvestmentResponse. rewrite Ha, He.
    destruct r; reflexivity.
Qed.

(** When the handler fails.  With a client, every failure is an error of
    status 500 after one call to the service, and its detail is the
    message of one of five exceptions: the one that the completion call
    raised; an [IndexError] for a completion without choices; a
    [TypeError] for a first choice without text; a [ValidationError] for a
    reply whose JSON decodes but whose [allocation] is no dictionary or
    whose [explanation] is no string; a [ValueError] or a [RecursionError]
    of the limits of the interpreter, which [json.loads] raises in the
    first step or [int()] in the loop of the second, and which the
    extractor does not catch.  Nothing else fails: [.get] is never called
    on what is no dictionary, and what the fallback returns always passes
    the validation. *)
Theorem failure_iff c request w status detail w' :
  allocate_investment todecimal lim float build_prompt str getenv service Client
    (Some c) request w
  = (HTTPException status detail, w')
  <->
  status = 500%Z /\
  w' = called w (create_arguments float build_prompt getenv request) /\
  exists e,
    detail = str e /\
    (service w (create_arguments float build_prompt getenv request) = Raises e \/
     (service w (create_arguments float build_prompt getenv request) = Completion [] /\
      e = IndexError) \/
     (exists others,
         service w (create_arguments float build_prompt getenv request)
         = Completion (None :: others) /\
         e = TypeError) \/
     (exists text others d,
         service w (create_arguments float build_prompt getenv request)
         = Completion (Some text :: others) /\
         direct_json lim text = inr (Some (VDict d)) /\
         e = ValidationError (dict_get d (py "allocation") (VDict []))
                             (dict_get d (py "explanation") (VStr [])) /\
         ((forall a, dict_get d (py "allocation") (VDict []) <> VDict a) \/
          (forall s, dict_get d (py "explanation") (VStr []) <> VStr s))) \/
     (exists text others,
         service w (create_arguments float build_prompt getenv request)
         = Completion (Some text :: others) /\
         limit_error lim e /\
         (direct_json lim text = inl e \/
          (direct_json lim text = inr None /\
           allocation_loop todecimal lim (keys MARKET_TRENDS) text [] = inl e)))).
Proof.
  unfold allocate_investment; rewrite body_cases; cbv zeta. split.
  - destruct (service w (create_arguments float build_prompt getenv request))
      as [e|[|[text|] others]] eqn:Hs.
    + intros [= <- <- <-]. repeat split. exists e; auto.
    + intros [= <- <- <-]. repeat split. exists IndexError; auto.
    + rewrite extract_steps.
      destruct (direct_json lim text) as [e|[v|]] eqn:Hj.
      * intros [= <- <- <-]. repeat split. exists e; split; auto.
        do 4 right. exists text, others; repeat split; auto.
        eapply direct_json_raised; eauto.
      * destruct (direct_json_dict _ _ _ Hj) as [d ->].
        unfold new_InvestmentResponse.
        destruct (dict_get d (py "allocation") (VDict [])) eqn:Ha;
          destruct (dict_get d (py "explanation") (VStr [])) eqn:He;
          cbn; try discriminate;
          intros [= <- <- <-]; repeat split;
          (eexists; split; [reflexivity|]);
          do 3 right; left; exists text, others, d; rewrite Ha, He;
          repeat split;
          first [ assumption
                | left; intros; discriminate
                | right; intros; discriminate ].
      * destruct (fallback todecimal lim text) as [e|v] eqn:Hf.
        -- intros [= <- <- <-]. repeat split. exists e; split; auto.
           do 4 right. exists text, others; repeat split; auto.
           ++ eapply fallback_raised; eauto.
           ++ right; split; auto. unfold fallback in Hf.
              destruct (allocation_loop todecimal lim (keys MARKET_TRENDS) text [])
                as [e0|[|kv l]]; try discriminate. now injection Hf as ->.
        -- unfold fallback in Hf.
           destruct (allocation_loop todecimal lim (keys MARKET_TRENDS) text [])
             as [e0|[|kv l]]; try discriminate; injection Hf as <-;
             cbn; discriminate.
    + intros [= <- <- <-]. repeat split. exists TypeError; split; auto.
      right; right; left. now exists others.
  - intros (-> & -> & e & -> & [Hs|[[Hs ->]|[(others & Hs & ->)|[H|H]]]]);
      try (rewrite Hs; reflexivity).
    + destruct H as (text & others & d & Hs & Hj & -> & Hbad).
      rewrite Hs, extract_steps, Hj. unfold new_InvestmentResponse.
      destruct (dict_get d (py "allocation") (VDict [])) eqn:Ha;
        destruct (dict_get d (py "explanation") (VStr [])) eqn:He;
        try reflexivity.
      exfalso; destruct Hbad as [Hbad|Hbad]; eapply Hbad; reflexivity.
    + destruct H as (text & others & Hs & _ & [Hj|[Hj Hl]]);
        rewrite Hs, extract_steps, Hj; [reflexivity|].
      unfold fallback; now rewrite Hl.
Qed.

(** A reply that holds no JSON does not fail the request, as long as
    [int()] accepts its percentages.  When the first choice carries a text
    from which the first step gets nothing, and no percentage of the text
    has more digits than the limit, the loop of the second step returns and
    the handler answers: with the percentages that the loop has found and
    the whole reply as the recommendation, or, when it has found none,
    with 100 for Cash and the fixed sentence. *)
Theorem reply_without_json_is_answered c request w text others :
  service w (create_arguments float build_prompt getenv request)
  = Completion (Some text :: others) ->
  direct_json lim text = inr None ->
  percentages_accepted todecimal lim text ->
  exists r found,
    allocation_loop todecimal lim (keys MARKET_TRENDS) text [] = inr found /\
    allocate_investment todecimal lim float build_prompt str getenv service Client
      (Some c) request w
    = (Respond r, called w (create_arguments float build_prompt getenv request)) /\
    ((found <> [] /\ allocation_percentage r = found /\ recommendation r = text) \/
     (found = [] /\
      allocation_percentage r = [ (py "Cash", VInt 100) ] /\
      recommendation r = unable_to_parse)).
Proof.
  intros Hs Hj Hacc.
  pose proof (allocation_loop_matched todecimal lim text Hacc) as Hl.
  unfold allocate_investment; rewrite body_cases; cbv zeta.
  rewrite Hs, extract_steps, Hj. unfold fallback. rewrite Hl.
  destruct (matched_percentages todecimal text) as [|kv l].
  - do 2 eexists; split; [reflexivity|split; [reflexivity|]]. right; repeat split.
  - do 2 eexists; split; [reflexivity|split; [reflexivity|]]. left; repeat split.
    discriminate.
Qed.

(** The round trip through the handler.  When the service replies with a
    written allocation result, in prose that has no opening brace before it
    and no closing brace after it, the handler answers with the allocation
    and the explanation that were written.  The result is one that
    [json.loads] reads: its integers have no more digits than the limit,
    and the two levels of its objects fit the stack. *)
Theorem written_result_is_answered c request w pre post members explanation others :
  service w (create_arguments float build_prompt getenv request)
  = Completion (Some (pre ++ dumps_result members explanation ++ post) :: others) ->
  (2 <= recursion_left lim)%nat ->
  writable lim members ->
  NoDup (map fst members) ->
  ~ In lbrace pre -> ~ In rbrace post ->
  allocate_investment todecimal lim float build_prompt str getenv service Client
    (Some c) request w
  = (Respond {| allocation_percentage := map (fun kz => (fst kz, VInt (snd kz))) members;
                recommendation := explanation |},
     called w (create_arguments float build_prompt getenv request)).
Proof.
  intros Hs Hleft Hw Hnd Hpre Hpost.
  destruct (dumps_result_object lim members explanation Hleft Hw Hnd) as [[inner E] Hloads].
  unfold allocate_investment; rewrite body_cases; cbv zeta.
  rewrite Hs, extract_steps. unfold direct_json.
  rewrite E, leftmost_to_rightmost_embedded by assumption.
  rewrite <- E, Hloads. reflexivity.
Qed.

(** ** The client and the environment *)

(** The client is configured exactly when the key, the endpoint and the
    deployment name are all set and not empty, and the constructor accepts
    the key and the endpoint: an empty variable counts as a missing one,
    and the deployment name is required although the constructor does not
    get it. *)
Theorem client_configured_iff c :
  client getenv Client AzureOpenAI = Some c
  <->
  exists k e d,
    getenv (py "AZURE_OPENAI_API_KEY") = Some k /\ k <> [] /\
    getenv (py "AZURE_OPENAI_ENDPOINT") = Some e /\ e <> [] /\
    getenv (py "AZURE_OPENAI_DEPLOYMENT") = Some d /\ d <> [] /\
    AzureOpenAI k (py "2025-01-01-preview") e = Some c.
Proof.
  unfold client. split.
  - destruct (getenv (py "AZURE_OPENAI_API_KEY")) as [[|k0 k]|]; try discriminate.
    destruct (getenv (py "AZURE_OPENAI_ENDPOINT")) as [[|e0 e]|]; try discriminate.
    destruct (getenv (py "AZURE_OPENAI_DEPLOYMENT")) as [[|d0 d]|]; try discriminate.
    cbn. intros H.
    exists (k0 :: k), (e0 :: e), (d0 :: d); repeat split; auto; discriminate.
  - intros (k & e & d & -> & Hk & -> & He & -> & Hd & H).
    destruct k, e, d; try congruence. exact H.
Qed.

(** With a configured client, every call that the handler makes names a
    model: the deployment name of the environment, which is not empty. *)
Theorem configured_client_names_model c request :
  client getenv Client AzureOpenAI = Some c ->
  exists d,
    d <> [] /\
    getenv (py "AZURE_OPENAI_DEPLOYMENT") = Some d /\
    model (create_arguments float build_prompt getenv request) = Some d.
Proof.
  unfold client, create_arguments; cbn [model].
  destruct (getenv (py "AZURE_OPENAI_API_KEY")) as [[|k0 k]|]; try discriminate.
  destruct (getenv (py "AZURE_OPENAI_ENDPOINT")) as [[|e0 e]|]; try discriminate.
  destruct (getenv (py "AZURE_OPENAI_DEPLOYMENT")) as [[|d0 d]|]; try discriminate.
  intros _. exists (d0 :: d); repeat split. discriminate.
Qed.
End HandlerOutcomes.

(** ** The prompt *)

Section PromptProperties.
Variable todecimal : N -> option N.
Variable lim : limits.
Variable float : Type.
Variable format_amount : float -> pystr.
Variable str : exn -> pystr.
Variable getenv : pystr -> option pystr.
Variable service : world -> completion_request -> reply.
Variable Client : Type.

(** The prompt keeps the forecast as it is.  Two requests with the same age
    and the same amount get the same prompt exactly when they have the same
    forecast, once the fixed sentence stands in for a forecast that is
    missing or empty; the handler then sends the same request and ends in
    the same way.  So an empty forecast is handled as a missing one, and
    two forecasts that are not empty and differ give prompts that
    differ. *)
Theorem prompt_forecast_iff c a x f1 f2 w :
  (prompt float format_amount
     {| age := a; investment_amount := x; market_forecast := f1 |}
   = prompt float format_amount
       {| age := a; investment_amount := x; market_forecast := f2 |}
   <-> forecast_text f1 = forecast_text f2) /\
  (forecast_text f1 = forecast_text f2 ->
   allocate_investment todecimal lim float (prompt float format_amount) str getenv
     service Client (Some c)
     {| age := a; investment_amount := x; market_forecast := f1 |} w
   = allocate_investment todecimal lim float (prompt float format_amount) str getenv
       service Client (Some c)
       {| age := a; investment_amount := x; market_forecast := f2 |} w) /\
  forecast_text (Some []) = forecast_text None.
Proof.
  assert (Hp : forecast_text f1 = forecast_text f2 ->
               prompt float format_amount
                 {| age := a; investment_amount := x; market_forecast := f1 |}
               = prompt float format_amount
                   {| age := a; investment_amount := x; market_forecast := f2 |}).
  { unfold prompt; cbn [join age investment_amount market_forecast].
    now intros ->. }
  split; [split; [|exact Hp]|split; [|reflexivity]].
  - unfold prompt; cbn [join age investment_amount market_forecast].
    intros H. rewrite <- !app_assoc in H.
    repeat apply app_inv_head in H.
    now apply app_inv_tail in H.
  - intros H. apply Hp in H.
    unfold allocate_investment, try_body, create_arguments. now rewrite H.
Qed.
End PromptProperties.

(** ** More concrete runs *)

Lemma in_by_existsb (c : N) (s : pystr) : existsb (N.eqb c) s = true -> In c s.
Proof.
  intros H; apply existsb_exists in H as (x & Hx & E).
  apply N.eqb_eq in E; now subst.
Qed.

Lemma gap_end_by_check todecimal (gap : pystr) :
  match rev gap with
  | c :: _ => negb (is_decimal todecimal c)
  | [] => true
  end = true ->
  forall g c, gap = g ++ [c] -> is_decimal todecimal c = false.
Proof.
  intros H g c ->. rewrite rev_app_distr in H; cbn in H.
  now apply negb_true_iff.
Qed.

Lemma unicode_todecimal_ascii : ascii_decimal unicode_todecimal.
Proof.
  assert (H : forallb
                (fun c =>
                   match unicode_todecimal c,
                         (if Json.is_digit c then Some (c - zero) else None) with
                   | Some a, Some b => a =? b
                   | None, None => true
                   | _, _ => false
                   end)
                (map N.of_nat (seq 0 128)) = true) by (vm_compute; reflexivity).
  intros c Hc. rewrite forallb_forall in H.
  specialize (H c). 
  assert (Hin : In c (map N.of_nat (seq 0 128))).
  { apply in_map_iff. exists (N.to_nat c); split; [apply N2Nat.id|].
    apply in_seq. lia. }
  specialize (H Hin).
  destruct (unicode_todecimal c) as [a|];
    destruct (Json.is_digit c); try discriminate; auto.
  apply N.eqb_eq in H; now subst.
Qed.

Lemma NoDup_written_members : NoDup (map fst written_members).
Proof.
  repeat constructor; intros H; vm_compute in H; intuition discriminate.
Qed.

Lemma writable_written_members : writable stub_limits written_members.
Proof. repeat constructor. Qed.

Lemma stub_limits_two_levels : (2 <= recursion_left stub_limits)%nat.
Proof. apply Nat.leb_le; vm_compute; reflexivity. Qed.

(** A result written between a sentence and a greeting comes back as it
    was, with the quotes, the line feed and the brace of its explanation. *)
Lemma extract_dumps_result_witness :
  extract_json_from_text unicode_todecimal stub_limits
    (reply_prose_before ++ dumps_result written_members written_explanation
       ++ reply_prose_after)
  = inr (VDict (result_dict written_members written_explanation)).
Proof.
  apply (extract_dumps_result unicode_todecimal stub_limits
           reply_prose_before reply_prose_after written_members written_explanation).
  - exact stub_limits_two_levels.
  - exact writable_written_members.
  - exact NoDup_written_members.
  - apply not_in_by_existsb; vm_compute; reflexivity.
  - apply not_in_by_existsb; vm_compute; reflexivity.
Defined.

(** The same result, followed by an empty object: nothing is decoded, and
    as the reply holds no percentage, the answer is the one for Cash. *)
Lemma trailing_brace_defeats_json_witness :
  extract_json_from_text unicode_todecimal stub_limits
    (reply_prose_before ++ dumps_result written_members written_explanation
       ++ py " Or simply: {}")
  = inr (VDict [ (py "allocation", VDict [ (py "Cash", VInt 100) ]);
                 (py "explanation", VStr unable_to_parse) ]).
Proof.
  destruct (trailing_brace_defeats_json unicode_todecimal stub_limits reply_prose_before
              (py " Or simply: {}") written_members written_explanation) as [_ H].
  - exact stub_limits_two_levels.
  - exact writable_written_members.
  - apply not_in_by_existsb; vm_compute; reflexivity.
  - apply in_by_existsb; vm_compute; reflexivity.
  - rewrite H; vm_compute; reflexivity.
Defined.

(** Arabic-Indic digits after the name in capitals: 40 for Gold. *)
Lemma percentage_before_first_percent_sign_witness :
  exists allocation,
    fallback unicode_todecimal stub_limits
      (py "Plan: " ++ py "GOLD" ++ py " - " ++ [1636; 1632] ++ percent :: py " now")
    = inr (VDict [ (py "allocation", VDict allocation);
                   (py "explanation",
                    VStr (py "Plan: " ++ py "GOLD" ++ py " - " ++ [1636; 1632]
                            ++ percent :: py " now")) ]) /\
    In (py "Gold", VInt 40) allocation.
Proof.
  apply (percentage_before_first_percent_sign unicode_todecimal stub_limits
           (py "Gold") (py "Plan: ") (py "GOLD") (py " - ") [1636; 1632] (py " now")).
  - apply short_text_accepted; vm_compute; reflexivity.
  - vm_compute; auto.
  - reflexivity.
  - apply same_ignoring_case_by_forallb; vm_compute; reflexivity.
  - vm_compute; reflexivity.
  - apply Forall_by_forallb
      with (f := fun c => negb (c =? newline) && negb (c =? percent));
      [|vm_compute; reflexivity].
    intros x Hx; apply andb_prop in Hx as [H1 H2].
    apply negb_true_iff in H1, H2. apply N.eqb_neq in H1, H2. auto.
  - apply gap_end_by_check; vm_compute; reflexivity.
  - discriminate.
  - apply Forall_by_forallb with (f := is_decimal unicode_todecimal);
      [auto|vm_compute; reflexivity].
Defined.

(** 250 per cent for Bonds. *)
Lemma percentage_is_not_range_checked_witness :
  exists allocation,
    fallback unicode_todecimal stub_limits
      (py "Our pick: " ++ py "bonds" ++ py " at " ++ decimal 250
         ++ percent :: py " of the sum")
    = inr (VDict [ (py "allocation", VDict allocation);
                   (py "explanation",
                    VStr (py "Our pick: " ++ py "bonds" ++ py " at " ++ decimal 250
                            ++ percent :: py " of the sum")) ]) /\
    In (py "Bonds", VInt 250) allocation.
Proof.
  apply (percentage_is_not_range_checked unicode_todecimal stub_limits
           (py "Bonds") (py "Our pick: ") (py "bonds") (py " at ") 250 (py " of the sum")).
  - apply short_text_accepted; vm_compute; reflexivity.
  - exact unicode_todecimal_ascii.
  - vm_compute; auto.
  - apply same_ignoring_case_by_forallb; vm_compute; reflexivity.
  - vm_compute; reflexivity.
  - apply Forall_by_forallb
      with (f := fun c => negb (c =? newline) && negb (c =? percent));
      [|vm_compute; reflexivity].
    intros x Hx; apply andb_prop in Hx as [H1 H2].
    apply negb_true_iff in H1, H2. apply N.eqb_neq in H1, H2. auto.
  - apply gap_end_by_check; vm_compute; reflexivity.
Defined.

(** Twelve and a half per cent for Gold is read as 5. *)
Lemma decimal_point_percentage_witness :
  exists allocation,
    fallback unicode_todecimal stub_limits
      ([] ++ py "Gold" ++ py ": " ++ decimal 12 ++ dot :: decimal 5 ++ percent :: [])
    = inr (VDict [ (py "allocation", VDict allocation);
                   (py "explanation",
                    VStr ([] ++ py "Gold" ++ py ": " ++ decimal 12 ++ dot :: decimal 5
                            ++ percent :: [])) ]) /\
    In (py "Gold", VInt 5) allocation.
Proof.
  apply (decimal_point_percentage unicode_todecimal stub_limits
           (py "Gold") [] (py "Gold") (py ": ") 12 5 []).
  - apply short_text_accepted; vm_compute; reflexivity.
  - exact unicode_todecimal_ascii.
  - vm_compute; auto.
  - apply same_ignoring_case_by_forallb; vm_compute; reflexivity.
  - vm_compute; reflexivity.
  - apply Forall_by_forallb
      with (f := fun c => negb (c =? newline) && negb (c =? percent));
      [|vm_compute; reflexivity].
    intros x Hx; apply andb_prop in Hx as [H1 H2].
    apply negb_true_iff in H1, H2. apply N.eqb_neq in H1, H2. auto.
Defined.

(** Braces that hold no JSON and asset names without a percentage. *)
Lemma no_percent_sign_cash_witness :
  extract_json_from_text unicode_todecimal stub_limits reply_no_percent
  = inr (VDict [ (py "allocation", VDict [ (py "Cash", VInt 100) ]);
                 (py "explanation", VStr unable_to_parse) ]).
Proof.
  apply (no_percent_sign_cash unicode_todecimal stub_limits reply_no_percent).
  - vm_compute; reflexivity.
  - left. apply not_in_by_existsb; vm_compute; reflexivity.
Defined.

(** The stubbed client answers with two percentages and no JSON: the
    endpoint answers with them and with the reply. *)
Lemma reply_without_json_is_answered_witness :
  stub_endpoint reply_percentages
  = Respond {| allocation_percentage := [ (py "Gold", VInt 8); (py "Bonds", VInt 20) ];
               recommendation := reply_percentages |}.
Proof.
  destruct (reply_without_json_is_answered unicode_todecimal stub_limits Z stub_prompt
              stub_str stub_getenv (stub_service reply_percentages) unit tt stub_request
              {| calls := [] |} reply_percentages [])
    as (r & found & Hl & H & Hr);
    [reflexivity|vm_compute; reflexivity
    |apply short_text_accepted; vm_compute; reflexivity|].
  unfold stub_endpoint. rewrite H. cbn [fst]. destruct r as [a e].
  cbn [allocation_percentage recommendation] in Hr.
  assert (found = [ (py "Gold", VInt 8); (py "Bonds", VInt 20) ]) as ->.
  { vm_compute in Hl. now injection Hl as <-. }
  destruct Hr as [(_ & -> & ->)|(Hnone & _)].
  - reflexivity.
  - discriminate.
Defined.

(** The stubbed client answers with a written result in prose: the endpoint
    answers with the result. *)
Lemma written_result_is_answered_witness :
  stub_endpoint
    (reply_prose_before ++ dumps_result written_members written_explanation
       ++ reply_prose_after)
  = Respond {| allocation_percentage := [ (py "Gold", VInt 8); (py "Bonds", VInt 20) ];
               recommendation := written_explanation |}.
Proof.
  unfold stub_endpoint.
  rewrite (written_result_is_answered unicode_todecimal stub_limits Z stub_prompt
             stub_str stub_getenv
             (stub_service
                (reply_prose_before ++ dumps_result written_members written_explanation
                   ++ reply_prose_after))
             unit tt stub_request {| calls := [] |}
             reply_prose_before reply_prose_after written_members written_explanation []).
  - reflexivity.
  - reflexivity.
  - exact stub_limits_two_levels.
  - exact writable_written_members.
  - exact NoDup_written_members.
  - apply not_in_by_existsb; vm_compute; reflexivity.
  - apply not_in_by_existsb; vm_compute; reflexivity.
Defined.

(** With the stubbed environment the client is configured, and the call
    names the model of the environment. *)
Lemma configured_client_names_model_witness :
  exists d,
    d <> [] /\
    stub_getenv (py "AZURE_OPENAI_DEPLOYMENT") = Some d /\
    model (create_arguments Z stub_prompt stub_getenv stub_request) = Some d.
Proof.
  apply (configured_client_names_model Z stub_prompt stub_getenv unit
           (fun _ _ _ => Some tt) tt stub_request).
  reflexivity.
Defined.

(** ** Replies beyond the limits of the interpreter *)

Section DeepNesting.
Import Json.
Variable lim : limits.

Lemma skip_whitespace_brackets n tail :
  tail = [] \/ tail = [rbrace] ->
  skip_whitespace (repeat lbracket n ++ tail) = repeat lbracket n ++ tail.
Proof. intros [-> | ->]; destruct n; reflexivity. Qed.

(** Opening brackets, and nothing or a closing brace after them, are no
    value. *)
Lemma brackets_no_value tail :
  tail = [] \/ tail = [rbrace] ->
  forall n fuel left v r,
    Json.scan_once lim fuel left (repeat lbracket n ++ tail) <> Found v r.
Proof.
  intros Ht; induction n as [|n IH]; intros fuel left v r.
  - destruct fuel as [|f]; [discriminate|].
    destruct Ht as [-> | ->]; [discriminate|]. cbv. discriminate.
  - destruct fuel as [|f]; [discriminate|].
    cbn [repeat app Json.scan_once].
    change (lbracket =? dquote) with false; change (lbracket =? lbrace) with false;
      change (lbracket =? lbracket) with true; cbv iota.
    destruct left as [|left']; [discriminate|].
    rewrite skip_whitespace_brackets by assumption.
    destruct (repeat lbracket n ++ tail) as [|c s2] eqn:E; [discriminate|].
    assert ((c =? rbracket) = false) as ->.
    { destruct n; [destruct Ht as [-> | ->]; [discriminate|] |];
        injection E as <- _; reflexivity. }
    destruct f as [|f']; [discriminate|]. cbn [Json.array_items].
    specialize (IH f' left').
    destruct (Json.scan_once lim f' left' (c :: s2)); try discriminate.
    exfalso; eapply IH; reflexivity.
Qed.

(** More opening brackets than there are levels left. *)
Lemma brackets_too_deep tail : forall left n fuel,
  (left < n)%nat -> (2 * left < fuel)%nat ->
  Json.scan_once lim fuel left (repeat lbracket n ++ tail)
  = Raised (RecursionError decoding_array).
Proof.
  induction left as [|left IH]; intros [|n] [|f] Hn Hf; try lia.
  - reflexivity.
  - destruct n as [|n]; [lia|]. destruct f as [|f]; [lia|].
    cbn [repeat app Json.scan_once].
    change (lbracket =? dquote) with false; change (lbracket =? lbrace) with false;
      change (lbracket =? lbracket) with true; cbv iota.
    change (skip_whitespace (lbracket :: repeat lbracket n ++ tail))
      with (lbracket :: repeat lbracket n ++ tail).
    change (lbracket =? rbracket) with false; cbv iota.
    cbn [Json.array_items].
    change (lbracket :: repeat lbracket n ++ tail) with (repeat lbracket (S n) ++ tail).
    rewrite IH by lia. reflexivity.
Qed.

(** The reply [reply_deep], or what of it a text that starts with its
    opening brace holds, is no value. *)
Lemma deep_prefix_no_value t :
  (forall fuel left v r, Json.scan_once lim fuel left t <> Found v r) ->
  skip_whitespace t = t ->
  forall fuel left v r,
    Json.scan_once lim fuel left (lbrace :: dquote :: 97 :: dquote :: colon :: space :: t)
    <> Found v r.
Proof.
  intros Ht Hs [|[|[|f]]] [|left] v r; try discriminate;
    try (cbn; destruct (errmsg_cases left) as [-> | ->]; discriminate).
  cbn [Json.scan_once]. 
  change (lbrace =? dquote) with false; change (lbrace =? lbrace) with true; cbv iota.
  change (skip_whitespace (dquote :: 97 :: dquote :: colon :: space :: t))
    with (dquote :: 97 :: dquote :: colon :: space :: t).
  change (dquote =? rbrace) with false; change (dquote =? dquote) with true; cbv iota.
  cbn [Json.object_pairs].
  change (scanstring (97 :: dquote :: colon :: space :: t)) with (Some ([97], colon :: space :: t)).
  cbv iota.
  change (skip_whitespace (colon :: space :: t)) with (colon :: space :: t).
  change (colon =? colon) with true; cbv iota.
  change (skip_whitespace (space :: t)) with (skip_whitespace t). rewrite Hs.
  specialize (Ht (S f) left).
  destruct (Json.scan_once lim (S f) left t); try discriminate.
  exfalso; eapply Ht; reflexivity.
Qed.

Lemma deep_object_raises n tail fuel left :
  (left <= n)%nat -> (2 * left + 1 < fuel)%nat ->
  Json.scan_once lim fuel left
    (lbrace :: dquote :: 97 :: dquote :: colon :: space :: repeat lbracket n ++ tail)
  = Raised (RecursionError
              match left with O => decoding_object | S _ => decoding_array end).
Proof.
  intros Hn Hf. destruct fuel as [|[|fuel]]; try lia.
  destruct left as [|left]; [reflexivity|].
  destruct n as [|n]; [lia|].
  cbn [Json.scan_once].
  change (lbrace =? dquote) with false; change (lbrace =? lbrace) with true; cbv iota.
  change (skip_whitespace (dquote :: 97 :: dquote :: colon :: space :: repeat lbracket (S n) ++ tail))
    with (dquote :: 97 :: dquote :: colon :: space :: repeat lbracket (S n) ++ tail).
  change (dquote =? rbrace) with false; change (dquote =? dquote) with true; cbv iota.
  cbn [Json.object_pairs].
  change (scanstring (97 :: dquote :: colon :: space :: repeat lbracket (S n) ++ tail))
    with (Some ([97], colon :: space :: repeat lbracket (S n) ++ tail)).
  cbv iota.
  change (skip_whitespace (colon :: space :: repeat lbracket (S n) ++ tail))
    with (colon :: space :: repeat lbracket (S n) ++ tail).
  change (colon =? colon) with true; cbv iota.
  change (skip_whitespace (space :: repeat lbracket (S n) ++ tail))
    with (repeat lbracket (S n) ++ tail).
  rewrite brackets_too_deep by lia. reflexivity.
Qed.

Lemma prefix_brackets : forall n t post,
  t ++ post = repeat lbracket n ++ [rbrace] ->
  exists m tail, t = repeat lbracket m ++ tail /\ (tail = [] \/ tail = [rbrace]).
Proof.
  induction n as [|n IH]; intros [|c t] post E.
  - exists 0%nat, []; auto.
  - injection E as -> E. apply app_eq_nil in E as [-> _].
    exists 0%nat, [rbrace]; auto.
  - exists 0%nat, []; auto.
  - injection E as -> E. destruct (IH _ _ E) as (m & tail & -> & Ht).
    exists (S m), tail; auto.
Qed.

Lemma length_reply_deep : length reply_deep = 3007%nat.
Proof. vm_compute; reflexivity. Qed.

Lemma reply_deep_text :
  reply_deep
  = lbrace :: dquote :: 97 :: dquote :: colon :: space :: repeat lbracket 3000 ++ [rbrace].
Proof. reflexivity. Qed.

(** [json.loads] on the reply with 3000 opening brackets. *)
Lemma loads_reply_deep :
  (recursion_left lim <= 3000)%nat ->
  Json.loads lim reply_deep
  = inl (RecursionError
           match recursion_left lim with O => decoding_object | S _ => decoding_array end).
Proof.
  intros Hleft.
  unfold Json.loads, Json.decode, Json.raw_decode.
  assert (Hf : (2 * recursion_left lim + 1 < fuel_for reply_deep)%nat)
    by (unfold fuel_for; rewrite length_reply_deep; lia).
  revert Hf. generalize (fuel_for reply_deep) as fuel. intros fuel Hf.
  pose proof (deep_object_raises 3000 [rbrace] fuel (recursion_left lim) Hleft Hf) as Hs.
  rewrite reply_deep_text.
  change (lbrace =? BOM) with false. cbv iota.
  match goal with
  | |- context [skip_whitespace (lbrace :: ?s)] =>
      change (skip_whitespace (lbrace :: s)) with (lbrace :: s)
  end.
  now rewrite Hs.
Qed.

(** The reply is no JSON, whatever the limits. *)
Lemma loads_reply_deep_no_value v : Json.loads lim reply_deep <> inr v.
Proof.
  intros Hl. apply loads_found in Hl as [r Hl]. revert Hl.
  rewrite reply_deep_text.
  match goal with
  | |- context [skip_whitespace (lbrace :: ?s)] =>
      change (skip_whitespace (lbrace :: s)) with (lbrace :: s)
  end.
  apply deep_prefix_no_value.
  - intros; apply brackets_no_value; auto.
  - apply skip_whitespace_brackets; auto.
Qed.

(** A text that ends within the key of the reply is no value. *)
Ltac small fuel left :=
  destruct fuel as [|[|[|?]]], left as [|?]; try discriminate; cbn;
  repeat match goal with
    | |- context [Json.errmsg ?l] =>
        let X := fresh in destruct (errmsg_cases l) as [X|X]; rewrite X
    end; discriminate.

(** No text in the reply decodes to a dictionary. *)
Lemma reply_deep_no_object : ~ contains_json_object lim reply_deep.
Proof.
  intros (pre & j & post & d & E & Hl).
  apply loads_found in Hl as [r Hl].
  destruct (scan_once_dict _ _ _ _ _ _ Hl) as [s1 Hj].
  rewrite Hj in Hl.
  destruct (skip_whitespace_suffix j) as [ws Hws]. rewrite Hj in Hws.
  rewrite Hws, reply_deep_text in E.
  assert (Hno : ~ In lbrace (repeat lbracket 3000 ++ [rbrace]))
    by (apply not_in_by_existsb; vm_compute; reflexivity).
  remember (repeat lbracket 3000 ++ [rbrace]) as B eqn:HB.
  replace (pre ++ (ws ++ lbrace :: s1) ++ post)
    with ((pre ++ ws) ++ lbrace :: s1 ++ post) in E by (now rewrite <- !app_assoc).
  destruct (pre ++ ws) as [|c l] eqn:Epw.
  2:{ cbn [app] in E. injection E as <- E.
      assert (Hin : In lbrace (l ++ lbrace :: s1 ++ post))
        by (apply in_or_app; right; now left).
      rewrite <- E in Hin.
      destruct Hin as [H|[H|[H|[H|[H|Hin]]]]]; try discriminate.
      contradiction. }
  cbn [app] in E. injection E as E.
  revert Hl. generalize (fuel_for j) as fuel, (recursion_left lim) as left.
  intros fuel left.
  destruct s1 as [|a s1]; [small fuel left|]. injection E as <- E.
  destruct s1 as [|a s1]; [small fuel left|]. injection E as <- E.
  destruct s1 as [|a s1]; [small fuel left|]. injection E as <- E.
  destruct s1 as [|a s1]; [small fuel left|]. injection E as <- E.
  destruct s1 as [|a s1]; [small fuel left|]. injection E as <- E.
  symmetry in E. rewrite HB in E.
  destruct (prefix_brackets _ _ _ E) as (m & tail & -> & Ht).
  apply deep_prefix_no_value.
  - intros; now apply brackets_no_value.
  - now apply skip_whitespace_brackets.
Qed.

Lemma span_reply_deep : leftmost_to_rightmost reply_deep = Some reply_deep.
Proof. vm_compute; reflexivity. Qed.

Lemma extract_reply_deep todecimal :
  (recursion_left lim <= 3000)%nat ->
  extract_json_from_text todecimal lim reply_deep
  = inl (RecursionError
           match recursion_left lim with O => decoding_object | S _ => decoding_array end).
Proof.
  intros Hleft. rewrite extract_steps. unfold direct_json.
  now rewrite span_reply_deep, loads_reply_deep.
Qed.

Lemma search_reply_deep asset :
  In asset (keys MARKET_TRENDS) ->
  Re.search unicode_todecimal true (pattern asset) reply_deep = None.
Proof.
  intros Hin; vm_compute in Hin.
  destruct Hin as [<-|[<-|[<-|[<-|[]]]]]; vm_compute; reflexivity.
Qed.

Lemma direct_json_reply_many_digits : direct_json lim reply_many_digits = inr None.
Proof.
  unfold direct_json.
  assert (leftmost_to_rightmost reply_many_digits = None) as ->
    by (vm_compute; reflexivity).
  reflexivity.
Qed.

Lemma extract_reply_many_digits :
  max_str_digits lim = 4300%nat ->
  extract_json_from_text unicode_todecimal lim reply_many_digits = inl (ValueError 4301).
Proof.
  intros Hmax. rewrite extract_steps, direct_json_reply_many_digits.
  unfold fallback, keys, MARKET_TRENDS. cbn [map fst allocation_loop].
  assert (Re.search unicode_todecimal true (pattern (py "NIFTY 50")) reply_many_digits
          = None) as -> by (vm_compute; reflexivity).
  assert (Hg : option_map (fun m => Re.group m 1)
                 (Re.search unicode_todecimal true (pattern (py "Gold")) reply_many_digits)
               = Some (repeat nine 4301)) by (vm_compute; reflexivity).
  destruct (Re.search unicode_todecimal true (pattern (py "Gold")) reply_many_digits)
    as [m|]; [|discriminate].
  assert (Hm : Re.group m 1 = repeat nine 4301) by now injection Hg.
  rewrite Hm. unfold int, too_many_digits.
  rewrite repeat_length, Hmax.
  assert (((0 <? 4300) && (4300 <? 4301) && (640 <? 4301))%nat = true) as ->
    by (vm_compute; reflexivity).
  reflexivity.
Qed.
End DeepNesting.

(** ** The extractor beyond the limits *)

(** C4, at a reply on which the code fails it.  The reply [reply_deep]
    holds no JSON object that can be decoded, and the pattern of none of
    the four assets is found in it; yet with at most 3000 levels of
    recursion left (an interpreter starts with 1000) the extractor does not
    return the allocation for Cash: [json.loads] raises a [RecursionError],
    which the [except] of line 65 does not catch, and so does the
    extractor. *)
Theorem final_fallback_raises lim :
  (recursion_left lim <= 3000)%nat ->
  ~ contains_json_object lim reply_deep /\
  (forall asset, In asset (keys MARKET_TRENDS) ->
     Re.search unicode_todecimal true (pattern asset) reply_deep = None) /\
  extract_json_from_text unicode_todecimal lim reply_deep
  = inl (RecursionError
           match recursion_left lim with O => decoding_object | S _ => decoding_array end).
Proof.
  intros Hleft; split; [|split].
  - apply reply_deep_no_object.
  - apply search_reply_deep.
  - now apply extract_reply_deep.
Qed.

(** C5, at two replies on which the code fails it.  The text of
    [reply_deep] from its first [{] through its last [}] is the whole
    reply, and it is no JSON, whatever the limits; with at most 3000 levels
    of recursion left the extractor does not go on to the fallback, it
    raises the [RecursionError] of [json.loads].  On [reply_many_digits],
    where the first step finds nothing, it raises the [ValueError] of
    [int()] in the loop of the fallback, when the limit of [int()] is the
    4300 digits of an interpreter that was told nothing else. *)
Theorem extractor_raises lim :
  (recursion_left lim <= 3000)%nat ->
  max_str_digits lim = 4300%nat ->
  leftmost_to_rightmost reply_deep = Some reply_deep /\
  (forall lim' v, Json.loads lim' reply_deep <> inr v) /\
  extract_json_from_text unicode_todecimal lim reply_deep
  = inl (RecursionError
           match recursion_left lim with O => decoding_object | S _ => decoding_array end) /\
  direct_json lim reply_many_digits = inr None /\
  extract_json_from_text unicode_todecimal lim reply_many_digits = inl (ValueError 4301).
Proof.
  intros Hleft Hmax; split; [|split; [|split; [|split]]].
  - exact span_reply_deep.
  - intros lim' v; apply loads_reply_deep_no_value.
  - now apply extract_reply_deep.
  - apply direct_json_reply_many_digits.
  - now apply extract_reply_many_digits.
Qed.

(** The final fallback, where the steps before it return.  When the first
    step yields nothing ([json.loads] has raised a [JSONDecodeError], or
    there was no text for it) and the pattern of none of the four assets is
    found in the text, the extractor returns exactly the allocation of 100
    for Cash with the fixed explanation. *)
Theorem nothing_found_cash todecimal lim text :
  direct_json lim text = inr None ->
  (forall asset, In asset (keys MARKET_TRENDS) ->
     Re.search todecimal true (pattern asset) text = None) ->
  extract_json_from_text todecimal lim text
  = inr (VDict [ (py "allocation", VDict [ (py "Cash", VInt 100) ]);
                 (py "explanation",
                  VStr (py "Unable to parse specific allocations. Please review the full response for details.")) ]).
Proof.
  intros Hjson Hnone.
  rewrite extract_steps, Hjson.
  apply fallback_cash.
  unfold matched_percentages, asset_percentage, asset_digits.
  cbn [keys MARKET_TRENDS map fst flat_map].
  rewrite !Hnone; cbn; auto 10.
Qed.


Lemma stub_limits_deep : (recursion_left stub_limits <= 3000)%nat.
Proof. apply Nat.leb_le; vm_compute; reflexivity. Qed.

(** With 900 levels left, the 900th opening bracket of [reply_deep] is one
    too many. *)
Lemma final_fallback_raises_witness :
  extract_json_from_text unicode_todecimal stub_limits reply_deep
  = inl (RecursionError decoding_array).
Proof. exact (proj2 (proj2 (final_fallback_raises stub_limits stub_limits_deep))). Defined.

(** The percentage of 4301 digits is one digit too long. *)
Lemma extractor_raises_witness :
  extract_json_from_text unicode_todecimal stub_limits reply_many_digits
  = inl (ValueError 4301).
Proof.
  exact (proj2 (proj2 (proj2 (proj2
           (extractor_raises stub_limits stub_limits_deep eq_refl))))).
Defined.

(** A refusal holds neither an object nor a percentage. *)
Lemma nothing_found_cash_witness :
  extract_json_from_text unicode_todecimal stub_limits reply_refusal
  = inr (VDict [ (py "allocation", VDict [ (py "Cash", VInt 100) ]);
                 (py "explanation",
                  VStr (py "Unable to parse specific allocations. Please review the full response for details.")) ]).
Proof.
  apply (nothing_found_cash unicode_todecimal stub_limits reply_refusal).
  - vm_compute; reflexivity.
  - intros asset Hin; vm_compute in Hin.
    destruct Hin as [<-|[<-|[<-|[<-|[]]]]]; vm_compute; reflexivity.
Defined.

(** The two replies through the endpoint: the request fails with status
    500 and the message of the exception. *)
Example deep_reply_fails_request :
  stub_endpoint reply_deep
  = HTTPException 500 (stub_str (RecursionError decoding_array)).
Proof. vm_compute; reflexivity. Qed.

Example many_digits_reply_fails_request :
  stub_endpoint reply_many_digits = HTTPException 500 (stub_str (ValueError 4301)).
Proof. vm_compute; reflexivity. Qed.
